(** * Gophermart: order admission, ledger store and accrual reconciliation

    A shallow embedding of the loyalty-points service:
    - [internal/app/handlers.go]: the order-number checksum and the two
      handlers that guard the store ([apiAddUserOrder],
      [apiBalanceWithdraw]), and the reading handlers;
    - [internal/app/middleware.go]: [AuthorizationVerifier];
    - the [AuthServer] of package [app]: [registerUser], [login] and
      [parseRequest];
    - [internal/storage]: the [AppStorage] methods of [pgxStorage], each SQL
      statement embedded as a function on tables, together with the
      constraints of the schema (the goose migration);
    - [internal/accrual]: [getOrderStatus], the reconciliation tick
      [update] and the wait before a retry of [NewAccrual].

    Conventions.
    - Money ([float64] in Go, [NUMERIC(15,2)] / [DOUBLE PRECISION] in the
      schema) is an exact integer number of hundredths, [Z]; rounding and
      the precision limit of the columns are not modelled.
    - A [uuid.UUID] is a number [N].  Row ids produced by [uuid.New()] for
      orders, balance and withdrawal rows are never read back and are left
      out; the id of a new user is an argument of [AddUser].
    - Timestamps ([uploaded_at], [updated_at], [processed_at]) are left out.
    - A table is the list of its rows in insertion order.
    - Every round trip to the database may fail; a [fault] says which one
      does. *)

From Stdlib Require Import ZArith List Ascii String Bool Lia.
From stdpp Require Import base option list gmap.
Import ListNotations.

Local Open Scope string_scope.
Local Open Scope Z_scope.

(** ** The ledger store ([internal/storage]) *)

Module storage.

Definition UUID : Type := N.

Definition StatusNew : string := "NEW".
Definition StatusInvalid : string := "INVALID".
Definition StatusProcessing : string := "PROCESSING".
Definition StatusProcessed : string := "PROCESSED".

(** The sentinel errors of the package, a [*pgconn.PgError] with its
    SQLSTATE code, and any other error of the driver (lost connection,
    timeout of the operation context). *)
Inductive error : Type :=
| ErrDuplicateUser
| ErrNoSuchUser
| ErrNotEnoughBalance
| ErrDuplicateOrder
| ErrOrderAlreadyPlaced
| PgError (code : string)
| ErrConn.

Definition UniqueViolationCode : string := "23505".
(** SQLSTATE codes PostgreSQL raises for the other constraints of the
    schema. *)
Definition ForeignKeyViolationCode : string := "23503".
Definition CheckViolationCode : string := "23514".

(** [errors.As(err, &pgErr) && pgErr.Code == UniqueViolationCode] *)
Definition is_unique_violation (e : error) : bool :=
  match e with
  | PgError code => String.eqb code UniqueViolationCode
  | _ => false
  end.

Inductive result (A : Type) : Type :=
| Ok (a : A)
| Err (e : error).
Arguments Ok {A} a.
Arguments Err {A} e.

Record UserAuthorization : Type := mkUser {
  ID : UUID;
  Login : string;
  Password : string
}.

Record BalanceInfo : Type := mkBalanceInfo {
  Current : Z;
  Withdrawn : Z
}.

(** [OrderNumber] and [UserID] are also fields of [Order]; here they carry
    a [W]. *)
Record Withdrawal : Type := mkWithdrawal {
  WOrderNumber : string;
  WUserID : UUID;
  Sum : Z
}.

Record Order : Type := mkOrder {
  UserID : UUID;
  OrderNumber : string;
  Status : string;
  Accrual : Z
}.

(** A row of table [balance]: [user_id], [current], [withdrawn]. *)
Record balance_row : Type := mkBalance {
  user_id : UUID;
  current : Z;
  withdrawn : Z
}.

(** The four tables of the migration. *)
Record DB : Type := mkDB {
  users : list UserAuthorization;
  orders : list Order;
  balance : list balance_row;
  withdrawal : list Withdrawal
}.

Definition empty_db : DB := mkDB [] [] [] [].

Definition set_users (db : DB) (us : list UserAuthorization) : DB :=
  mkDB us (orders db) (balance db) (withdrawal db).
Definition set_orders (db : DB) (os : list Order) : DB :=
  mkDB (users db) os (balance db) (withdrawal db).
Definition set_balance (db : DB) (bs : list balance_row) : DB :=
  mkDB (users db) (orders db) bs (withdrawal db).
Definition set_withdrawal (db : DB) (ws : list Withdrawal) : DB :=
  mkDB (users db) (orders db) (balance db) ws.

(** *** The SQL statements

    Each statement is a function on the tables; an [INSERT] or [UPDATE]
    that breaks a constraint of the schema fails with the SQLSTATE of
    that constraint and changes nothing. *)

(** [users(id)] is referenced by the three other tables. *)
Definition user_exists (db : DB) (id : UUID) : bool :=
  existsb (fun u => N.eqb (ID u) id) (users db).

(** [INSERT INTO users (id, login, password) VALUES ($1, $2, $3)];
    [id] is the primary key, [login] is [UNIQUE]. *)
Definition insert_user (id : UUID) (login password : string) (db : DB) : result DB :=
  if existsb (fun u => N.eqb (ID u) id || String.eqb (Login u) login) (users db)
  then Err (PgError UniqueViolationCode)
  else Ok (set_users db (users db ++ [mkUser id login password])).

(** [INSERT INTO balance (id, user_id, current, withdrawn)
     VALUES ($1, $2, 0, 0)]; [user_id REFERENCES users(id)]. *)
Definition insert_balance (user : UUID) (db : DB) : result DB :=
  if user_exists db user
  then Ok (set_balance db (balance db ++ [mkBalance user 0 0]))
  else Err (PgError ForeignKeyViolationCode).

(** [INSERT INTO orders (id, user_id, order_number) VALUES ($1, $2, $3)];
    [order_number] is [UNIQUE], [user_id REFERENCES users(id)], [status]
    defaults to ['NEW'] and [accrual] to [0.00]. *)
Definition insert_order (user : UUID) (number : string) (db : DB) : result DB :=
  if existsb (fun o => String.eqb (OrderNumber o) number) (orders db)
  then Err (PgError UniqueViolationCode)
  else if user_exists db user
  then Ok (set_orders db (orders db ++ [mkOrder user number StatusNew 0]))
  else Err (PgError ForeignKeyViolationCode).

(** [UPDATE orders SET status=$1, accrual=$2, updated_at=NOW()
     WHERE order_number=$3] *)
Definition update_order_row (status : string) (accrual : Z) (number : string)
    (o : Order) : Order :=
  if String.eqb (OrderNumber o) number
  then mkOrder (UserID o) (OrderNumber o) status accrual
  else o.

Definition update_order (status : string) (accrual : Z) (number : string)
    (db : DB) : result DB :=
  Ok (set_orders db (update_order_row status accrual number <$> orders db)).

(** [SELECT user_id FROM orders WHERE order_number = $1] *)
Definition select_order_owner (number : string) (db : DB) : list UUID :=
  UserID <$> filter (fun o => String.eqb (OrderNumber o) number) (orders db).

(** [SELECT order_number, user_id, status, accrual, uploaded_at FROM orders
     WHERE status IN ('NEW', 'PROCESSING')] *)
Definition is_unfinished (o : Order) : bool :=
  String.eqb (Status o) "NEW" || String.eqb (Status o) "PROCESSING".

Definition select_unfinished (db : DB) : list Order :=
  filter is_unfinished (orders db).

(** [SELECT current, withdrawn FROM balance WHERE user_id = $1] *)
Definition select_balance (user : UUID) (db : DB) : list BalanceInfo :=
  (fun b => mkBalanceInfo (current b) (withdrawn b))
    <$> filter (fun b => N.eqb (user_id b) user) (balance db).

(** [INSERT INTO withdrawal (id, order_number, user_id, sum)
     VALUES ($1, $2, $3, $4)]; [CHECK (sum >= 0.0)], [order_number] is
    [UNIQUE], [user_id REFERENCES users(id)]. *)
Definition insert_withdrawal (number : string) (user : UUID) (sum : Z)
    (db : DB) : result DB :=
  if sum <? 0
  then Err (PgError CheckViolationCode)
  else if existsb (fun w => String.eqb (WOrderNumber w) number) (withdrawal db)
  then Err (PgError UniqueViolationCode)
  else if user_exists db user
  then Ok (set_withdrawal db (withdrawal db ++ [mkWithdrawal number user sum]))
  else Err (PgError ForeignKeyViolationCode).

(** [CHECK (current >= 0.00)] and [CHECK (withdrawn >= 0.00)] of table
    [balance]. *)
Definition balance_check (b : balance_row) : bool :=
  (0 <=? current b) && (0 <=? withdrawn b).

(** An [UPDATE balance SET ... WHERE user_id = $2]: every row of the user
    is rewritten by [f]; the statement fails when a rewritten row breaks a
    [CHECK]. *)
Definition update_balance (f : balance_row -> balance_row) (user : UUID)
    (db : DB) : result DB :=
  if forallb (fun b => negb (N.eqb (user_id b) user) || balance_check (f b))
             (balance db)
  then Ok (set_balance db
             ((fun b => if N.eqb (user_id b) user then f b else b)
                <$> balance db))
  else Err (PgError CheckViolationCode).

(** [SET current = current - $1, withdrawn = withdrawn + $1] *)
Definition debit (sum : Z) (b : balance_row) : balance_row :=
  mkBalance (user_id b) (current b - sum) (withdrawn b + sum).

(** [SET current = current + $1] *)
Definition credit (amount : Z) (b : balance_row) : balance_row :=
  mkBalance (user_id b) (current b + amount) (withdrawn b).

(** *** Calls on the connection pool

    A [fault] is [None] when the database answers every round trip of a
    call, and [Some k] when round trip number [k] (from 0) fails.  A
    computation [tx A] runs on the tables as they are inside the running
    call and on what is left of the fault; an error leaves no tables
    behind: the deferred [tx.Rollback] discards them. *)

Definition fault : Type := option nat.
Definition no_fault : fault := None.

Definition tx (A : Type) : Type := DB -> fault -> fault * result (A * DB).

Definition ret {A : Type} (a : A) : tx A :=
  fun db f => (f, Ok (a, db)).

Definition bind {A B : Type} (m : tx A) (k : A -> tx B) : tx B :=
  fun db f =>
    match m db f with
    | (f', Ok (a, db')) => k a db' f'
    | (f', Err e) => (f', Err e)
    end.

Definition throw {A : Type} (e : error) : tx A :=
  fun _ f => (f, Err e).

(** [_, err = ...] followed by a test of [err]: the error is a value,
    and the tables are those from before the failed statement. *)
Definition try {A : Type} (m : tx A) : tx (result A) :=
  fun db f =>
    match m db f with
    | (f', Ok (a, db')) => (f', Ok (Ok a, db'))
    | (f', Err e) => (f', Ok (Err e, db))
    end.

Notation "x <- m ;; k" := (bind m (fun x => k))
  (at level 90, m at level 80, right associativity).
Notation "m ;;; k" := (bind m (fun _ => k))
  (at level 90, right associativity).

Definition roundtrip : tx unit :=
  fun db f =>
    match f with
    | None => (None, Ok (tt, db))
    | Some O => (None, Err ErrConn)
    | Some (S k) => (Some k, Ok (tt, db))
    end.

Definition Begin : tx unit := roundtrip.
Definition Commit : tx unit := roundtrip.

Definition Exec (stmt : DB -> result DB) : tx unit :=
  roundtrip ;;;
  fun db f =>
    match stmt db with
    | Ok db' => (f, Ok (tt, db'))
    | Err e => (f, Err e)
    end.

Definition Query {A : Type} (q : DB -> A) : tx A :=
  roundtrip ;;; fun db f => (f, Ok (q db, db)).

(** What a caller of a storage method observes: the tables afterwards and
    the returned value or error. *)
Definition run {A : Type} (m : tx A) (f : fault) (db : DB) : DB * result A :=
  match m db f with
  | (_, Ok (a, db')) => (db', Ok a)
  | (_, Err e) => (db, Err e)
  end.

Fixpoint for_each {A : Type} (body : A -> tx unit) (l : list A) : tx unit :=
  match l with
  | [] => ret tt
  | a :: rest => body a ;;; for_each body rest
  end.

(** *** The methods of [pgxStorage] *)

Definition AddUser (newID : UUID) (auth : UserAuthorization) : tx unit :=
  Begin ;;;
  r <- try (Exec (insert_user newID (Login auth) (Password auth))) ;;
  match r with
  | Err e => if is_unique_violation e then throw ErrDuplicateUser else throw e
  | Ok _ =>
      Exec (insert_balance newID) ;;;
      Commit
  end.

Definition checkDuplicateOrder (orderNumber : string) (userID : UUID) : tx unit :=
  r <- Query (select_order_owner orderNumber) ;;
  match r with
  | clientID :: _ =>
      if N.eqb clientID userID
      then throw ErrOrderAlreadyPlaced
      else throw ErrDuplicateOrder
  | [] => throw ErrDuplicateOrder
  end.

Definition AddOrder (userID : UUID) (orderNumber : string) : tx unit :=
  Begin ;;;
  r <- try (Exec (insert_order userID orderNumber)) ;;
  match r with
  | Err e =>
      if is_unique_violation e
      then checkDuplicateOrder orderNumber userID
      else throw e
  | Ok _ => Commit
  end.

Definition UpdateOrder (order : Order) : tx unit :=
  Begin ;;;
  Exec (update_order (Status order) (Accrual order) (OrderNumber order)) ;;;
  Commit.

Definition GetUnfinishedOrders : tx (list Order) :=
  Query select_unfinished.

Definition first_balance (rows : list BalanceInfo) : BalanceInfo :=
  match rows with
  | info :: _ => info
  | [] => mkBalanceInfo 0 0
  end.

Definition Withdraw (userID : UUID) (order : string) (sum : Z) : tx unit :=
  Begin ;;;
  rows <- Query (select_balance userID) ;;
  let info := first_balance rows in
  if Current info - sum <? 0
  then throw ErrNotEnoughBalance
  else
    Exec (insert_withdrawal order userID sum) ;;;
    Exec (update_balance (debit sum) userID) ;;;
    Commit.

Definition AddBalance (userID : UUID) (amount : Z) : tx unit :=
  Begin ;;;
  Exec (update_balance (credit amount) userID) ;;;
  Commit.

(** [totalAmount[o.UserID] += o.Accrual] on a [map[uuid.UUID]float64]:
    a missing key reads as 0. *)
Definition add_total (m : gmap N Z) (o : Order) : gmap N Z :=
  <[UserID o := default 0 (m !! UserID o) + Accrual o]> m.

Fixpoint update_orders_loop (totalAmount : gmap N Z) (os : list Order)
    : tx (gmap N Z) :=
  match os with
  | [] => ret totalAmount
  | o :: rest =>
      Exec (update_order (Status o) (Accrual o) (OrderNumber o)) ;;;
      update_orders_loop (add_total totalAmount o) rest
  end.

(** [for id, amount := range totalAmount]: Go leaves the order of the
    iteration open; the entries are taken in the order of
    [map_to_list]. *)
Definition UpdateBalanceFromOrders (os : list Order) : tx unit :=
  match os with
  | [] => ret tt
  | _ :: _ =>
      Begin ;;;
      totalAmount <- update_orders_loop ∅ os ;;
      for_each (fun '(id, amount) => Exec (update_balance (credit amount) id))
               (map_to_list totalAmount) ;;;
      Commit
  end.

Definition GetBalance (userID : UUID) : tx BalanceInfo :=
  rows <- Query (select_balance userID) ;;
  ret (first_balance rows).

(** *** The reading methods *)

(** [SELECT id, login, password FROM users WHERE login = $1] *)
Definition select_user_by_login (login : string) (db : DB)
    : list UserAuthorization :=
  filter (fun u => String.eqb (Login u) login) (users db).

(** [SELECT login, password FROM users WHERE id = $1] *)
Definition select_user_by_id (id : UUID) (db : DB) : list (string * string) :=
  (fun u => (Login u, Password u))
    <$> filter (fun u => N.eqb (ID u) id) (users db).

Definition GetUserAuthInfo (userName : string) : tx UserAuthorization :=
  r <- Query (select_user_by_login userName) ;;
  match r with
  | authData :: _ => ret authData
  | [] => throw ErrNoSuchUser
  end.

(** [authData := UserAuthorization{ID: userID}], then the row is scanned
    into [Login] and [Password]. *)
Definition GetUserAuthInfoByID (userID : UUID) : tx UserAuthorization :=
  r <- Query (select_user_by_id userID) ;;
  match r with
  | (login, password) :: _ => ret (mkUser userID login password)
  | [] => throw ErrNoSuchUser
  end.

(** [SELECT order_number, status, accrual, uploaded_at FROM orders
     WHERE user_id = $1] *)
Definition select_orders_of (user : UUID) (db : DB)
    : list (string * string * Z) :=
  (fun o => (OrderNumber o, Status o, Accrual o))
    <$> filter (fun o => N.eqb (UserID o) user) (orders db).

(** [order := Order{UserID: userID}], then the row is scanned into the
    other fields. *)
Definition GetOrders (userID : UUID) : tx (list Order) :=
  rows <- Query (select_orders_of userID) ;;
  ret ((fun '(number, status, accrual) => mkOrder userID number status accrual)
         <$> rows).

(** [SELECT order_number, sum, processed_at FROM withdrawal
     WHERE user_id = $1] *)
Definition select_withdrawals (user : UUID) (db : DB) : list (string * Z) :=
  (fun w => (WOrderNumber w, Sum w))
    <$> filter (fun w => N.eqb (WUserID w) user) (withdrawal db).

(** [w := Withdrawal{}]: the row is scanned into [OrderNumber] and [Sum];
    [UserID] stays the zero UUID. *)
Definition GetWithdrawals (userID : UUID) : tx (list Withdrawal) :=
  rows <- Query (select_withdrawals userID) ;;
  ret ((fun '(number, sum) => mkWithdrawal number 0%N sum) <$> rows).

End storage.

(** ** The accrual client and the reconciliation tick ([internal/accrual]) *)

Module accrual.

Definition StatusRegistered : string := "REGISTERED".
Definition StatusInvalid : string := "INVALID".
Definition StatusProcessing : string := "PROCESSING".
Definition StatusProcessed : string := "PROCESSED".

Record orderInfo : Type := mkInfo {
  Order : string;
  Status : string;
  Accrual : Z
}.

(** What [request.Get(url)] hands back once the HTTP client is done with
    its own retries: a transport error, or a response with its status code
    and its body, [None] when [json.Unmarshal] rejects the body. *)
Inductive http_result : Type :=
| TransportError
| Response (code : Z) (body : option orderInfo).

(** The accrual service during one tick, by order number. *)
Definition service : Type := string -> http_result.

Definition StatusOK : Z := 200.

(** [nil, err] is [None]. *)
Definition getOrderStatus (svc : service) (orderID : string) : option orderInfo :=
  match svc orderID with
  | TransportError => None
  | Response code body => if code =? StatusOK then body else None
  end.

(** The [switch info.Status] of [update], on [orders[i]]. *)
Definition translate (o : storage.Order) (info : orderInfo) : storage.Order :=
  if String.eqb (Status info) StatusRegistered
     || String.eqb (Status info) StatusProcessing
  then storage.mkOrder (storage.UserID o) (storage.OrderNumber o)
         storage.StatusProcessing (storage.Accrual o)
  else if String.eqb (Status info) StatusInvalid
  then storage.mkOrder (storage.UserID o) (storage.OrderNumber o)
         storage.StatusInvalid (storage.Accrual o)
  else if String.eqb (Status info) StatusProcessed
  then storage.mkOrder (storage.UserID o) (storage.OrderNumber o)
         storage.StatusProcessed (Accrual info)
  else o.

(** The storage faults of one tick: of [GetUnfinishedOrders], of the
    [UpdateOrder] of the order at each index, of
    [UpdateBalanceFromOrders]. *)
Record tick_faults : Type := mkFaults {
  f_list : storage.fault;
  f_order : nat -> storage.fault;
  f_credit : storage.fault
}.

Definition no_faults : tick_faults :=
  mkFaults storage.no_fault (fun _ => storage.no_fault) storage.no_fault.

(** A line of [u.Logger.Error]. *)
Definition log_line : Type := (string * storage.error)%type.

(** The state of the second loop of [update]: the store, the slice
    [ordersWithBalanceUpdate] and the log. *)
Record loop_state : Type := mkLoop {
  l_db : storage.DB;
  l_batch : list storage.Order;
  l_log : list log_line
}.

(** The body of [for i, info := range ordersInfo] for index [i]. *)
Definition loop_body (tf : tick_faults) (i : nat) (o : storage.Order)
    (info : option orderInfo) (st : loop_state) : loop_state :=
  match info with
  | None => st
  | Some info =>
      let o' := translate o info in
      let batch :=
        if String.eqb (Status info) storage.StatusProcessed
        then (l_batch st ++ [o'])%list
        else l_batch st in
      match storage.run (storage.UpdateOrder o') (f_order tf i) (l_db st) with
      | (db', storage.Ok _) => mkLoop db' batch (l_log st)
      | (db', storage.Err e) =>
          mkLoop db' batch (l_log st ++ [("can't update order", e)])%list
      end
  end.

Fixpoint loop (tf : tick_faults) (i : nat)
    (work : list (storage.Order * option orderInfo)) (st : loop_state)
    : loop_state :=
  match work with
  | [] => st
  | (o, info) :: rest => loop tf (S i) rest (loop_body tf i o info st)
  end.

(** One tick.  The lookups of the goroutines fill [ordersInfo] index by
    index before the second loop starts ([wg.Wait]). *)
Definition update (svc : service) (tf : tick_faults) (db : storage.DB)
    : storage.DB * list log_line :=
  match storage.run storage.GetUnfinishedOrders (f_list tf) db with
  | (_, storage.Err _) => (db, [])
  | (_, storage.Ok []) => (db, [])
  | (_, storage.Ok orders) =>
      let ordersInfo :=
        (fun o => getOrderStatus svc (storage.OrderNumber o)) <$> orders in
      let st := loop tf 0 (combine orders ordersInfo) (mkLoop db [] []) in
      match storage.run (storage.UpdateBalanceFromOrders (l_batch st))
                        (f_credit tf) (l_db st) with
      | (db', storage.Ok _) => (db', l_log st)
      | (db', storage.Err e) => (db', (l_log st ++ [("can't update balance", e)])%list)
      end
  end.

(** *** The wait before a retry ([NewAccrual], [retryFn])

    [response.Header().Get("Retry-After")] is the empty string when the
    header is missing.  [ParseInt] stands for
    [strconv.ParseInt(_, 10, 64)], [None] being its error.  A
    [time.Duration] is an [int64] count of nanoseconds: the product with
    [time.Second] wraps around.  The answer [None] is [(0, err)]. *)
Definition StatusTooManyRequests : Z := 429.

Definition Second : Z := 1000000000.

Definition int64 (z : Z) : Z := (z + 2 ^ 63) mod 2 ^ 64 - 2 ^ 63.

Definition retryFn (ParseInt : string -> option Z) (statusCode : Z)
    (retryAfterValue : string) : option Z :=
  if negb (statusCode =? StatusTooManyRequests)
  then Some 0
  else if (String.length retryAfterValue =? 0)%nat
  then Some 0
  else
    match ParseInt retryAfterValue with
    | None => None
    | Some seconds => Some (int64 (seconds * Second))
    end.

End accrual.

(** ** The handlers ([internal/app/handlers.go]) *)

Module app.

(** *** [isCorrectOrderNum]

    [number[i]] is a byte; [byte - '0'] and [d * 2] are computed on [uint8]
    and wrap around at 256.  [sum] is an [int]; it grows by 34 at most
    for each byte and is taken as a [Z]. *)
Definition byte_of (c : ascii) : Z := Z.of_N (N_of_ascii c).

Definition uint8 (z : Z) : Z := z mod 256.

(** The loop state: [isSecond] and [sum]. *)
Definition loop_state : Type := bool * Z.

(** One iteration of the loop body on the byte [c]. *)
Definition loop_body (st : loop_state) (c : ascii) : loop_state :=
  let d := uint8 (byte_of c - 48) in
  let d := if fst st then uint8 (d * 2) else d in
  (negb (fst st), snd st + d / 10 + d mod 10).

(** [for i := digitsCount - 1; i >= 0; i--]: the bytes from the last one
    to the first. *)
Definition loop (number : string) : loop_state :=
  fold_left loop_body (rev (list_ascii_of_string number)) (false, 0).

Definition isCorrectOrderNum (number : string) : bool :=
  snd (loop number) mod 10 =? 0.

(** A byte is a decimal digit. *)
Definition is_digit (c : ascii) : bool :=
  (48 <=? byte_of c) && (byte_of c <=? 57).

Definition all_digits (number : string) : bool :=
  forallb is_digit (list_ascii_of_string number).

(** The byte-wise checksum written as a recursion on the bytes counted
    from the right: the byte at even distance from the end counts as it
    is, the byte at odd distance is doubled. *)
Fixpoint bytewise_sum (second : bool) (bytes_from_right : list ascii) : Z :=
  match bytes_from_right with
  | [] => 0
  | c :: rest =>
      let d := uint8 (byte_of c - 48) in
      let d := if second then uint8 (d * 2) else d in
      d / 10 + d mod 10 + bytewise_sum (negb second) rest
  end.

Definition luhn_sum (number : string) : Z :=
  bytewise_sum false (rev (list_ascii_of_string number)).

(** *** The handlers *)

Definition StatusOK : Z := 200.
Definition StatusAccepted : Z := 202.
Definition StatusBadRequest : Z := 400.
Definition StatusPaymentRequired : Z := 402.
Definition StatusConflict : Z := 409.
Definition StatusUnprocessableEntity : Z := 422.
Definition StatusInternalServerError : Z := 500.

Record balanceWithdrawRequest : Type := mkWithdrawRequest {
  Order : string;
  Sum : Z
}.

(** [apiAddUserOrder] for the authenticated user [userID]: the store
    afterwards and the status code written. *)
Definition apiAddUserOrder (contentType body : string) (userID : storage.UUID)
    (f : storage.fault) (db : storage.DB) : storage.DB * Z :=
  if negb (String.eqb contentType "text/plain")
  then (db, StatusBadRequest)
  else if negb (isCorrectOrderNum body)
  then (db, StatusUnprocessableEntity)
  else
    match storage.run (storage.AddOrder userID body) f db with
    | (db', storage.Err storage.ErrDuplicateOrder) => (db', StatusConflict)
    | (db', storage.Err storage.ErrOrderAlreadyPlaced) => (db', StatusOK)
    | (db', storage.Err _) => (db', StatusBadRequest)
    | (db', storage.Ok _) => (db', StatusAccepted)
    end.

(** [apiBalanceWithdraw]; [request] is what [apiParseRequest] decodes from
    the body, [None] when [json.Unmarshal] fails. *)
Definition apiBalanceWithdraw (contentType : string)
    (request : option balanceWithdrawRequest) (userID : storage.UUID)
    (f : storage.fault) (db : storage.DB) : storage.DB * Z :=
  if negb (String.eqb contentType "application/json")
  then (db, StatusInternalServerError)
  else
    match request with
    | None => (db, StatusInternalServerError)
    | Some withdrawRequest =>
        if negb (isCorrectOrderNum (Order withdrawRequest))
        then (db, StatusUnprocessableEntity)
        else
          match storage.run
                  (storage.Withdraw userID (Order withdrawRequest)
                     (Sum withdrawRequest)) f db with
          | (db', storage.Err storage.ErrNotEnoughBalance) =>
              (db', StatusPaymentRequired)
          | (db', storage.Err _) => (db', StatusInternalServerError)
          | (db', storage.Ok _) => (db', StatusOK)
          end
    end.

(** *** Reading the request ([parseRequest], [apiParseRequest])

    [decoded] is what [json.Unmarshal] makes of the body, [None] when it
    fails. *)
Inductive error : Type :=
| ErrBadContentType
| ErrBodyUnmarshal.

Inductive parsed (A : Type) : Type :=
| Body (a : A)
| Failed (e : error).
Arguments Body {A} a.
Arguments Failed {A} e.

Definition parseRequest {A : Type} (contentType : string) (decoded : option A)
    : parsed A :=
  if negb (String.eqb contentType "application/json")
  then Failed ErrBadContentType
  else
    match decoded with
    | None => Failed ErrBodyUnmarshal
    | Some body => Body body
    end.

(** *** Registration and login

    A handler answers with a status code and, when it sets the cookie
    [jwt], with the user id the token is made of ([authorizer.Encode] of
    the claims [id] and [ts]); [encodes] tells whether [Encode] goes
    through. *)
Definition StatusUnauthorized : Z := 401.
Definition StatusNoContent : Z := 204.

Record userAuthRequest : Type := mkAuthRequest {
  Login : string;
  Password : string
}.

Record answer : Type := mkAnswer {
  a_db : storage.DB;
  a_code : Z;
  a_cookie : option storage.UUID
}.

(** [newID] is the [uuid.New()] of [AddUser]; [f1] and [f2] are the faults
    of [AddUser] and of [GetUserAuthInfo]. *)
Definition registerUser (contentType : string) (decoded : option userAuthRequest)
    (newID : storage.UUID) (encodes : bool) (f1 f2 : storage.fault)
    (db : storage.DB) : answer :=
  match parseRequest contentType decoded with
  | Failed _ => mkAnswer db StatusBadRequest None
  | Body authData =>
      match storage.run
              (storage.AddUser newID
                 (storage.mkUser 0%N (Login authData) (Password authData)))
              f1 db with
      | (db1, storage.Err storage.ErrDuplicateUser) =>
          mkAnswer db1 StatusConflict None
      | (db1, storage.Err _) => mkAnswer db1 StatusInternalServerError None
      | (db1, storage.Ok _) =>
          match storage.run (storage.GetUserAuthInfo (Login authData)) f2 db1 with
          | (db2, storage.Err _) => mkAnswer db2 StatusInternalServerError None
          | (db2, storage.Ok userData) =>
              if encodes
              then mkAnswer db2 StatusOK (Some (storage.ID userData))
              else mkAnswer db2 StatusInternalServerError None
          end
      end
  end.

(** [bytes.Equal(dbUserData.Password, []byte(authData.Password))] *)
Definition login (contentType : string) (decoded : option userAuthRequest)
    (encodes : bool) (f : storage.fault) (db : storage.DB) : answer :=
  match parseRequest contentType decoded with
  | Failed _ => mkAnswer db StatusBadRequest None
  | Body authData =>
      match storage.run (storage.GetUserAuthInfo (Login authData)) f db with
      | (db1, storage.Err _) => mkAnswer db1 StatusUnauthorized None
      | (db1, storage.Ok dbUserData) =>
          if negb (String.eqb (storage.Password dbUserData) (Password authData))
          then mkAnswer db1 StatusUnauthorized None
          else if encodes
          then mkAnswer db1 StatusOK (Some (storage.ID dbUserData))
          else mkAnswer db1 StatusInternalServerError None
      end
  end.

(** *** [AuthorizationVerifier]

    [token] is what [jwtauth.FromContext] finds, [None] when it returns an
    error; a claim is a string or something else, and [id.(string)] on
    something else panics.  [Parse] stands for [uuid.Parse], [None] being
    its error. *)
Inductive claim : Type :=
| ClaimString (s : string)
| ClaimOther.

Inductive verdict : Type :=
| Refused (code : Z)
| Passed (userData : storage.UserAuthorization)
| Panics.

Definition AuthorizationVerifier (Parse : string -> option storage.UUID)
    (token : option (gmap string claim)) (f : storage.fault)
    (db : storage.DB) : verdict :=
  match token with
  | None => Refused StatusUnauthorized
  | Some claims =>
      match claims !! "id" with
      | None => Refused StatusUnauthorized
      | Some ClaimOther => Panics
      | Some (ClaimString id) =>
          match Parse id with
          | None => Refused StatusUnauthorized
          | Some userID =>
              match storage.run (storage.GetUserAuthInfoByID userID) f db with
              | (_, storage.Err _) => Refused StatusUnauthorized
              | (_, storage.Ok userData) => Passed userData
              end
          end
      end
  end.

(** *** The reading handlers

    The answer is the status code and the value handed to
    [apiWriteResponse], [None] when nothing is written. *)
Record orderResponse : Type := mkOrderResponse {
  Number : string;
  RStatus : string;
  Accrual : Z
}.

Record withdrawalsResponse : Type := mkWithdrawalsResponse {
  WOrder : string;
  WSum : Z
}.

Definition apiGetUserOrders (userID : storage.UUID) (f : storage.fault)
    (db : storage.DB) : Z * option (list orderResponse) :=
  match storage.run (storage.GetOrders userID) f db with
  | (_, storage.Err _) => (StatusInternalServerError, None)
  | (_, storage.Ok orders) =>
      (StatusOK,
       Some ((fun e => mkOrderResponse (storage.OrderNumber e)
                         (storage.Status e) (storage.Accrual e)) <$> orders))
  end.

Definition apiGetUserWithdrawals (userID : storage.UUID) (f : storage.fault)
    (db : storage.DB) : Z * option (list withdrawalsResponse) :=
  match storage.run (storage.GetWithdrawals userID) f db with
  | (_, storage.Err _) => (StatusInternalServerError, None)
  | (_, storage.Ok []) => (StatusNoContent, None)
  | (_, storage.Ok ws) =>
      (StatusOK,
       Some ((fun e => mkWithdrawalsResponse (storage.WOrderNumber e)
                         (storage.Sum e)) <$> ws))
  end.

Definition apiGetUserBalance (userID : storage.UUID) (f : storage.fault)
    (db : storage.DB) : Z * option storage.BalanceInfo :=
  match storage.run (storage.GetBalance userID) f db with
  | (_, storage.Err _) => (StatusInternalServerError, None)
  | (_, storage.Ok balance) => (StatusOK, Some balance)
  end.

End app.

(** ** Sequences of operations on the store *)

Inductive op : Type :=
| OpAddUser (f : storage.fault) (newID : storage.UUID) (login password : string)
| OpAddOrder (f : storage.fault) (user : storage.UUID) (number : string)
| OpWithdraw (f : storage.fault) (user : storage.UUID) (reference : string) (sum : Z)
| OpAddBalance (f : storage.fault) (user : storage.UUID) (amount : Z)
| OpTick (svc : accrual.service) (tf : accrual.tick_faults).

Definition step (o : op) (db : storage.DB) : storage.DB :=
  match o with
  | OpAddUser f newID login password =>
      fst (storage.run (storage.AddUser newID (storage.mkUser 0%N login password)) f db)
  | OpAddOrder f user number =>
      fst (storage.run (storage.AddOrder user number) f db)
  | OpWithdraw f user reference sum =>
      fst (storage.run (storage.Withdraw user reference sum) f db)
  | OpAddBalance f user amount =>
      fst (storage.run (storage.AddBalance user amount) f db)
  | OpTick svc tf => fst (accrual.update svc tf db)
  end.

(** The stores passed through by a sequence of operations, the first one
    included. *)
Fixpoint trace (ops : list op) (db : storage.DB) : list storage.DB :=
  match ops with
  | [] => [db]
  | o :: rest => db :: trace rest (step o db)
  end.

Definition run_ops (ops : list op) (db : storage.DB) : storage.DB :=
  fold_left (fun d o => step o d) ops db.

(** ** Invariants of the store *)

(** What [GetBalance] answers for a user. *)
Definition balance_of (db : storage.DB) (user : storage.UUID) : storage.BalanceInfo :=
  storage.first_balance (storage.select_balance user db).

(** The [CHECK] constraints of tables [balance] and [withdrawal]. *)
Definition checks_ok (db : storage.DB) : Prop :=
  Forall (fun b => 0 <= storage.current b /\ 0 <= storage.withdrawn b)
         (storage.balance db)
  /\ Forall (fun w => 0 <= storage.Sum w) (storage.withdrawal db).

(** [order_number VARCHAR NOT NULL UNIQUE] of table [orders]. *)
Definition numbers_unique (db : storage.DB) : Prop :=
  NoDup (storage.OrderNumber <$> storage.orders db).

(** The constraints of the schema, and one balance row per user at most
    (the only [INSERT INTO balance] is the one of [AddUser]). *)
Record consistent (db : storage.DB) : Prop := mkConsistent {
  ok_users : NoDup (storage.ID <$> storage.users db);
  ok_orders : numbers_unique db;
  ok_withdrawals : NoDup (storage.WOrderNumber <$> storage.withdrawal db);
  ok_balance_rows : NoDup (storage.user_id <$> storage.balance db);
  ok_balance_users :
    Forall (fun b => storage.user_exists db (storage.user_id b) = true)
           (storage.balance db);
  ok_checks : checks_ok db
}.

(** A relation between the store before and after is kept by a
    computation when it holds whenever the computation goes through. *)
Definition keeps (R : storage.DB -> storage.DB -> Prop) {A : Type}
    (m : storage.tx A) : Prop :=
  forall db f f' a db',
    m db f = (f', storage.Ok (a, db')) -> R db db'.

(** The first balance row of a user, the one [r.Next()] reaches. *)
Definition first_row (user : storage.UUID) (rows : list storage.balance_row)
    : option storage.balance_row :=
  head (filter (fun b => N.eqb (storage.user_id b) user) rows).

(** Who owns which order number. *)
Definition owners (db : storage.DB) : list (string * storage.UUID) :=
  (fun o => (storage.OrderNumber o, storage.UserID o)) <$> storage.orders db.

(** Relations between the store before and the store after a call. *)
Definition keeps_checks (db db' : storage.DB) : Prop :=
  checks_ok db -> checks_ok db'.

Definition keeps_consistent (db db' : storage.DB) : Prop :=
  consistent db -> consistent db'.

(** The withdrawn total of no user decreases and the recorded withdrawal
    rows stay as they are. *)
Definition withdrawn_grows (db db' : storage.DB) : Prop :=
  (forall user,
     storage.Withdrawn (balance_of db user)
     <= storage.Withdrawn (balance_of db' user))
  /\ storage.withdrawal db `prefix_of` storage.withdrawal db'.

(** Registered order numbers keep their owner. *)
Definition owners_stay (db db' : storage.DB) : Prop :=
  owners db `prefix_of` owners db'.

(** ** The effect of the ledger updater, written out *)

(** The database answers the first [n] round trips of a call. *)
Definition answers (f : storage.fault) (n : nat) : bool :=
  match f with
  | None => true
  | Some k => (n <=? k)%nat
  end.

(** The rows of [orders] after the status writes of a batch, one
    [UPDATE orders] for each order of the batch, in order. *)
Definition writes (batch : list storage.Order) (rows : list storage.Order)
    : list storage.Order :=
  fold_left
    (fun rs o =>
       storage.update_order_row (storage.Status o) (storage.Accrual o)
         (storage.OrderNumber o) <$> rs)
    batch rows.

(** The sum of the accruals of the orders of a batch that belong to a
    user. *)
Fixpoint total (batch : list storage.Order) (user : storage.UUID) : Z :=
  match batch with
  | [] => 0
  | o :: rest =>
      (if N.eqb (storage.UserID o) user then storage.Accrual o else 0)
      + total rest user
  end.

(** The rows of [balance] once every user is credited with the total of
    the batch. *)
Definition credited (batch : list storage.Order) (rows : list storage.balance_row)
    : list storage.balance_row :=
  (fun b => storage.credit (total batch (storage.user_id b)) b) <$> rows.

(** The store after a batch went through. *)
Definition applied (batch : list storage.Order) (db : storage.DB) : storage.DB :=
  storage.mkDB (storage.users db) (writes batch (storage.orders db))
    (credited batch (storage.balance db)) (storage.withdrawal db).

(** The row a tick leaves for an order whose number is in [written]: the
    translation of what the accrual service answered, the row itself when
    the lookup failed. *)
Definition reconciled (svc : accrual.service) (written : list string)
    (r : storage.Order) : storage.Order :=
  if existsb (String.eqb (storage.OrderNumber r)) written
  then match accrual.getOrderStatus svc (storage.OrderNumber r) with
       | Some info => accrual.translate r info
       | None => r
       end
  else r.

(** What the first loop of [update] hands to the second. *)
Definition lookups (svc : accrual.service) (os : list storage.Order)
    : list (storage.Order * option accrual.orderInfo) :=
  (fun o => (o, accrual.getOrderStatus svc (storage.OrderNumber o))) <$> os.

(** The slice [ordersWithBalanceUpdate] the second loop builds. *)
Fixpoint batch_of (work : list (storage.Order * option accrual.orderInfo))
    : list storage.Order :=
  match work with
  | [] => []
  | (o, Some info) :: rest =>
      if String.eqb (accrual.Status info) storage.StatusProcessed
      then accrual.translate o info :: batch_of rest
      else batch_of rest
  | (_, None) :: rest => batch_of rest
  end.

(** The numbers of the orders whose [UpdateOrder] went through in the
    second loop, from index [i] on, added to [acc]. *)
Fixpoint written_by (tf : accrual.tick_faults) (i : nat)
    (work : list (storage.Order * option accrual.orderInfo))
    (acc : list string) : list string :=
  match work with
  | [] => acc
  | (o, Some _) :: rest =>
      written_by tf (S i) rest
        (if answers (accrual.f_order tf i) 3
         then storage.OrderNumber o :: acc
         else acc)
  | (_, None) :: rest => written_by tf (S i) rest acc
  end.

(** The work of a tick: unfinished orders of the store, each with what
    the service said. *)
Definition from_store (svc : accrual.service) (db : storage.DB)
    (work : list (storage.Order * option accrual.orderInfo)) : Prop :=
  forall o info, (o, info) ∈ work ->
    o ∈ storage.orders db /\ storage.is_unfinished o = true
    /\ info = accrual.getOrderStatus svc (storage.OrderNumber o).

(** The row a tick leaves when the database answers every call: the
    translation of what the service said for an unfinished order, the row
    itself when the lookup failed or the order is finished. *)
Definition settled (svc : accrual.service) (r : storage.Order) : storage.Order :=
  if storage.is_unfinished r
  then match accrual.getOrderStatus svc (storage.OrderNumber r) with
       | Some info => accrual.translate r info
       | None => r
       end
  else r.

(** ** The life of an order *)

(** The one-way progression NEW -> PROCESSING -> {INVALID, PROCESSED},
    with the short cuts from NEW; a status may also stay. *)
Inductive status_step : string -> string -> Prop :=
| step_stay s : status_step s s
| step_new_processing : status_step "NEW" "PROCESSING"
| step_new_invalid : status_step "NEW" "INVALID"
| step_new_processed : status_step "NEW" "PROCESSED"
| step_processing_invalid : status_step "PROCESSING" "INVALID"
| step_processing_processed : status_step "PROCESSING" "PROCESSED".

(** A row and what it has become: same owner and number, a status further
    along, and an untouched row once the order is finished. *)
Definition row_advance (r r' : storage.Order) : Prop :=
  storage.UserID r' = storage.UserID r
  /\ storage.OrderNumber r' = storage.OrderNumber r
  /\ status_step (storage.Status r) (storage.Status r')
  /\ (storage.is_unfinished r = false -> r' = r).

Definition rows_advance (db db' : storage.DB) : Prop :=
  forall i r, storage.orders db !! i = Some r ->
    exists r', storage.orders db' !! i = Some r' /\ row_advance r r'.

Definition orders_advance (db db' : storage.DB) : Prop :=
  numbers_unique db -> numbers_unique db' /\ rows_advance db db'.

(** Calls that only ever add order rows. *)
Definition orders_extend (db db' : storage.DB) : Prop :=
  numbers_unique db ->
  numbers_unique db' /\ storage.orders db `prefix_of` storage.orders db'.

(** The statuses of the accrual service the [switch] of [update] knows. *)
Definition recognized (status : string) : bool :=
  String.eqb status accrual.StatusRegistered
  || String.eqb status accrual.StatusProcessing
  || String.eqb status accrual.StatusInvalid
  || String.eqb status accrual.StatusProcessed.

(** ** Stores and ticks used as examples *)

Module demo.

Definition alice : storage.UUID := 1%N.
Definition bob : storage.UUID := 2%N.

(** Two registered users, nothing else. *)
Definition registered : storage.DB :=
  storage.mkDB
    [storage.mkUser alice "alice" "secret"; storage.mkUser bob "bob" "secret"]
    []
    [storage.mkBalance alice 0 0; storage.mkBalance bob 0 0]
    [].

(** Alice has uploaded order 12345678903. *)
Definition uploaded : storage.DB :=
  storage.set_orders registered
    [storage.mkOrder alice "12345678903" "NEW" 0].

(** Alice has uploaded two orders. *)
Definition uploaded_two : storage.DB :=
  storage.set_orders registered
    [storage.mkOrder alice "12345678903" "NEW" 0;
     storage.mkOrder alice "79927398713" "NEW" 0].

(** The accrual service answers 200 with the same status and accrual for
    every order. *)
Definition says (status : string) (accrual : Z) : accrual.service :=
  fun number =>
    accrual.Response 200 (Some (accrual.mkInfo number status accrual)).

(** The connection drops at the [Begin] of [UpdateBalanceFromOrders]. *)
Definition credit_fails : accrual.tick_faults :=
  accrual.mkFaults None (fun _ => None) (Some 0%nat).

(** The connection drops at the [Begin] of the second [UpdateOrder]. *)
Definition second_order_fails : accrual.tick_faults :=
  accrual.mkFaults None
    (fun i => match i with 1%nat => Some 0%nat | _ => None end) None.

(** Order 12345678903 is processed for 500 points and credited. *)
Definition credited_store : storage.DB :=
  storage.mkDB (storage.users registered)
    [storage.mkOrder alice "12345678903" "PROCESSED" 50000]
    [storage.mkBalance alice 50000 0; storage.mkBalance bob 0 0]
    [].

(** Alice has withdrawn 200 points against 79927398713. *)
Definition withdrawn_store : storage.DB :=
  storage.mkDB (storage.users registered)
    [storage.mkOrder alice "12345678903" "PROCESSED" 50000]
    [storage.mkBalance alice 30000 20000; storage.mkBalance bob 0 0]
    [storage.mkWithdrawal "79927398713" alice 20000].

(** Order 12345678903 is processed for 500 points; the credit is missing. *)
Definition lost_credit : storage.DB :=
  storage.set_orders registered
    [storage.mkOrder alice "12345678903" "PROCESSED" 50000].

(** The first of two orders is invalid, the second still new. *)
Definition first_settled : storage.DB :=
  storage.set_orders registered
    [storage.mkOrder alice "12345678903" "INVALID" 0;
     storage.mkOrder alice "79927398713" "NEW" 0].

Definition history : list op :=
  [OpAddOrder None alice "12345678903";
   OpTick (says "PROCESSED" 50000) accrual.no_faults;
   OpWithdraw None alice "79927398713" 20000].

(** Alice and Bob register first. *)
Definition full_history : list op :=
  [OpAddUser None alice "alice" "secret"; OpAddUser None bob "bob" "secret"]
    ++ history.

End demo.

(** Calls that leave users, balances and withdrawals alone. *)
Definition same_ledger (db db' : storage.DB) : Prop :=
  storage.users db' = storage.users db
  /\ storage.balance db' = storage.balance db
  /\ storage.withdrawal db' = storage.withdrawal db.

(** The state of a tick when its second loop is over, before
    [UpdateBalanceFromOrders]. *)
Definition before_credit (svc : accrual.service) (tf : accrual.tick_faults)
    (db : storage.DB) : accrual.loop_state :=
  accrual.loop tf 0 (lookups svc (storage.select_unfinished db))
    (accrual.mkLoop db [] []).

(** ** Accounts *)

(** [login VARCHAR(255) UNIQUE] of table [users]. *)
Definition logins_unique (db : storage.DB) : Prop :=
  NoDup (storage.Login <$> storage.users db).

(** Every user has a balance row and every balance row a user, in the
    order of registration. *)
Definition one_balance_row_each (db : storage.DB) : Prop :=
  storage.user_id <$> storage.balance db = storage.ID <$> storage.users db.

Definition keeps_accounts (db db' : storage.DB) : Prop :=
  logins_unique db /\ one_balance_row_each db ->
  logins_unique db' /\ one_balance_row_each db'.

(** The store with a new account. *)
Definition with_account (db : storage.DB) (id : storage.UUID)
    (login password : string) : storage.DB :=
  storage.mkDB
    (storage.users db ++ [storage.mkUser id login password])
    (storage.orders db)
    (storage.balance db ++ [storage.mkBalance id 0 0])
    (storage.withdrawal db).

(** ** What the reading handlers list *)

(** The orders of a user as [apiGetUserOrders] writes them. *)
Definition listed_orders (user : storage.UUID) (db : storage.DB)
    : list app.orderResponse :=
  (fun o => app.mkOrderResponse (storage.OrderNumber o) (storage.Status o)
              (storage.Accrual o))
    <$> filter (fun o => N.eqb (storage.UserID o) user) (storage.orders db).

(** The withdrawals of a user as [apiGetUserWithdrawals] writes them. *)
Definition receipts (user : storage.UUID) (db : storage.DB)
    : list app.withdrawalsResponse :=
  (fun w => app.mkWithdrawalsResponse (storage.WOrderNumber w) (storage.Sum w))
    <$> filter (fun w => N.eqb (storage.WUserID w) user) (storage.withdrawal db).

Definition receipts_total (user : storage.UUID) (db : storage.DB) : Z :=
  foldr Z.add 0 (app.WSum <$> receipts user db).

(** The withdrawn total of every user is the sum of the user's
    withdrawals. *)
Definition receipts_match (db : storage.DB) : Prop :=
  forall user, storage.Withdrawn (balance_of db user) = receipts_total user db.

Definition keeps_receipts (db db' : storage.DB) : Prop :=
  receipts_match db -> receipts_match db'.

(** What a user holds and has spent. *)
Definition funds (db : storage.DB) (user : storage.UUID) : Z :=
  storage.Current (balance_of db user) + storage.Withdrawn (balance_of db user).

(** ** Ticks the database answers *)

(** The service never reports a negative accrual. *)
Definition never_negative (svc : accrual.service) : Prop :=
  forall number info,
    accrual.getOrderStatus svc number = Some info -> 0 <= accrual.Accrual info.

(** The database answers [GetUnfinishedOrders] and every [UpdateOrder]. *)
Definition writes_answered (tf : accrual.tick_faults) : Prop :=
  answers (accrual.f_list tf) 1 = true
  /\ forall i, answers (accrual.f_order tf i) 3 = true.

(** The batch of a tick: the unfinished orders the service reports as
    processed, translated. *)
Definition batch_for (svc : accrual.service) (db : storage.DB)
    : list storage.Order :=
  batch_of (lookups svc (storage.select_unfinished db)).

(** The accrual service knows order 12345678903 as processed for 500
    points, answers 500 for order 79927398713 and cannot be reached for
    any other. *)
Definition one_processed : accrual.service :=
  fun number =>
    if String.eqb number "12345678903"
    then accrual.Response 200
           (Some (accrual.mkInfo number "PROCESSED" 50000))
    else if String.eqb number "79927398713"
    then accrual.Response 500 None
    else accrual.TransportError.

(** The accrual service cannot be reached. *)
Definition unreachable : accrual.service := fun _ => accrual.TransportError.

(** ** What the processed orders have earned *)

(** What a row counts for a user: its accrual when the order is the
    user's and processed. *)
Definition earning (user : storage.UUID) (r : storage.Order) : Z :=
  if N.eqb (storage.UserID r) user
     && String.eqb (storage.Status r) storage.StatusProcessed
  then storage.Accrual r
  else 0.

Definition earned_by (user : storage.UUID) (rows : list storage.Order) : Z :=
  foldr (fun r acc => earning user r + acc) 0 rows.

(** The accruals of the processed orders of a user. *)
Definition earned (db : storage.DB) (user : storage.UUID) : Z :=
  earned_by user (storage.orders db).

(** What the processed orders of a user have earned and the user has not
    received. *)
Definition uncredited (db : storage.DB) (user : storage.UUID) : Z :=
  earned db user - funds db user.

(** What a tick with service [svc] has to credit to a user for a row. *)
Definition gain (svc : accrual.service) (user : storage.UUID)
    (r : storage.Order) : Z :=
  if storage.is_unfinished r
  then match accrual.getOrderStatus svc (storage.OrderNumber r) with
       | Some info =>
           if String.eqb (accrual.Status info) storage.StatusProcessed
           then if N.eqb (storage.UserID r) user
                then accrual.Accrual info else 0
           else 0
       | None => 0
       end
  else 0.

(** Calls that leave the account of a user as it is. *)
Definition same_account (user : storage.UUID) (db db' : storage.DB) : Prop :=
  funds db' user = funds db user /\ earned db' user = earned db user.

(** The operations the handlers and the updater perform: no direct
    [AddBalance], and ticks against a service that reports no negative
    accrual. *)
Definition accrual_driven (o : op) : Prop :=
  match o with
  | OpAddBalance _ _ _ => False
  | OpTick svc _ => never_negative svc
  | _ => True
  end.

(** * Facts *)

(** ** Calls and transactions *)

Section calls.
Import storage.

Lemma roundtrip_ok db f f' u db' :
  roundtrip db f = (f', Ok (u, db')) -> db' = db.
Proof.
  unfold roundtrip. destruct f as [[|k]|]; intros H; congruence.
Qed.

Lemma bind_ok {A B : Type} (m : tx A) (k : A -> tx B) db f f2 b db2 :
  bind m k db f = (f2, Ok (b, db2)) ->
  exists a db1 f1, m db f = (f1, Ok (a, db1)) /\ k a db1 f1 = (f2, Ok (b, db2)).
Proof.
  unfold bind. destruct (m db f) as [f1 [[a db1]|e]]; intros H.
  - exists a, db1, f1. split; [reflexivity | exact H].
  - discriminate.
Qed.

Lemma Exec_ok stmt db f f' u db' :
  Exec stmt db f = (f', Ok (u, db')) -> stmt db = Ok db'.
Proof.
  unfold Exec. intros H. apply bind_ok in H.
  destruct H as (a & db1 & f1 & Hr & Hs).
  apply roundtrip_ok in Hr. subst db1.
  destruct (stmt db); congruence.
Qed.

Lemma Query_ok {A : Type} (q : DB -> A) db f f' a db' :
  Query q db f = (f', Ok (a, db')) -> a = q db /\ db' = db.
Proof.
  unfold Query. intros H. apply bind_ok in H.
  destruct H as (u & db1 & f1 & Hr & Hs).
  apply roundtrip_ok in Hr. subst db1. split; congruence.
Qed.

Lemma try_ok {A : Type} (m : tx A) db f f' r db' :
  try m db f = (f', Ok (r, db')) ->
  (exists a, r = Ok a /\ m db f = (f', Ok (a, db')))
  \/ (exists e, r = Err e /\ db' = db).
Proof.
  unfold try. destruct (m db f) as [f1 [[a db1]|e]]; intros H.
  - left. exists a. split; congruence.
  - right. exists e. split; congruence.
Qed.

(** A call that returns an error has changed nothing. *)
Lemma run_err {A : Type} (m : tx A) f db db' e :
  run m f db = (db', Err e) -> db' = db.
Proof.
  unfold run. destruct (m db f) as [f1 [[a1 db1]|e1]]; intros H; congruence.
Qed.

Lemma run_cases {A : Type} (m : tx A) f db :
  (exists e, run m f db = (db, Err e))
  \/ (exists a db' f', m db f = (f', Ok (a, db')) /\ run m f db = (db', Ok a)).
Proof.
  unfold run. destruct (m db f) as [f1 [[a1 db1]|e1]].
  - right. exists a1, db1, f1. split; reflexivity.
  - left. exists e1. reflexivity.
Qed.

Ltac tx_inv H :=
  repeat
    (first
       [ apply bind_ok in H; destruct H as (? & ? & ? & ? & H)
       | match goal with
         | H1 : roundtrip _ _ = (_, Ok _) |- _ =>
             apply roundtrip_ok in H1; subst
         | H1 : Begin _ _ = (_, Ok _) |- _ =>
             apply roundtrip_ok in H1; subst
         | H1 : Commit _ _ = (_, Ok _) |- _ =>
             apply roundtrip_ok in H1; subst
         | H1 : Exec _ _ _ = (_, Ok _) |- _ => apply Exec_ok in H1
         | H1 : Query _ _ _ = (_, Ok _) |- _ =>
             apply Query_ok in H1; destruct H1; subst
         end ]).

Lemma throw_not_ok {A : Type} (e : error) db f f' (r : A * DB) :
  throw e db f = (f', Ok r) -> False.
Proof. unfold throw. congruence. Qed.

Lemma AddUser_ok newID auth db f f' u db' :
  AddUser newID auth db f = (f', Ok (u, db')) ->
  exists db1, insert_user newID (Login auth) (Password auth) db = Ok db1
              /\ insert_balance newID db1 = Ok db'.
Proof.
  unfold AddUser. intros H. tx_inv H.
  match goal with H1 : try _ _ _ = _ |- _ => apply try_ok in H1;
    destruct H1 as [(a & -> & H1)|(e & -> & ->)] end.
  - tx_inv H. subst.
    eexists. split; eassumption.
  - destruct (is_unique_violation e); apply throw_not_ok in H; contradiction.
Qed.

Lemma AddOrder_ok userID number db f f' u db' :
  AddOrder userID number db f = (f', Ok (u, db')) ->
  insert_order userID number db = Ok db'.
Proof.
  unfold AddOrder. intros H. tx_inv H.
  match goal with H1 : try _ _ _ = _ |- _ => apply try_ok in H1;
    destruct H1 as [(a & -> & H1)|(e & -> & ->)] end.
  - tx_inv H. subst. assumption.
  - destruct (is_unique_violation e).
    + unfold checkDuplicateOrder in H. tx_inv H.
      destruct (select_order_owner number _) as [|c l].
      * apply throw_not_ok in H. contradiction.
      * destruct (N.eqb c userID); apply throw_not_ok in H; contradiction.
    + apply throw_not_ok in H. contradiction.
Qed.

Lemma UpdateOrder_ok o db f f' u db' :
  UpdateOrder o db f = (f', Ok (u, db')) ->
  db' = set_orders db
          (update_order_row (Status o) (Accrual o) (OrderNumber o) <$> orders db).
Proof.
  unfold UpdateOrder. intros H. tx_inv H. subst.
  unfold update_order in *. congruence.
Qed.

Lemma Withdraw_ok userID number sum db f f' u db' :
  Withdraw userID number sum db f = (f', Ok (u, db')) ->
  0 <= Current (first_balance (select_balance userID db)) - sum
  /\ exists db1, insert_withdrawal number userID sum db = Ok db1
                 /\ update_balance (debit sum) userID db1 = Ok db'.
Proof.
  unfold Withdraw. intros H. tx_inv H.
  destruct (Z.ltb_spec (Current (first_balance (select_balance userID db)) - sum) 0)
    as [Hlt|Hge].
  - apply throw_not_ok in H. contradiction.
  - tx_inv H. subst.
    split; [lia|]. eexists. split; eassumption.
Qed.

Lemma AddBalance_ok userID amount db f f' u db' :
  AddBalance userID amount db f = (f', Ok (u, db')) ->
  update_balance (credit amount) userID db = Ok db'.
Proof.
  unfold AddBalance. intros H. tx_inv H. subst. assumption.
Qed.

End calls.

(** ** Relations kept by every call

    A reflexive and transitive relation between the store before and the
    store after, once it holds for the statements of each method, holds
    for every method under every fault, for a tick, and along every
    sequence of operations. *)

Section kept.
Import storage.

Variable R : DB -> DB -> Prop.
Hypothesis R_refl : forall db, R db db.
Hypothesis R_trans : forall a b c, R a b -> R b c -> R a c.

Hypothesis st_add_user : forall id login password db db1 db',
  insert_user id login password db = Ok db1 ->
  insert_balance id db1 = Ok db' -> R db db'.
Hypothesis st_add_order : forall user number db db',
  insert_order user number db = Ok db' -> R db db'.
Hypothesis st_update_order : forall status accrual number db db',
  update_order status accrual number db = Ok db' -> R db db'.
Hypothesis st_withdraw : forall number user sum db db1 db',
  0 <= Current (balance_of db user) - sum ->
  insert_withdrawal number user sum db = Ok db1 ->
  update_balance (debit sum) user db1 = Ok db' -> R db db'.
Hypothesis st_credit : forall amount user db db',
  update_balance (credit amount) user db = Ok db' -> R db db'.

Lemma keeps_run {A : Type} (m : tx A) f db :
  keeps R m -> R db (fst (run m f db)).
Proof.
  intros Hm. destruct (run_cases m f db) as [(e & ->)|(a & db' & f' & Hok & ->)].
  - apply R_refl.
  - simpl. eapply Hm, Hok.
Qed.

Lemma keeps_AddUser newID auth : keeps R (AddUser newID auth).
Proof.
  intros db f f' a db' H. apply AddUser_ok in H.
  destruct H as (db1 & H1 & H2). eapply st_add_user; eassumption.
Qed.

Lemma keeps_AddOrder user number : keeps R (AddOrder user number).
Proof.
  intros db f f' a db' H. apply AddOrder_ok in H.
  eapply st_add_order; eassumption.
Qed.

Lemma keeps_UpdateOrder o : keeps R (UpdateOrder o).
Proof.
  intros db f f' a db' H. apply UpdateOrder_ok in H. subst db'.
  eapply st_update_order. reflexivity.
Qed.

Lemma keeps_Withdraw user number sum : keeps R (Withdraw user number sum).
Proof.
  intros db f f' a db' H. apply Withdraw_ok in H.
  destruct H as (Hge & db1 & H1 & H2). eapply st_withdraw; eassumption.
Qed.

Lemma keeps_AddBalance user amount : keeps R (AddBalance user amount).
Proof.
  intros db f f' a db' H. apply AddBalance_ok in H.
  eapply st_credit; eassumption.
Qed.

Lemma keeps_update_orders_loop os : forall m, keeps R (update_orders_loop m os).
Proof.
  induction os as [|o os IH]; intros m db f f' a db' H; simpl in H.
  - unfold ret in H. injection H as _ _ ->. apply R_refl.
  - apply bind_ok in H. destruct H as (u & db1 & f1 & He & Hrest).
    apply Exec_ok in He. eapply R_trans.
    + eapply st_update_order, He.
    + eapply IH, Hrest.
Qed.

Lemma keeps_credits (l : list (N * Z)) :
  keeps R (for_each (fun '(id, amount) => Exec (update_balance (credit amount) id)) l).
Proof.
  induction l as [|[id amount] l IH]; intros db f f' a db' H; simpl in H.
  - unfold ret in H. injection H as _ _ ->. apply R_refl.
  - apply bind_ok in H. destruct H as (u & db1 & f1 & He & Hrest).
    apply Exec_ok in He. eapply R_trans.
    + eapply st_credit, He.
    + eapply IH, Hrest.
Qed.

Lemma keeps_UpdateBalanceFromOrders os : keeps R (UpdateBalanceFromOrders os).
Proof.
  intros db f f' a db' H. destruct os as [|o os]; simpl in H.
  - unfold ret in H. injection H as _ _ ->. apply R_refl.
  - apply bind_ok in H. destruct H as (u & db1 & f1 & Hb & H).
    apply roundtrip_ok in Hb. subst db1.
    apply bind_ok in H. destruct H as (m & db2 & f2 & Hl & H).
    apply bind_ok in H. destruct H as (u' & db3 & f3 & Hc & H).
    apply roundtrip_ok in H. subst db3.
    eapply R_trans.
    + eapply (keeps_update_orders_loop (o :: os)), Hl.
    + eapply keeps_credits, Hc.
Qed.

Lemma kept_loop tf work : forall i st,
  R (accrual.l_db st) (accrual.l_db (accrual.loop tf i work st)).
Proof.
  induction work as [|[o info] work IH]; intros i st; simpl.
  - apply R_refl.
  - eapply R_trans; [|apply IH].
    unfold accrual.loop_body. destruct info as [info|]; [|apply R_refl].
    pose proof (keeps_run (UpdateOrder (accrual.translate o info))
                  (accrual.f_order tf i) (accrual.l_db st)
                  (keeps_UpdateOrder _)) as Hk.
    destruct (run (UpdateOrder (accrual.translate o info))
                (accrual.f_order tf i) (accrual.l_db st)) as [db' [u|e]];
      simpl in *; exact Hk.
Qed.

Lemma kept_update svc tf db : R db (fst (accrual.update svc tf db)).
Proof.
  unfold accrual.update.
  destruct (run GetUnfinishedOrders (accrual.f_list tf) db) as [d [os|e]];
    [|apply R_refl].
  destruct os as [|o os]; [apply R_refl|].
  set (st := accrual.loop _ _ _ _).
  pose proof (kept_loop tf
    (combine (o :: os)
       ((fun o0 => accrual.getOrderStatus svc (OrderNumber o0)) <$> o :: os))
    0%nat (accrual.mkLoop db [] [])) as Hl.
  fold st in Hl. simpl in Hl.
  pose proof (keeps_run (UpdateBalanceFromOrders (accrual.l_batch st))
                (accrual.f_credit tf) (accrual.l_db st)
                (keeps_UpdateBalanceFromOrders _)) as Hc.
  destruct (run (UpdateBalanceFromOrders (accrual.l_batch st))
              (accrual.f_credit tf) (accrual.l_db st)) as [db' [u|e]];
    simpl in *; eapply R_trans; eassumption.
Qed.

Lemma kept_step o db : R db (step o db).
Proof.
  destruct o; simpl.
  - apply keeps_run, keeps_AddUser.
  - apply keeps_run, keeps_AddOrder.
  - apply keeps_run, keeps_Withdraw.
  - apply keeps_run, keeps_AddBalance.
  - apply kept_update.
Qed.

Lemma kept_run_ops ops : forall db, R db (run_ops ops db).
Proof.
  unfold run_ops. induction ops as [|o ops IH]; intros db; simpl.
  - apply R_refl.
  - eapply R_trans; [apply kept_step | apply IH].
Qed.

(** Consecutive stores of a trace are related. *)
Lemma kept_trace ops : forall db i d d',
  trace ops db !! i = Some d -> trace ops db !! S i = Some d' -> R d d'.
Proof.
  induction ops as [|o ops IH]; intros db i d d' H1 H2.
  - destruct i; discriminate.
  - destruct i as [|i]; simpl in H1, H2.
    + injection H1 as <-. destruct ops; simpl in H2; injection H2 as <-;
        apply kept_step.
    + eapply IH; eassumption.
Qed.

End kept.

(** ** The statements *)

Section statements.
Import storage.

Lemma existsb_false {A : Type} (p : A -> bool) (l : list A) :
  existsb p l = false -> forall x, x ∈ l -> p x = false.
Proof.
  induction l as [|a l IH]; simpl; intros H x Hx.
  - inversion Hx.
  - apply orb_false_iff in H. destruct H as [H1 H2].
    apply elem_of_cons in Hx. destruct Hx as [->|Hx]; auto.
Qed.

Lemma forallb_true {A : Type} (p : A -> bool) (l : list A) :
  forallb p l = true -> forall x, x ∈ l -> p x = true.
Proof.
  induction l as [|a l IH]; simpl; intros H x Hx.
  - inversion Hx.
  - apply andb_true_iff in H. destruct H as [H1 H2].
    apply elem_of_cons in Hx. destruct Hx as [->|Hx]; auto.
Qed.

Lemma user_exists_spec db id :
  user_exists db id = true <-> id ∈ (ID <$> users db).
Proof.
  unfold user_exists. induction (users db) as [|u us IH]; simpl.
  - split; [discriminate | intros H; inversion H].
  - rewrite orb_true_iff, IH, elem_of_cons, N.eqb_eq. intuition congruence.
Qed.

Lemma insert_user_ok id login password db db' :
  insert_user id login password db = Ok db' ->
  db' = set_users db (users db ++ [mkUser id login password])
  /\ (id ∉ (ID <$> users db)).
Proof.
  unfold insert_user. destruct (existsb _ _) eqn:E; intros H; [discriminate|].
  injection H as <-. split; [reflexivity|]. intros Hin.
  apply list_elem_of_fmap in Hin. destruct Hin as (u & -> & Hu).
  pose proof (existsb_false _ _ E u Hu) as Hp. simpl in Hp.
  apply orb_false_iff in Hp. destruct Hp as [Hp _].
  rewrite N.eqb_refl in Hp. discriminate.
Qed.

Lemma insert_balance_ok user db db' :
  insert_balance user db = Ok db' ->
  db' = set_balance db (balance db ++ [mkBalance user 0 0])
  /\ user_exists db user = true.
Proof.
  unfold insert_balance. destruct (user_exists db user); intros H;
    [|discriminate].
  injection H as <-. split; reflexivity.
Qed.

Lemma insert_order_ok user number db db' :
  insert_order user number db = Ok db' ->
  db' = set_orders db (orders db ++ [mkOrder user number StatusNew 0])
  /\ (number ∉ (OrderNumber <$> orders db))
  /\ user_exists db user = true.
Proof.
  unfold insert_order. destruct (existsb _ _) eqn:E; intros H; [discriminate|].
  destruct (user_exists db user); [|discriminate].
  injection H as <-. split; [reflexivity|]. split; [|reflexivity].
  intros Hin. apply list_elem_of_fmap in Hin. destruct Hin as (o & -> & Ho).
  pose proof (existsb_false _ _ E o Ho) as Hp. simpl in Hp.
  rewrite String.eqb_refl in Hp. discriminate.
Qed.

Lemma insert_withdrawal_ok number user sum db db' :
  insert_withdrawal number user sum db = Ok db' ->
  db' = set_withdrawal db (withdrawal db ++ [mkWithdrawal number user sum])
  /\ 0 <= sum
  /\ (number ∉ (WOrderNumber <$> withdrawal db))
  /\ user_exists db user = true.
Proof.
  unfold insert_withdrawal. destruct (Z.ltb_spec sum 0) as [Hlt|Hge];
    intros H; [discriminate|].
  destruct (existsb _ _) eqn:E; [discriminate|].
  destruct (user_exists db user); [|discriminate].
  injection H as <-. split; [reflexivity|]. split; [exact Hge|].
  split; [|reflexivity].
  intros Hin. apply list_elem_of_fmap in Hin. destruct Hin as (w & -> & Hw).
  pose proof (existsb_false _ _ E w Hw) as Hp. simpl in Hp.
  rewrite String.eqb_refl in Hp. discriminate.
Qed.

Lemma update_balance_ok f user db db' :
  update_balance f user db = Ok db' ->
  db' = set_balance db
          ((fun b => if N.eqb (user_id b) user then f b else b) <$> balance db)
  /\ forall b, b ∈ balance db -> user_id b = user ->
               0 <= current (f b) /\ 0 <= withdrawn (f b).
Proof.
  unfold update_balance. destruct (forallb _ _) eqn:E; intros H;
    [|discriminate].
  injection H as <-. split; [reflexivity|]. intros b Hb Hu.
  pose proof (forallb_true _ _ E b Hb) as Hp. simpl in Hp.
  rewrite Hu, N.eqb_refl in Hp. simpl in Hp.
  unfold balance_check in Hp. apply andb_true_iff in Hp.
  destruct Hp as [H1 H2]. split; apply Z.leb_le; assumption.
Qed.

(** An [UPDATE balance] that goes through leaves the [CHECK]s of the
    table in force. *)
Lemma update_balance_checks f user db db' :
  update_balance f user db = Ok db' ->
  Forall (fun b => 0 <= current b /\ 0 <= withdrawn b) (balance db) ->
  Forall (fun b => 0 <= current b /\ 0 <= withdrawn b) (balance db').
Proof.
  intros H Hall. apply update_balance_ok in H. destruct H as [-> Hf]. simpl.
  apply Forall_fmap, Forall_forall. intros b Hb. simpl.
  destruct (N.eqb_spec (user_id b) user) as [Hu|Hu].
  - apply Hf; assumption.
  - rewrite Forall_forall in Hall. apply Hall, Hb.
Qed.

End statements.

(** ** The [CHECK] constraints hold after every call *)

Section checks.
Import storage.

Lemma checks_add_user id login password db db1 db' :
  insert_user id login password db = Ok db1 ->
  insert_balance id db1 = Ok db' -> keeps_checks db db'.
Proof.
  intros H1 H2 [Hb Hw]. apply insert_user_ok in H1. destruct H1 as [-> _].
  apply insert_balance_ok in H2. destruct H2 as [-> _]. split; simpl.
  - apply Forall_app. split; [exact Hb|]. repeat constructor; simpl; lia.
  - exact Hw.
Qed.

Lemma checks_add_order user number db db' :
  insert_order user number db = Ok db' -> keeps_checks db db'.
Proof.
  intros H Hc. apply insert_order_ok in H. destruct H as [-> _]. exact Hc.
Qed.

Lemma checks_update_order status accrual number db db' :
  update_order status accrual number db = Ok db' -> keeps_checks db db'.
Proof.
  unfold update_order. intros H Hc. injection H as <-. exact Hc.
Qed.

Lemma checks_credit amount user db db' :
  update_balance (credit amount) user db = Ok db' -> keeps_checks db db'.
Proof.
  intros H [Hb Hw]. split.
  - eapply update_balance_checks; eassumption.
  - apply update_balance_ok in H. destruct H as [-> _]. exact Hw.
Qed.

Lemma checks_withdraw number user sum db db1 db' :
  0 <= Current (balance_of db user) - sum ->
  insert_withdrawal number user sum db = Ok db1 ->
  update_balance (debit sum) user db1 = Ok db' -> keeps_checks db db'.
Proof.
  intros _ H1 H2 [Hb Hw]. apply insert_withdrawal_ok in H1.
  destruct H1 as (-> & Hs & _). split.
  - eapply update_balance_checks; [eassumption|]. exact Hb.
  - apply update_balance_ok in H2. destruct H2 as [-> _]. simpl.
    apply Forall_app. split; [exact Hw|]. repeat constructor. exact Hs.
Qed.

Lemma checks_step o db : checks_ok db -> checks_ok (step o db).
Proof.
  apply (kept_step keeps_checks).
  - intros d H. exact H.
  - intros a b c Hab Hbc H. auto.
  - apply checks_add_user.
  - apply checks_add_order.
  - apply checks_update_order.
  - apply checks_withdraw.
  - apply checks_credit.
Qed.

Lemma checks_trace ops : forall db,
  checks_ok db -> Forall checks_ok (trace ops db).
Proof.
  induction ops as [|o ops IH]; intros db H; simpl.
  - constructor; [exact H | constructor].
  - constructor; [exact H|]. apply IH, checks_step, H.
Qed.

(** The first balance row of a user is a row of the table. *)
Lemma first_row_elem user rows b :
  first_row user rows = Some b -> b ∈ rows /\ user_id b = user.
Proof.
  unfold first_row. intros H. apply head_Some_elem_of in H.
  apply list_elem_of_filter in H. destruct H as [Hp Hb]. split; [exact Hb|].
  apply Is_true_eq_true in Hp. apply N.eqb_eq in Hp. exact Hp.
Qed.

Lemma balance_of_first_row db user :
  balance_of db user =
  match first_row user (balance db) with
  | Some b => mkBalanceInfo (current b) (withdrawn b)
  | None => mkBalanceInfo 0 0
  end.
Proof.
  unfold balance_of, select_balance, first_row.
  destruct (filter _ (balance db)) as [|b l]; reflexivity.
Qed.

Lemma run_GetBalance db user :
  run (GetBalance user) no_fault db = (db, Ok (balance_of db user)).
Proof. reflexivity. Qed.

Lemma checks_balance_of db user :
  checks_ok db ->
  0 <= Current (balance_of db user) /\ 0 <= Withdrawn (balance_of db user).
Proof.
  intros [Hb _]. rewrite balance_of_first_row.
  destruct (first_row user (balance db)) as [b|] eqn:E; simpl; [|lia].
  apply first_row_elem in E. destruct E as [Hin _].
  rewrite Forall_forall in Hb. apply Hb, Hin.
Qed.

End checks.

(** ** Balance rows under the statements *)

Section rows.
Import storage.

Lemma first_row_fmap user (g : balance_row -> balance_row) rows :
  (forall b, user_id (g b) = user_id b) ->
  first_row user (g <$> rows) = g <$> first_row user rows.
Proof.
  intros Hg. unfold first_row. induction rows as [|b rows IH]; [reflexivity|].
  rewrite fmap_cons, !filter_cons, Hg.
  destruct (decide (Is_true (N.eqb (user_id b) user))); [reflexivity|exact IH].
Qed.

Lemma first_row_app user l1 l2 :
  first_row user (l1 ++ l2) =
  match first_row user l1 with
  | Some b => Some b
  | None => first_row user l2
  end.
Proof.
  unfold first_row. rewrite filter_app.
  destruct (filter _ l1) as [|b l]; reflexivity.
Qed.

Lemma user_id_debit sum b : user_id (debit sum b) = user_id b.
Proof. reflexivity. Qed.

Lemma user_id_credit amount b : user_id (credit amount b) = user_id b.
Proof. reflexivity. Qed.

Lemma user_id_rewrite (f : balance_row -> balance_row) user :
  (forall b, user_id (f b) = user_id b) ->
  forall b, user_id (if N.eqb (user_id b) user then f b else b) = user_id b.
Proof. intros Hf b. destruct (N.eqb (user_id b) user); [apply Hf|reflexivity]. Qed.

(** The balance of a user after an [UPDATE balance] on [target]. *)
Lemma balance_of_update f target db db' user :
  (forall b, user_id (f b) = user_id b) ->
  update_balance f target db = Ok db' ->
  balance_of db' user =
  match first_row user (balance db) with
  | Some b =>
      if N.eqb user target
      then mkBalanceInfo (current (f b)) (withdrawn (f b))
      else mkBalanceInfo (current b) (withdrawn b)
  | None => mkBalanceInfo 0 0
  end.
Proof.
  intros Hf H. apply update_balance_ok in H. destruct H as [-> _].
  rewrite balance_of_first_row. simpl.
  rewrite first_row_fmap by (apply user_id_rewrite, Hf).
  destruct (first_row user (balance db)) as [b|] eqn:E; [|reflexivity]. simpl.
  apply first_row_elem in E. destruct E as [_ Hu]. rewrite Hu.
  destruct (N.eqb user target); reflexivity.
Qed.

Lemma grows_refl db : withdrawn_grows db db.
Proof. split; [intros; lia | reflexivity]. Qed.

Lemma grows_same db db' :
  balance db' = balance db -> withdrawal db' = withdrawal db ->
  withdrawn_grows db db'.
Proof.
  intros Hb Hw. split.
  - intros user. unfold balance_of, select_balance. rewrite Hb. lia.
  - rewrite Hw. reflexivity.
Qed.

Lemma grows_trans a b c :
  withdrawn_grows a b -> withdrawn_grows b c -> withdrawn_grows a c.
Proof.
  intros [H1 P1] [H2 P2]. split.
  - intros user. specialize (H1 user). specialize (H2 user). lia.
  - etransitivity; eassumption.
Qed.

Lemma grows_add_user id login password db db1 db' :
  insert_user id login password db = Ok db1 ->
  insert_balance id db1 = Ok db' -> withdrawn_grows db db'.
Proof.
  intros H1 H2. apply insert_user_ok in H1. destruct H1 as [-> _].
  apply insert_balance_ok in H2. destruct H2 as [-> _]. split; [|reflexivity].
  intros user. rewrite !balance_of_first_row. simpl. rewrite first_row_app.
  destruct (first_row user (balance db)) as [b|]; [lia|].
  unfold first_row. rewrite filter_cons. simpl.
  destruct (decide (Is_true (N.eqb id user))); simpl; lia.
Qed.

Lemma grows_add_order user number db db' :
  insert_order user number db = Ok db' -> withdrawn_grows db db'.
Proof.
  intros H. apply insert_order_ok in H. destruct H as [-> _].
  apply grows_same; reflexivity.
Qed.

Lemma grows_update_order status accrual number db db' :
  update_order status accrual number db = Ok db' -> withdrawn_grows db db'.
Proof.
  unfold update_order. intros H. injection H as <-.
  apply grows_same; reflexivity.
Qed.

Lemma grows_credit amount user db db' :
  update_balance (credit amount) user db = Ok db' -> withdrawn_grows db db'.
Proof.
  intros H. split.
  - intros u. rewrite (balance_of_update _ _ _ _ u (user_id_credit amount) H).
    rewrite balance_of_first_row.
    destruct (first_row u (balance db)) as [b|]; [|lia].
    destruct (N.eqb u user); simpl; lia.
  - apply update_balance_ok in H. destruct H as [-> _]. reflexivity.
Qed.

Lemma grows_withdraw number user sum db db1 db' :
  0 <= Current (balance_of db user) - sum ->
  insert_withdrawal number user sum db = Ok db1 ->
  update_balance (debit sum) user db1 = Ok db' -> withdrawn_grows db db'.
Proof.
  intros _ H1 H2. apply insert_withdrawal_ok in H1.
  destruct H1 as (-> & Hs & _). split.
  - intros u. rewrite (balance_of_update _ _ _ _ u (user_id_debit sum) H2).
    rewrite balance_of_first_row. simpl.
    destruct (first_row u (balance db)) as [b|]; [|lia].
    destruct (N.eqb u user); simpl; lia.
  - apply update_balance_ok in H2. destruct H2 as [-> _]. simpl.
    apply prefix_app_r. reflexivity.
Qed.

Lemma owners_update status accrual number (os : list Order) :
  (fun o => (OrderNumber o, UserID o))
    <$> (update_order_row status accrual number <$> os)
  = (fun o => (OrderNumber o, UserID o)) <$> os.
Proof.
  rewrite <- list_fmap_compose. apply list_fmap_ext. intros i o _. simpl.
  unfold update_order_row. destruct (String.eqb (OrderNumber o) number);
    reflexivity.
Qed.

Lemma owners_add_user id login password db db1 db' :
  insert_user id login password db = Ok db1 ->
  insert_balance id db1 = Ok db' -> owners_stay db db'.
Proof.
  intros H1 H2. apply insert_user_ok in H1. destruct H1 as [-> _].
  apply insert_balance_ok in H2. destruct H2 as [-> _].
  unfold owners_stay, owners. reflexivity.
Qed.

Lemma owners_add_order user number db db' :
  insert_order user number db = Ok db' -> owners_stay db db'.
Proof.
  intros H. apply insert_order_ok in H. destruct H as [-> _].
  unfold owners_stay, owners. simpl. rewrite fmap_app.
  apply prefix_app_r. reflexivity.
Qed.

Lemma owners_update_order status accrual number db db' :
  update_order status accrual number db = Ok db' -> owners_stay db db'.
Proof.
  unfold update_order. intros H. injection H as <-.
  unfold owners_stay, owners. simpl. rewrite owners_update. reflexivity.
Qed.

Lemma owners_credit amount user db db' :
  update_balance (credit amount) user db = Ok db' -> owners_stay db db'.
Proof.
  intros H. apply update_balance_ok in H. destruct H as [-> _].
  unfold owners_stay, owners. reflexivity.
Qed.

Lemma owners_withdraw number user sum db db1 db' :
  0 <= Current (balance_of db user) - sum ->
  insert_withdrawal number user sum db = Ok db1 ->
  update_balance (debit sum) user db1 = Ok db' -> owners_stay db db'.
Proof.
  intros _ H1 H2. apply insert_withdrawal_ok in H1. destruct H1 as (-> & _).
  apply update_balance_ok in H2. destruct H2 as [-> _].
  unfold owners_stay, owners. reflexivity.
Qed.

End rows.

(** ** Consistency is kept by every call *)

Section consistency.
Import storage.

Lemma numbers_update status accrual number (os : list Order) :
  OrderNumber <$> (update_order_row status accrual number <$> os)
  = OrderNumber <$> os.
Proof.
  rewrite <- list_fmap_compose. apply list_fmap_ext. intros i o _. simpl.
  unfold update_order_row. destruct (String.eqb (OrderNumber o) number);
    reflexivity.
Qed.

Lemma user_ids_rewrite (g : balance_row -> balance_row) (rows : list balance_row) :
  (forall b, user_id (g b) = user_id b) ->
  user_id <$> (g <$> rows) = user_id <$> rows.
Proof.
  intros Hg. rewrite <- list_fmap_compose. apply list_fmap_ext.
  intros i b _. simpl. apply Hg.
Qed.

Lemma consistent_update_balance f user db db' :
  (forall b, user_id (f b) = user_id b) ->
  update_balance f user db = Ok db' -> keeps_consistent db db'.
Proof.
  intros Hf H [Hu Ho Hw Hb Hfk [Hc1 Hc2]].
  pose proof (update_balance_checks _ _ _ _ H Hc1) as Hc.
  apply update_balance_ok in H. destruct H as [-> _].
  constructor; simpl; try assumption.
  - rewrite user_ids_rewrite by (apply user_id_rewrite, Hf). exact Hb.
  - apply Forall_fmap, Forall_forall. intros b Hin. simpl.
    rewrite user_id_rewrite by exact Hf.
    rewrite Forall_forall in Hfk. apply (Hfk b Hin).
  - split; assumption.
Qed.

Lemma consistent_add_user id login password db db1 db' :
  insert_user id login password db = Ok db1 ->
  insert_balance id db1 = Ok db' -> keeps_consistent db db'.
Proof.
  intros H1 H2 Hc.
  pose proof (checks_add_user _ _ _ _ _ _ H1 H2 (ok_checks _ Hc)) as Hchecks.
  destruct Hc as [Hu Ho Hw Hb Hfk _].
  apply insert_user_ok in H1. destruct H1 as [-> Hfresh].
  apply insert_balance_ok in H2. destruct H2 as [-> Hex].
  constructor; simpl; try assumption.
  - rewrite fmap_app. apply NoDup_app. split; [exact Hu|]. split.
    + intros x Hx Hx'. apply list_elem_of_singleton in Hx'. simpl in Hx'.
      subst x. contradiction.
    + apply NoDup_singleton.
  - rewrite fmap_app. apply NoDup_app. split; [exact Hb|]. split.
    + intros x Hx Hx'. apply list_elem_of_singleton in Hx'. simpl in Hx'.
      subst x. apply Hfresh. apply list_elem_of_fmap in Hx.
      destruct Hx as (b & -> & Hin). rewrite Forall_forall in Hfk.
      apply user_exists_spec, (Hfk b Hin).
    + apply NoDup_singleton.
  - apply Forall_app. split.
    + apply Forall_forall. intros b Hin. rewrite Forall_forall in Hfk.
      apply user_exists_spec. simpl. rewrite fmap_app. apply elem_of_app.
      left. apply user_exists_spec, (Hfk b Hin).
    + repeat constructor. exact Hex.
Qed.

Lemma consistent_add_order user number db db' :
  insert_order user number db = Ok db' -> keeps_consistent db db'.
Proof.
  intros H [Hu Ho Hw Hb Hfk Hc].
  apply insert_order_ok in H. destruct H as (-> & Hfresh & _).
  constructor; simpl; try assumption.
  unfold numbers_unique. simpl. rewrite fmap_app. apply NoDup_app.
  split; [exact Ho|]. split.
  - intros x Hx Hx'. apply list_elem_of_singleton in Hx'. simpl in Hx'.
    subst x. contradiction.
  - apply NoDup_singleton.
Qed.

Lemma consistent_update_order status accrual number db db' :
  update_order status accrual number db = Ok db' -> keeps_consistent db db'.
Proof.
  unfold update_order. intros H [Hu Ho Hw Hb Hfk Hc]. injection H as <-.
  constructor; simpl; try assumption.
  unfold numbers_unique. simpl. rewrite numbers_update. exact Ho.
Qed.

Lemma consistent_withdraw number user sum db db1 db' :
  0 <= Current (balance_of db user) - sum ->
  insert_withdrawal number user sum db = Ok db1 ->
  update_balance (debit sum) user db1 = Ok db' -> keeps_consistent db db'.
Proof.
  intros _ H1 H2 Hc.
  eapply (consistent_update_balance _ _ _ _ (user_id_debit sum) H2).
  destruct Hc as [Hu Ho Hw Hb Hfk [Hc1 Hc2]].
  apply insert_withdrawal_ok in H1. destruct H1 as (-> & Hs & Hfresh & _).
  constructor; simpl; try assumption.
  - rewrite fmap_app. apply NoDup_app. split; [exact Hw|]. split.
    + intros x Hx Hx'. apply list_elem_of_singleton in Hx'. simpl in Hx'.
      subst x. contradiction.
    + apply NoDup_singleton.
  - split; [exact Hc1|]. simpl. apply Forall_app. split; [exact Hc2|].
    repeat constructor. exact Hs.
Qed.

Lemma consistent_step o db : consistent db -> consistent (step o db).
Proof.
  apply (kept_step keeps_consistent).
  - intros d H. exact H.
  - intros a b c Hab Hbc H. auto.
  - apply consistent_add_user.
  - apply consistent_add_order.
  - apply consistent_update_order.
  - apply consistent_withdraw.
  - intros amount user d d'.
    apply consistent_update_balance, user_id_credit.
Qed.

Lemma consistent_empty : consistent empty_db.
Proof.
  constructor; simpl; try apply NoDup_nil_2; try constructor; constructor.
Qed.

(** Every store the service can reach from the empty one is consistent. *)
Lemma consistent_reachable ops : consistent (run_ops ops empty_db).
Proof.
  apply (kept_run_ops keeps_consistent).
  - intros d H. exact H.
  - intros a b c Hab Hbc H. auto.
  - apply consistent_add_user.
  - apply consistent_add_order.
  - apply consistent_update_order.
  - apply consistent_withdraw.
  - intros amount user d d'.
    apply consistent_update_balance, user_id_credit.
  - apply consistent_empty.
Qed.

End consistency.

(** ** [UpdateBalanceFromOrders], written out *)

Section ledger_updater.
Import storage.

Lemma update_orders_loop_ok os : forall m db f f' m' db',
  update_orders_loop m os db f = (f', Ok (m', db')) ->
  db' = set_orders db (writes os (orders db))
  /\ m' = fold_left add_total os m.
Proof.
  induction os as [|o os IH]; intros m db f f' m' db' H; simpl in H.
  - unfold ret in H. injection H as _ <- <-. destruct db. split; reflexivity.
  - apply bind_ok in H. destruct H as (u & db1 & f1 & He & Hrest).
    apply Exec_ok in He. unfold update_order in He. injection He as <-.
    apply IH in Hrest. destruct Hrest as [-> ->]. split; reflexivity.
Qed.

Lemma add_total_lookup (m : gmap N Z) o user :
  default 0 (add_total m o !! user)
  = default 0 (m !! user) + (if N.eqb (UserID o) user then Accrual o else 0).
Proof.
  unfold add_total. destruct (N.eqb_spec (UserID o) user) as [->|Hne].
  - rewrite lookup_insert_eq. reflexivity.
  - rewrite lookup_insert_ne by exact Hne. lia.
Qed.

Lemma totals_lookup os : forall (m : gmap N Z) user,
  default 0 (fold_left add_total os m !! user)
  = default 0 (m !! user) + total os user.
Proof.
  induction os as [|o os IH]; intros m user; simpl.
  - lia.
  - rewrite IH, add_total_lookup. rewrite Z.add_assoc. reflexivity.
Qed.

Lemma credit_zero b : credit 0 b = b.
Proof. destruct b as [u c w]. unfold credit. simpl. f_equal. lia. Qed.

(** Crediting from the map is crediting every row with the total of its
    user. *)
Lemma credit_from_totals os (b : balance_row) :
  match fold_left add_total os (∅ : gmap N Z) !! user_id b with
  | Some amount => credit amount b
  | None => b
  end = credit (total os (user_id b)) b.
Proof.
  pose proof (totals_lookup os ∅ (user_id b)) as H.
  rewrite lookup_empty in H. simpl in H.
  destruct (fold_left add_total os ∅ !! user_id b) as [a|]; simpl in H.
  - replace (total os (user_id b)) with a by lia. reflexivity.
  - replace (total os (user_id b)) with 0 by lia. symmetry. apply credit_zero.
Qed.

Lemma credits_ok (l : list (N * Z)) : forall db f f' u db',
  NoDup l.*1 ->
  for_each (fun '(id, amount) => Exec (update_balance (credit amount) id)) l db f
    = (f', Ok (u, db')) ->
  db' = set_balance db
          ((fun b => match (list_to_map l : gmap N Z) !! user_id b with
                     | Some amount => credit amount b
                     | None => b
                     end) <$> balance db).
Proof.
  induction l as [|[id amount] l IH]; intros db f f' u db' Hnd H; simpl in H.
  - unfold ret in H. injection H as _ _ <-. destruct db. unfold set_balance.
    simpl. f_equal. rewrite <- (list_fmap_id balance0) at 1.
    apply list_fmap_ext. intros i b _. reflexivity.
  - apply bind_ok in H. destruct H as (u1 & db1 & f1 & He & Hrest).
    apply Exec_ok in He. apply update_balance_ok in He. destruct He as [-> _].
    simpl in Hnd. apply NoDup_cons in Hnd. destruct Hnd as [Hfresh Hnd].
    apply (IH _ _ _ _ _ Hnd) in Hrest. subst db'. unfold set_balance. simpl.
    f_equal. rewrite <- list_fmap_compose. apply list_fmap_ext.
    intros i b _. simpl.
    destruct (N.eqb_spec (user_id b) id) as [Hb|Hb].
    + rewrite user_id_credit, Hb, lookup_insert_eq.
      rewrite (not_elem_of_list_to_map_1 _ _ Hfresh). reflexivity.
    + rewrite lookup_insert_ne by congruence. reflexivity.
Qed.

(** Go leaves the order of [range totalAmount] open: when the credits go
    through, every order of the entries gives the same store. *)
Lemma credits_any_order (l l' : list (N * Z)) db f f' g g' d d' :
  NoDup l.*1 -> l ≡ₚ l' ->
  for_each (fun '(id, amount) => Exec (update_balance (credit amount) id)) l db f
    = (f', Ok (tt, d)) ->
  for_each (fun '(id, amount) => Exec (update_balance (credit amount) id)) l' db g
    = (g', Ok (tt, d')) ->
  d = d'.
Proof.
  intros Hnd Hperm H H'.
  assert (NoDup l'.*1) as Hnd' by (rewrite <- Hperm; exact Hnd).
  apply credits_ok in H; [|exact Hnd]. apply credits_ok in H'; [|exact Hnd'].
  subst d d'. rewrite (list_to_map_proper l l' Hnd Hperm). reflexivity.
Qed.

(** A batch that goes through has written the status of each of its
    orders and credited every user with the total of the batch. *)
Lemma UpdateBalanceFromOrders_ok batch db f f' u db' :
  UpdateBalanceFromOrders batch db f = (f', Ok (u, db')) ->
  db' = applied batch db.
Proof.
  intros H. destruct batch as [|o batch].
  - simpl in H. unfold ret in H. injection H as _ _ <-.
    unfold applied, credited. simpl. destruct db. simpl. f_equal.
    rewrite <- (list_fmap_id balance0) at 1.
    apply list_fmap_ext. intros i b _. symmetry. apply credit_zero.
  - unfold UpdateBalanceFromOrders in H.
    apply bind_ok in H. destruct H as (u0 & db0 & f0 & Hb & H).
    apply roundtrip_ok in Hb. subst db0.
    apply bind_ok in H. destruct H as (m & db1 & f1 & Hl & H).
    apply bind_ok in H. destruct H as (u1 & db2 & f2 & Hc & H).
    apply roundtrip_ok in H. subst db2.
    apply update_orders_loop_ok in Hl. destruct Hl as [-> ->].
    apply credits_ok in Hc; [|apply NoDup_fst_map_to_list].
    subst db'. unfold applied, credited, set_balance, set_orders. simpl.
    f_equal. apply list_fmap_ext. intros i b _.
    rewrite list_to_map_to_list. apply (credit_from_totals (o :: batch)).
Qed.

(** All or nothing. *)
Lemma UpdateBalanceFromOrders_run batch f db :
  (exists e, run (UpdateBalanceFromOrders batch) f db = (db, Err e))
  \/ run (UpdateBalanceFromOrders batch) f db = (applied batch db, Ok tt).
Proof.
  destruct (run_cases (UpdateBalanceFromOrders batch) f db)
    as [He|(u & db' & f' & Hok & Hrun)].
  - left. exact He.
  - right. rewrite Hrun. apply UpdateBalanceFromOrders_ok in Hok.
    subst db'. destruct u. reflexivity.
Qed.

Lemma run_UpdateOrder o f db :
  run (UpdateOrder o) f db =
  if answers f 3
  then (set_orders db
          (update_order_row (Status o) (Accrual o) (OrderNumber o) <$> orders db),
        Ok tt)
  else (db, Err ErrConn).
Proof.
  destruct f as [[|[|[|k]]]|]; reflexivity.
Qed.

End ledger_updater.

(** ** One tick, written out *)

Section tick.
Import storage.

Variable svc : accrual.service.

Lemma translate_user o info : UserID (accrual.translate o info) = UserID o.
Proof.
  unfold accrual.translate.
  repeat match goal with |- context [if ?c then _ else _] => destruct c end;
    reflexivity.
Qed.

Lemma translate_number o info :
  OrderNumber (accrual.translate o info) = OrderNumber o.
Proof.
  unfold accrual.translate.
  repeat match goal with |- context [if ?c then _ else _] => destruct c end;
    reflexivity.
Qed.

Lemma translate_eta o info :
  mkOrder (UserID o) (OrderNumber o) (Status (accrual.translate o info))
    (Accrual (accrual.translate o info))
  = accrual.translate o info.
Proof.
  unfold accrual.translate.
  repeat match goal with |- context [if ?c then _ else _] => destruct c end;
    try reflexivity.
  destruct o; reflexivity.
Qed.

Lemma reconciled_number W r : OrderNumber (reconciled svc W r) = OrderNumber r.
Proof.
  unfold reconciled. destruct (existsb _ W); [|reflexivity].
  destruct (accrual.getOrderStatus svc _); [apply translate_number|reflexivity].
Qed.

Lemma reconciled_user W r : UserID (reconciled svc W r) = UserID r.
Proof.
  unfold reconciled. destruct (existsb _ W); [|reflexivity].
  destruct (accrual.getOrderStatus svc _); [apply translate_user|reflexivity].
Qed.

Lemma reconciled_nil (rows : list Order) : reconciled svc [] <$> rows = rows.
Proof.
  rewrite <- (list_fmap_id rows) at 2. apply list_fmap_ext.
  intros i r _. reflexivity.
Qed.

Lemma existsb_eqb_spec (x : string) (W : list string) :
  existsb (String.eqb x) W = true <-> x ∈ W.
Proof.
  induction W as [|w W IH]; simpl.
  - split; [discriminate | intros H; inversion H].
  - rewrite orb_true_iff, IH, elem_of_cons, String.eqb_eq. reflexivity.
Qed.

(** Rows with the same membership of their number are reconciled alike. *)
Lemma reconciled_ext W W' r :
  (OrderNumber r ∈ W <-> OrderNumber r ∈ W') ->
  reconciled svc W r = reconciled svc W' r.
Proof.
  intros H. unfold reconciled.
  destruct (existsb _ W) eqn:E; destruct (existsb _ W') eqn:E'; try reflexivity.
  - apply existsb_eqb_spec, H, existsb_eqb_spec in E. congruence.
  - apply existsb_eqb_spec, H, existsb_eqb_spec in E'. congruence.
Qed.

Lemma unique_number_row {A B : Type} (g : A -> B) (l : list A) x y :
  NoDup (g <$> l) -> x ∈ l -> y ∈ l -> g x = g y -> x = y.
Proof.
  induction l as [|a l IH]; intros Hnd Hx Hy Hg.
  - inversion Hx.
  - rewrite fmap_cons in Hnd. apply NoDup_cons in Hnd.
    destruct Hnd as [Hfresh Hnd].
    apply elem_of_cons in Hx. apply elem_of_cons in Hy.
    destruct Hx as [->|Hx]; destruct Hy as [->|Hy].
    + reflexivity.
    + exfalso. apply Hfresh. rewrite Hg. apply list_elem_of_fmap_2, Hy.
    + exfalso. apply Hfresh. rewrite <- Hg. apply list_elem_of_fmap_2, Hx.
    + apply IH; assumption.
Qed.

Variable db : DB.
Hypothesis Hunique : numbers_unique db.

(** The [UPDATE orders] of a translated order, on the rows reconciled so
    far. *)
Lemma write_reconciled o info W :
  o ∈ orders db ->
  accrual.getOrderStatus svc (OrderNumber o) = Some info ->
  update_order_row (Status (accrual.translate o info))
    (Accrual (accrual.translate o info))
    (OrderNumber (accrual.translate o info))
    <$> (reconciled svc W <$> orders db)
  = reconciled svc (OrderNumber o :: W) <$> orders db.
Proof.
  intros Ho Hinfo. rewrite <- list_fmap_compose. apply list_fmap_ext.
  intros i r Hr. apply list_elem_of_lookup_2 in Hr. simpl.
  unfold update_order_row. rewrite reconciled_number, reconciled_user.
  rewrite translate_number.
  destruct (String.eqb_spec (OrderNumber r) (OrderNumber o)) as [He|Hne].
  - assert (r = o) as -> by (eapply unique_number_row; eassumption).
    unfold reconciled at 1. simpl. rewrite String.eqb_refl. simpl.
    rewrite Hinfo. apply translate_eta.
  - apply reconciled_ext. rewrite elem_of_cons. intuition congruence.
Qed.

Lemma from_store_cons p work :
  from_store svc db (p :: work) -> from_store svc db work.
Proof.
  intros H o info Hin. apply H. apply elem_of_cons. right. exact Hin.
Qed.

Lemma loop_result tf work : forall i W st,
  from_store svc db work ->
  accrual.l_db st = set_orders db (reconciled svc W <$> orders db) ->
  accrual.l_db (accrual.loop tf i work st)
    = set_orders db (reconciled svc (written_by tf i work W) <$> orders db)
  /\ accrual.l_batch (accrual.loop tf i work st)
     = (accrual.l_batch st ++ batch_of work)%list.
Proof.
  induction work as [|[o [info|]] work IH]; intros i W st Hfrom Hst; simpl.
  - split; [exact Hst | rewrite app_nil_r; reflexivity].
  - destruct (Hfrom o (Some info)) as (Ho & _ & Hinfo);
      [apply elem_of_cons; left; reflexivity|].
    apply from_store_cons in Hfrom.
    rewrite run_UpdateOrder.
    destruct (answers (accrual.f_order tf i) 3).
    + destruct (IH (S i) (OrderNumber o :: W)
        (accrual.mkLoop
           (set_orders (accrual.l_db st)
              (update_order_row (Status (accrual.translate o info))
                 (Accrual (accrual.translate o info))
                 (OrderNumber (accrual.translate o info))
               <$> orders (accrual.l_db st)))
           (if String.eqb (accrual.Status info) StatusProcessed
            then (accrual.l_batch st ++ [accrual.translate o info])%list
            else accrual.l_batch st)
           (accrual.l_log st)) Hfrom) as [Hdb Hbatch].
      { simpl. rewrite Hst. unfold set_orders. simpl.
        rewrite write_reconciled by (try assumption; symmetry; assumption).
        reflexivity. }
      split; [exact Hdb|]. rewrite Hbatch. simpl.
      destruct (String.eqb (accrual.Status info) StatusProcessed);
        [rewrite <- app_assoc|]; reflexivity.
    + destruct (IH (S i) W
        (accrual.mkLoop (accrual.l_db st)
           (if String.eqb (accrual.Status info) StatusProcessed
            then (accrual.l_batch st ++ [accrual.translate o info])%list
            else accrual.l_batch st)
           (accrual.l_log st ++ [("can't update order", ErrConn)])%list)
        Hfrom Hst) as [Hdb Hbatch].
      split; [exact Hdb|]. rewrite Hbatch. simpl.
      destruct (String.eqb (accrual.Status info) StatusProcessed);
        [rewrite <- app_assoc|]; reflexivity.
  - apply IH; [eapply from_store_cons, Hfrom | exact Hst].
Qed.

Lemma written_by_sound tf work : forall i W n,
  n ∈ written_by tf i work W ->
  n ∈ W \/ exists o info, (o, Some info) ∈ work /\ OrderNumber o = n.
Proof.
  induction work as [|[o [info|]] work IH]; intros i W n Hn; simpl in Hn.
  - left. exact Hn.
  - apply IH in Hn. destruct Hn as [Hn|(o' & info' & Hin & He)].
    + destruct (answers (accrual.f_order tf i) 3); [|left; exact Hn].
      apply elem_of_cons in Hn. destruct Hn as [->|Hn]; [|left; exact Hn].
      right. exists o, info. split; [apply elem_of_cons; left|]; reflexivity.
    + right. exists o', info'. split; [apply elem_of_cons; right|]; assumption.
  - apply IH in Hn. destruct Hn as [Hn|(o' & info' & Hin & He)].
    + left. exact Hn.
    + right. exists o', info'. split; [apply elem_of_cons; right|]; assumption.
Qed.

Lemma written_by_keeps tf work : forall i W n,
  n ∈ W -> n ∈ written_by tf i work W.
Proof.
  induction work as [|[o [info|]] work IH]; intros i W n Hn; simpl.
  - exact Hn.
  - apply IH. destruct (answers (accrual.f_order tf i) 3); [|exact Hn].
    apply elem_of_cons. right. exact Hn.
  - apply IH, Hn.
Qed.

Lemma written_by_complete tf work :
  (forall i, answers (accrual.f_order tf i) 3 = true) ->
  forall i W o info, (o, Some info) ∈ work ->
  OrderNumber o ∈ written_by tf i work W.
Proof.
  intros Hall. induction work as [|[o' [info'|]] work IH];
    intros i W o info Hin; simpl.
  - inversion Hin.
  - rewrite Hall. apply elem_of_cons in Hin. destruct Hin as [Heq|Hin].
    + injection Heq as -> ->. apply written_by_keeps.
      apply elem_of_cons. left. reflexivity.
    + eapply IH, Hin.
  - apply elem_of_cons in Hin. destruct Hin as [Heq|Hin]; [discriminate|].
    eapply IH, Hin.
Qed.

(** The status writes of [UpdateBalanceFromOrders] for the batch of a
    tick. *)
Lemma writes_batch work : forall W,
  from_store svc db work ->
  exists W',
    writes (batch_of work) (reconciled svc W <$> orders db)
      = reconciled svc W' <$> orders db
    /\ (forall n, n ∈ W -> n ∈ W')
    /\ forall n, n ∈ W' ->
         n ∈ W \/ exists o info, (o, Some info) ∈ work /\ OrderNumber o = n.
Proof.
  induction work as [|[o [info|]] work IH]; intros W Hfrom; simpl.
  - exists W. split; [reflexivity|]. split; [auto|]. intros n Hn. left. exact Hn.
  - destruct (Hfrom o (Some info)) as (Ho & _ & Hinfo);
      [apply elem_of_cons; left; reflexivity|].
    apply from_store_cons in Hfrom.
    destruct (String.eqb (accrual.Status info) StatusProcessed).
    + unfold writes. simpl. fold (writes (batch_of work)).
      rewrite write_reconciled by (try assumption; symmetry; assumption).
      destruct (IH (OrderNumber o :: W) Hfrom) as (W' & Hw & Hkeep & Hsound).
      exists W'. split; [exact Hw|]. split.
      { intros n Hn. apply Hkeep, elem_of_cons. right. exact Hn. }
      intros n Hn.
      destruct (Hsound n Hn) as [Hc|(o' & info' & Hin & He)].
      * apply elem_of_cons in Hc. destruct Hc as [->|Hc]; [|left; exact Hc].
        right. exists o, info. split; [apply elem_of_cons; left|]; reflexivity.
      * right. exists o', info'.
        split; [apply elem_of_cons; right|]; assumption.
    + destruct (IH W Hfrom) as (W' & Hw & Hkeep & Hsound).
      exists W'. split; [exact Hw|]. split; [exact Hkeep|]. intros n Hn.
      destruct (Hsound n Hn) as [Hc|(o' & info' & Hin & He)];
        [left; exact Hc|].
      right. exists o', info'. split; [apply elem_of_cons; right|]; assumption.
  - destruct (IH W (from_store_cons _ _ Hfrom)) as (W' & Hw & Hkeep & Hsound).
    exists W'. split; [exact Hw|]. split; [exact Hkeep|]. intros n Hn.
    destruct (Hsound n Hn) as [Hc|(o' & info' & Hin & He)];
      [left; exact Hc|].
    right. exists o', info'. split; [apply elem_of_cons; right|]; assumption.
Qed.

Lemma combine_lookups (os : list Order) :
  combine os ((fun o => accrual.getOrderStatus svc (OrderNumber o)) <$> os)
  = lookups svc os.
Proof.
  unfold lookups. induction os as [|o os IH]; simpl; [reflexivity|].
  f_equal. exact IH.
Qed.

Lemma lookups_from_store : from_store svc db (lookups svc (select_unfinished db)).
Proof.
  intros o info Hin. unfold lookups in Hin.
  apply list_elem_of_fmap in Hin. destruct Hin as (o' & Heq & Hin).
  injection Heq as -> ->. unfold select_unfinished in Hin.
  apply list_elem_of_filter in Hin. destruct Hin as [Hu Hin].
  split; [exact Hin|]. split; [|reflexivity].
  apply Is_true_eq_true, Hu.
Qed.

Lemma run_GetUnfinishedOrders f :
  run GetUnfinishedOrders f db =
  if answers f 1 then (db, Ok (select_unfinished db)) else (db, Err ErrConn).
Proof. destruct f as [[|k]|]; reflexivity. Qed.

Lemma work_sound work n :
  from_store svc db work ->
  (exists o info, (o, Some info) ∈ work /\ OrderNumber o = n) ->
  exists o info, o ∈ orders db /\ is_unfinished o = true
    /\ OrderNumber o = n /\ accrual.getOrderStatus svc n = Some info.
Proof.
  intros Hfrom (o & info & Hin & He). destruct (Hfrom _ _ Hin) as (Ho & Hu & Hi).
  exists o, info. subst n. repeat split; try assumption. symmetry. exact Hi.
Qed.

(** The store after a tick: the store itself when the list of unfinished
    orders cannot be read, otherwise what [UpdateBalanceFromOrders] leaves
    after the second loop. *)
Lemma update_fst tf :
  fst (accrual.update svc tf db) =
  if answers (accrual.f_list tf) 1
  then
    let st := accrual.loop tf 0 (lookups svc (select_unfinished db))
                (accrual.mkLoop db [] []) in
    fst (run (UpdateBalanceFromOrders (accrual.l_batch st))
           (accrual.f_credit tf) (accrual.l_db st))
  else db.
Proof.
  unfold accrual.update. rewrite run_GetUnfinishedOrders.
  destruct (answers (accrual.f_list tf) 1); [|reflexivity].
  destruct (select_unfinished db) as [|o os] eqn:Eos; [reflexivity|].
  rewrite combine_lookups. cbv zeta.
  destruct (run _ (accrual.f_credit tf) _) as [d [u|e]]; reflexivity.
Qed.

(** What a tick leaves behind, under any faults. *)
Lemma update_result tf :
  exists W,
    users (fst (accrual.update svc tf db)) = users db
    /\ withdrawal (fst (accrual.update svc tf db)) = withdrawal db
    /\ orders (fst (accrual.update svc tf db)) = reconciled svc W <$> orders db
    /\ (forall n, n ∈ W ->
          exists o info, o ∈ orders db /\ is_unfinished o = true
            /\ OrderNumber o = n /\ accrual.getOrderStatus svc n = Some info)
    /\ (answers (accrual.f_list tf) 1 = true ->
        (forall i, answers (accrual.f_order tf i) 3 = true) ->
        forall o info, o ∈ orders db -> is_unfinished o = true ->
          accrual.getOrderStatus svc (OrderNumber o) = Some info ->
          OrderNumber o ∈ W)
    /\ (balance (fst (accrual.update svc tf db)) = balance db
        \/ balance (fst (accrual.update svc tf db))
           = credited (batch_of (lookups svc (select_unfinished db)))
               (balance db)).
Proof.
  rewrite update_fst.
  destruct (answers (accrual.f_list tf) 1) eqn:El.
  2:{ exists []. rewrite reconciled_nil.
      repeat split; auto; try discriminate. intros n Hn. inversion Hn. }
  cbv zeta.
  set (work := lookups svc (select_unfinished db)).
  pose proof lookups_from_store as Hfrom. fold work in Hfrom.
  destruct (loop_result tf work 0 [] (accrual.mkLoop db [] []) Hfrom)
    as [Hdb Hbatch].
  { cbn [accrual.l_db]. rewrite reconciled_nil. destruct db; reflexivity. }
  cbn [accrual.l_batch app] in Hbatch.
  set (st := accrual.loop tf 0 work (accrual.mkLoop db [] [])) in *.
  set (W1 := written_by tf 0 work []) in *.
  assert (forall n, n ∈ W1 ->
            exists o info, o ∈ orders db /\ is_unfinished o = true
              /\ OrderNumber o = n
              /\ accrual.getOrderStatus svc n = Some info) as Hsound1.
  { intros n Hn. apply written_by_sound in Hn. destruct Hn as [Hn|Hn].
    - inversion Hn.
    - eapply work_sound; eassumption. }
  assert ((forall i, answers (accrual.f_order tf i) 3 = true) ->
          forall o info, o ∈ orders db -> is_unfinished o = true ->
            accrual.getOrderStatus svc (OrderNumber o) = Some info ->
            OrderNumber o ∈ W1) as Hcomplete1.
  { intros Hall o info Ho Hu Hinfo.
    apply (written_by_complete tf _ Hall 0%nat [] o info).
    unfold work, lookups. apply list_elem_of_fmap. exists o.
    split; [rewrite Hinfo; reflexivity|].
    unfold select_unfinished. apply list_elem_of_filter.
    split; [apply Is_true_eq_left, Hu | exact Ho]. }
  destruct (UpdateBalanceFromOrders_run (accrual.l_batch st)
              (accrual.f_credit tf) (accrual.l_db st)) as [(e & Hr)|Hr];
    rewrite Hr; cbn [fst].
  - exists W1. rewrite Hdb. cbn. repeat split; auto.
  - rewrite Hdb, Hbatch. unfold applied. cbn [users orders balance withdrawal set_orders].
    destruct (writes_batch work W1 Hfrom) as (W' & Hw & Hkeep & Hsound').
    exists W'. split; [reflexivity|]. split; [reflexivity|].
    split; [exact Hw|]. split; [|split].
    + intros n Hn. destruct (Hsound' n Hn) as [Hc|Hc].
      * apply Hsound1, Hc.
      * eapply work_sound; eassumption.
    + intros _ Hall o info Ho Hu Hinfo. eapply Hkeep, Hcomplete1; eassumption.
    + right. reflexivity.
Qed.

End tick.

(** ** Orders only move forward *)

Section forward.
Import storage.

Lemma status_step_trans a b c :
  status_step a b -> status_step b c -> status_step a c.
Proof.
  intros H1 H2. inversion H1; subst; inversion H2; subst;
    try constructor; try discriminate.
Qed.

Lemma is_unfinished_status r :
  is_unfinished r = true -> Status r = "NEW" \/ Status r = "PROCESSING".
Proof.
  unfold is_unfinished. intros H. apply orb_true_iff in H.
  destruct H as [H|H]; apply String.eqb_eq in H; auto.
Qed.

Lemma translate_cases o info :
  accrual.translate o info = o
  \/ Status (accrual.translate o info) = "PROCESSING"
  \/ Status (accrual.translate o info) = "INVALID"
  \/ Status (accrual.translate o info) = "PROCESSED".
Proof.
  unfold accrual.translate.
  repeat match goal with |- context [if ?c then _ else _] => destruct c end;
    simpl; auto.
Qed.

Lemma translate_step o info :
  is_unfinished o = true ->
  status_step (Status o) (Status (accrual.translate o info)).
Proof.
  intros Hu. apply is_unfinished_status in Hu.
  destruct (translate_cases o info) as [->|[H|[H|H]]]; [constructor| | |];
    rewrite H; destruct Hu as [->| ->]; constructor.
Qed.

Lemma row_advance_refl r : row_advance r r.
Proof. repeat split. constructor. Qed.

Lemma row_advance_trans a b c :
  row_advance a b -> row_advance b c -> row_advance a c.
Proof.
  intros (U1 & N1 & S1 & F1) (U2 & N2 & S2 & F2). repeat split.
  - congruence.
  - congruence.
  - eapply status_step_trans; eassumption.
  - intros Hf. specialize (F1 Hf). subst b. apply F2, Hf.
Qed.

Lemma orders_advance_refl db : orders_advance db db.
Proof.
  intros H. split; [exact H|]. intros i r Hr. exists r.
  split; [exact Hr | apply row_advance_refl].
Qed.

Lemma orders_advance_trans a b c :
  orders_advance a b -> orders_advance b c -> orders_advance a c.
Proof.
  intros Hab Hbc Ha. destruct (Hab Ha) as [Hb Rab].
  destruct (Hbc Hb) as [Hc Rbc]. split; [exact Hc|].
  intros i r Hr. destruct (Rab i r Hr) as (r1 & Hr1 & A1).
  destruct (Rbc i r1 Hr1) as (r2 & Hr2 & A2).
  exists r2. split; [exact Hr2 | eapply row_advance_trans; eassumption].
Qed.

Lemma extend_advance db db' : orders_extend db db' -> orders_advance db db'.
Proof.
  intros He Hu. destruct (He Hu) as [Hu' Hp]. split; [exact Hu'|].
  intros i r Hr. exists r. split; [|apply row_advance_refl].
  eapply prefix_lookup_Some; eassumption.
Qed.

Lemma extend_refl db : orders_extend db db.
Proof. intros H. split; [exact H | reflexivity]. Qed.

Lemma extend_same db db' : orders db' = orders db -> orders_extend db db'.
Proof.
  intros He Hu. unfold numbers_unique in *. rewrite He.
  split; [exact Hu | reflexivity].
Qed.

Lemma extend_add_user id login password db db1 db' :
  insert_user id login password db = Ok db1 ->
  insert_balance id db1 = Ok db' -> orders_extend db db'.
Proof.
  intros H1 H2. apply insert_user_ok in H1. destruct H1 as [-> _].
  apply insert_balance_ok in H2. destruct H2 as [-> _].
  apply extend_same. reflexivity.
Qed.

Lemma extend_add_order user number db db' :
  insert_order user number db = Ok db' -> orders_extend db db'.
Proof.
  intros H Hu. pose proof H as H'.
  apply insert_order_ok in H. destruct H as (-> & Hfresh & _).
  unfold numbers_unique in *. simpl. split.
  - rewrite fmap_app. apply NoDup_app. split; [exact Hu|]. split.
    + intros x Hx Hx'. apply list_elem_of_singleton in Hx'. simpl in Hx'.
      subst x. contradiction.
    + apply NoDup_singleton.
  - apply prefix_app_r. reflexivity.
Qed.

Lemma extend_credit amount user db db' :
  update_balance (credit amount) user db = Ok db' -> orders_extend db db'.
Proof.
  intros H. apply update_balance_ok in H. destruct H as [-> _].
  apply extend_same. reflexivity.
Qed.

Lemma extend_withdraw number user sum db db1 db' :
  0 <= Current (balance_of db user) - sum ->
  insert_withdrawal number user sum db = Ok db1 ->
  update_balance (debit sum) user db1 = Ok db' -> orders_extend db db'.
Proof.
  intros _ H1 H2. apply insert_withdrawal_ok in H1. destruct H1 as (-> & _).
  apply update_balance_ok in H2. destruct H2 as [-> _].
  apply extend_same. reflexivity.
Qed.

(** A finished row is out of reach of a tick. *)
Lemma reconciled_finished svc db W r :
  numbers_unique db -> r ∈ orders db ->
  (forall n, n ∈ W ->
     exists o info, o ∈ orders db /\ is_unfinished o = true
       /\ OrderNumber o = n /\ accrual.getOrderStatus svc n = Some info) ->
  is_unfinished r = false -> reconciled svc W r = r.
Proof.
  intros Hu Hr Hsound Hf. unfold reconciled.
  destruct (existsb _ W) eqn:E; [|reflexivity].
  apply existsb_eqb_spec in E. destruct (Hsound _ E) as (o & info & Ho & Huo & He & _).
  assert (o = r) as -> by (eapply unique_number_row; eassumption).
  congruence.
Qed.

Lemma reconciled_cases svc db W r :
  numbers_unique db -> r ∈ orders db ->
  (forall n, n ∈ W ->
     exists o info, o ∈ orders db /\ is_unfinished o = true
       /\ OrderNumber o = n /\ accrual.getOrderStatus svc n = Some info) ->
  reconciled svc W r = r
  \/ exists info, is_unfinished r = true
       /\ accrual.getOrderStatus svc (OrderNumber r) = Some info
       /\ reconciled svc W r = accrual.translate r info.
Proof.
  intros Hu Hr Hsound.
  destruct (is_unfinished r) eqn:Ef.
  - unfold reconciled. destruct (existsb _ W); [|left; reflexivity].
    destruct (accrual.getOrderStatus svc (OrderNumber r)) as [info|];
      [|left; reflexivity].
    right. exists info. repeat split.
  - left. eapply reconciled_finished; eassumption.
Qed.

Lemma advance_update svc tf db :
  orders_advance db (fst (accrual.update svc tf db)).
Proof.
  intros Hu.
  destruct (update_result svc db Hu tf) as (W & _ & _ & Ho & Hsound & _ & _).
  split.
  - unfold numbers_unique in *. rewrite Ho.
    rewrite <- list_fmap_compose.
    erewrite list_fmap_ext; [exact Hu|].
    intros i r _. simpl. apply reconciled_number.
  - intros i r Hr. exists (reconciled svc W r). split.
    + rewrite Ho, list_lookup_fmap, Hr. reflexivity.
    + pose proof (list_elem_of_lookup_2 _ _ _ Hr) as Hin.
      repeat split.
      * apply reconciled_user.
      * apply reconciled_number.
      * destruct (reconciled_cases svc db W r Hu Hin Hsound)
          as [->|(info & Hun & _ & ->)]; [constructor|].
        apply translate_step, Hun.
      * eapply reconciled_finished; eassumption.
Qed.

Lemma advance_step o db : orders_advance db (step o db).
Proof.
  destruct o; simpl.
  - apply extend_advance, (keeps_run orders_extend extend_refl).
    apply keeps_AddUser. apply extend_add_user.
  - apply extend_advance, (keeps_run orders_extend extend_refl).
    apply keeps_AddOrder. apply extend_add_order.
  - apply extend_advance, (keeps_run orders_extend extend_refl).
    apply keeps_Withdraw. apply extend_withdraw.
  - apply extend_advance, (keeps_run orders_extend extend_refl).
    apply keeps_AddBalance. apply extend_credit.
  - apply advance_update.
Qed.

Lemma advance_run_ops ops : forall db, orders_advance db (run_ops ops db).
Proof.
  unfold run_ops. induction ops as [|o ops IH]; intros db; simpl.
  - apply orders_advance_refl.
  - eapply orders_advance_trans; [apply advance_step | apply IH].
Qed.

End forward.

(** * Properties of the service *)

(** ** The checksum *)

Section checksum.

Lemma loop_sum bytes : forall st,
  snd (fold_left app.loop_body bytes st)
  = snd st + app.bytewise_sum (fst st) bytes.
Proof.
  induction bytes as [|c bytes IH]; intros [second sum]; simpl.
  - lia.
  - rewrite IH. simpl. lia.
Qed.

(** [sum] stays far from the limits of a Go [int]. *)
Lemma bytewise_sum_bounds bytes : forall second,
  0 <= app.bytewise_sum second bytes <= 34 * Z.of_nat (length bytes).
Proof.
  induction bytes as [|c bytes IH]; intros second; simpl app.bytewise_sum.
  - simpl. lia.
  - specialize (IH (negb second)).
    set (d := if second
              then app.uint8 (app.uint8 (app.byte_of c - 48) * 2)
              else app.uint8 (app.byte_of c - 48)).
    assert (0 <= d < 256) as Hd.
    { unfold d, app.uint8. destruct second; apply Z.mod_pos_bound; lia. }
    assert (0 <= d / 10 < 26) as Hq.
    { split; [apply Z.div_pos; lia | apply Z.div_lt_upper_bound; lia]. }
    assert (0 <= d mod 10 < 10) as Hr by (apply Z.mod_pos_bound; lia).
    rewrite length_cons, Nat2Z.inj_succ. lia.
Qed.

Lemma isCorrectOrderNum_sum number :
  app.isCorrectOrderNum number = (app.luhn_sum number mod 10 =? 0).
Proof.
  unfold app.isCorrectOrderNum, app.loop, app.luhn_sum.
  rewrite loop_sum. reflexivity.
Qed.

(** The handler hands every order number that passes the checksum to
    the store. *)
Lemma apiAddUserOrder_admits number user db :
  app.isCorrectOrderNum number = true ->
  storage.user_exists db user = true ->
  existsb (fun o => String.eqb (storage.OrderNumber o) number)
          (storage.orders db) = false ->
  app.apiAddUserOrder "text/plain" number user storage.no_fault db
  = (storage.set_orders db
       (storage.orders db ++ [storage.mkOrder user number "NEW" 0]),
     app.StatusAccepted).
Proof.
  intros Hok Hu Hfresh. unfold app.apiAddUserOrder. rewrite Hok. simpl.
  unfold storage.run, storage.AddOrder, storage.bind, storage.try,
    storage.Exec, storage.Begin, storage.Commit, storage.bind,
    storage.roundtrip, storage.no_fault, storage.insert_order.
  rewrite Hfresh, Hu. reflexivity.
Qed.



End checksum.

(** ** Balances *)

Section balances.
Import storage.

(** C3: along every sequence of operations (ticks, withdrawals, credits,
    registrations, uploads, under any storage faults) that starts from a
    store satisfying the CHECK constraints, the current balance of every
    user is at least 0 after every operation.  The accruals need not even
    be non-negative: a credit that would make a balance negative is
    refused by the CHECK of the column and rolled back. *)
Theorem current_balance_never_negative ops db d user :
  checks_ok db -> d ∈ trace ops db -> 0 <= Current (balance_of d user).
Proof.
  intros Hc Hd. pose proof (checks_trace ops db Hc) as Hall.
  rewrite Forall_forall in Hall. apply checks_balance_of, Hall, Hd.
Qed.

(** An upload, a tick that credits 500 points and a withdrawal of 200. *)
Lemma current_balance_never_negative_history :
  checks_ok demo.registered
  /\ demo.withdrawn_store ∈ trace demo.history demo.registered
  /\ 0 <= Current (balance_of demo.withdrawn_store demo.alice).
Proof.
  assert (checks_ok demo.registered) as Hc.
  { split; repeat constructor; simpl; lia. }
  assert (demo.withdrawn_store ∈ trace demo.history demo.registered) as Hd.
  { apply list_elem_of_lookup. exists 3%nat. vm_compute. reflexivity. }
  split; [exact Hc|]. split; [exact Hd|].
  exact (current_balance_never_negative demo.history demo.registered
           demo.withdrawn_store demo.alice Hc Hd).
Defined.

(** C9, the claim as stated fails: a withdrawal of 0 is accepted and its
    row recorded (the CHECK of the column is [sum >= 0.0], and neither the
    handler nor [Withdraw] asks for more). *)
Lemma zero_withdrawal_is_recorded :
  run (Withdraw demo.alice "79927398713" 0) no_fault demo.registered
  = (set_withdrawal demo.registered
       [mkWithdrawal "79927398713" demo.alice 0], Ok tt)
  /\ app.apiBalanceWithdraw "application/json"
       (Some (app.mkWithdrawRequest "79927398713" 0)) demo.alice no_fault
       demo.registered
     = (set_withdrawal demo.registered
          [mkWithdrawal "79927398713" demo.alice 0], app.StatusOK)
  /\ ~ 0 < Sum (mkWithdrawal "79927398713" demo.alice 0).
Proof.
  split; [reflexivity|]. split; [reflexivity|]. simpl. lia.
Qed.

(** C9, amended: along every sequence of operations from a store
    satisfying the CHECK constraints, the withdrawn total of every user is
    at least 0 and never decreases from one store to the next, recorded
    withdrawal rows are never changed or removed, and every recorded row
    has an amount of at least 0. *)
Theorem withdrawn_total_monotone ops db i d d' user :
  checks_ok db ->
  trace ops db !! i = Some d ->
  trace ops db !! S i = Some d' ->
  0 <= Withdrawn (balance_of d user)
  /\ Withdrawn (balance_of d user) <= Withdrawn (balance_of d' user)
  /\ withdrawal d `prefix_of` withdrawal d'
  /\ Forall (fun w => 0 <= Sum w) (withdrawal d').
Proof.
  intros Hc Hd Hd'. pose proof (checks_trace ops db Hc) as Hall.
  rewrite Forall_forall in Hall.
  pose proof (Hall d (list_elem_of_lookup_2 _ _ _ Hd)) as Hcd.
  pose proof (Hall d' (list_elem_of_lookup_2 _ _ _ Hd')) as Hcd'.
  assert (withdrawn_grows d d') as [Hg Hp].
  { apply (kept_trace withdrawn_grows) with (ops := ops) (db := db) (i := i);
      try assumption.
    - apply grows_refl.
    - apply grows_trans.
    - apply grows_add_user.
    - apply grows_add_order.
    - apply grows_update_order.
    - apply grows_withdraw.
    - apply grows_credit. }
  split; [apply checks_balance_of, Hcd|]. split; [apply Hg|].
  split; [exact Hp|]. apply Hcd'.
Qed.

(** The same history, from the credited store to the one after the
    withdrawal. *)
Lemma withdrawn_total_monotone_history :
  checks_ok demo.registered
  /\ trace demo.history demo.registered !! 2%nat = Some demo.credited_store
  /\ trace demo.history demo.registered !! 3%nat = Some demo.withdrawn_store
  /\ 0 <= Withdrawn (balance_of demo.credited_store demo.alice)
  /\ Withdrawn (balance_of demo.credited_store demo.alice)
     <= Withdrawn (balance_of demo.withdrawn_store demo.alice)
  /\ withdrawal demo.credited_store `prefix_of` withdrawal demo.withdrawn_store
  /\ Forall (fun w => 0 <= Sum w) (withdrawal demo.withdrawn_store).
Proof.
  assert (checks_ok demo.registered) as Hc.
  { split; repeat constructor; simpl; lia. }
  assert (trace demo.history demo.registered !! 2%nat
          = Some demo.credited_store) as H2 by (vm_compute; reflexivity).
  assert (trace demo.history demo.registered !! 3%nat
          = Some demo.withdrawn_store) as H3 by (vm_compute; reflexivity).
  split; [exact Hc|]. split; [exact H2|]. split; [exact H3|].
  exact (withdrawn_total_monotone demo.history demo.registered 2
           demo.credited_store demo.withdrawn_store demo.alice Hc H2 H3).
Defined.

End balances.

(** ** Order admission *)

Section admission.
Import storage.

Lemma existsb_intro {A : Type} (p : A -> bool) (l : list A) x :
  x ∈ l -> p x = true -> existsb p l = true.
Proof.
  induction l as [|a l IH]; intros Hx Hp.
  - inversion Hx.
  - simpl. apply elem_of_cons in Hx. destruct Hx as [<-|Hx].
    + rewrite Hp. reflexivity.
    + rewrite (IH Hx Hp). apply orb_true_r.
Qed.

Lemma forallb_intro {A : Type} (p : A -> bool) (l : list A) :
  (forall x, x ∈ l -> p x = true) -> forallb p l = true.
Proof.
  induction l as [|a l IH]; intros H; simpl; [reflexivity|].
  rewrite H by (apply elem_of_cons; left; reflexivity).
  apply IH. intros x Hx. apply H, elem_of_cons. right. exact Hx.
Qed.

(** The row [checkDuplicateOrder] reads is the row of the order. *)
Lemma owner_of_number (l : list Order) o :
  NoDup (OrderNumber <$> l) -> o ∈ l ->
  filter (fun x => String.eqb (OrderNumber x) (OrderNumber o)) l = [o].
Proof.
  induction l as [|a l IH]; intros Hnd Ho; [inversion Ho|].
  rewrite fmap_cons in Hnd. apply NoDup_cons in Hnd.
  destruct Hnd as [Hfresh Hnd]. rewrite filter_cons.
  destruct (decide (Is_true (String.eqb (OrderNumber a) (OrderNumber o))))
    as [Heq|Hne].
  - apply Is_true_eq_true, String.eqb_eq in Heq.
    apply elem_of_cons in Ho. destruct Ho as [->|Ho].
    + f_equal. destruct (filter _ l) as [|x xs] eqn:E; [reflexivity|].
      exfalso. assert (x ∈ filter
        (fun x => String.eqb (OrderNumber x) (OrderNumber a)) l) as Hx
        by (rewrite E; apply elem_of_cons; left; reflexivity).
      apply list_elem_of_filter in Hx. destruct Hx as [Hp Hx].
      apply Is_true_eq_true, String.eqb_eq in Hp.
      apply Hfresh. rewrite <- Hp. apply list_elem_of_fmap_2, Hx.
    + exfalso. apply Hfresh. rewrite Heq. apply list_elem_of_fmap_2, Ho.
  - apply elem_of_cons in Ho. destruct Ho as [->|Ho].
    + exfalso. apply Hne. rewrite String.eqb_refl. exact I.
    + apply IH; assumption.
Qed.

Lemma AddOrder_taken db o user :
  numbers_unique db -> o ∈ orders db ->
  run (AddOrder user (OrderNumber o)) no_fault db
  = (db, Err (if N.eqb (UserID o) user
              then ErrOrderAlreadyPlaced else ErrDuplicateOrder)).
Proof.
  intros Hu Ho.
  unfold run, AddOrder, bind, try, Exec, Begin, bind, roundtrip, no_fault,
    insert_order.
  rewrite (existsb_intro _ _ o Ho) by (simpl; apply String.eqb_refl). simpl.
  unfold checkDuplicateOrder, bind, Query, bind, roundtrip, select_order_owner.
  rewrite (owner_of_number _ o Hu Ho). simpl.
  destruct (N.eqb (UserID o) user); reflexivity.
Qed.

Lemma owners_stay_run_ops ops db : owners_stay db (run_ops ops db).
Proof.
  apply (kept_run_ops owners_stay).
  - intros d. unfold owners_stay. reflexivity.
  - intros a b c Hab Hbc. unfold owners_stay in *. etransitivity; eassumption.
  - apply owners_add_user.
  - apply owners_add_order.
  - apply owners_update_order.
  - apply owners_withdraw.
  - apply owners_credit.
Qed.

(** C5: when the order number is already in the store (the insert hits the
    uniqueness conflict), a registration by the owner leaves the store as it
    is and answers 200 ([ErrOrderAlreadyPlaced]), a registration by anybody
    else leaves the store as it is and answers 409 ([ErrDuplicateOrder]);
    under any storage fault a registration of the number adds no row; and
    after any further operations the number is still unique in the store
    and every row that carries it belongs to the same owner. *)
Theorem order_number_has_one_owner db o user f ops o' :
  numbers_unique db ->
  o ∈ orders db ->
  app.isCorrectOrderNum (OrderNumber o) = true ->
  o' ∈ orders (run_ops ops db) ->
  OrderNumber o' = OrderNumber o ->
  (user = UserID o ->
     run (AddOrder user (OrderNumber o)) no_fault db
       = (db, Err ErrOrderAlreadyPlaced)
     /\ app.apiAddUserOrder "text/plain" (OrderNumber o) user no_fault db
        = (db, app.StatusOK))
  /\ (user <> UserID o ->
        run (AddOrder user (OrderNumber o)) no_fault db
          = (db, Err ErrDuplicateOrder)
        /\ app.apiAddUserOrder "text/plain" (OrderNumber o) user no_fault db
           = (db, app.StatusConflict))
  /\ fst (run (AddOrder user (OrderNumber o)) f db) = db
  /\ numbers_unique (run_ops ops db)
  /\ UserID o' = UserID o.
Proof.
  intros Hu Ho Hok Ho' Hn.
  pose proof (AddOrder_taken db o user Hu Ho) as Hrun.
  split; [|split; [|split; [|split]]].
  - intros ->. rewrite N.eqb_refl in Hrun. split; [exact Hrun|].
    unfold app.apiAddUserOrder. rewrite Hok, Hrun. reflexivity.
  - intros Hne. destruct (N.eqb_spec (UserID o) user) as [He|_];
      [congruence|].
    split; [exact Hrun|].
    unfold app.apiAddUserOrder. rewrite Hok, Hrun. reflexivity.
  - destruct (run_cases (AddOrder user (OrderNumber o)) f db)
      as [(e & ->)|(u & db' & f' & Hadd & _)]; [reflexivity|].
    exfalso. apply AddOrder_ok, insert_order_ok in Hadd.
    destruct Hadd as (_ & Hfresh & _). apply Hfresh.
    apply list_elem_of_fmap_2, Ho.
  - apply (advance_run_ops ops db Hu).
  - destruct (advance_run_ops ops db Hu) as [Hu' _].
    apply list_elem_of_lookup in Ho. destruct Ho as (i & Hi).
    assert (owners db !! i = Some (OrderNumber o, UserID o)) as Hown.
    { unfold owners. rewrite list_lookup_fmap, Hi. reflexivity. }
    pose proof (prefix_lookup_Some _ _ _ _ Hown (owners_stay_run_ops ops db))
      as Hown'.
    unfold owners in Hown'. rewrite list_lookup_fmap in Hown'.
    destruct (orders (run_ops ops db) !! i) as [o''|] eqn:E; [|discriminate].
    simpl in Hown'. injection Hown' as Hn'' Hu''.
    assert (o' = o'') as ->.
    { eapply unique_number_row; [exact Hu' | exact Ho' | | congruence].
      eapply list_elem_of_lookup_2, E. }
    exact Hu''.
Qed.

(** Alice and Bob both upload Alice's order again. *)
Lemma order_number_has_one_owner_uploaded :
  numbers_unique demo.uploaded
  /\ mkOrder demo.alice "12345678903" "NEW" 0 ∈ orders demo.uploaded
  /\ mkOrder demo.alice "12345678903" "PROCESSED" 50000
       ∈ orders (run_ops [OpTick (demo.says "PROCESSED" 50000) accrual.no_faults]
                   demo.uploaded)
  /\ run (AddOrder demo.alice "12345678903") no_fault demo.uploaded
     = (demo.uploaded, Err ErrOrderAlreadyPlaced)
  /\ app.apiAddUserOrder "text/plain" "12345678903" demo.alice no_fault
       demo.uploaded = (demo.uploaded, app.StatusOK)
  /\ run (AddOrder demo.bob "12345678903") no_fault demo.uploaded
     = (demo.uploaded, Err ErrDuplicateOrder)
  /\ app.apiAddUserOrder "text/plain" "12345678903" demo.bob no_fault
       demo.uploaded = (demo.uploaded, app.StatusConflict).
Proof.
  assert (numbers_unique demo.uploaded) as Hu.
  { apply (bool_decide_unpack _). vm_compute. reflexivity. }
  assert (mkOrder demo.alice "12345678903" "NEW" 0 ∈ orders demo.uploaded)
    as Ho by (apply elem_of_cons; left; reflexivity).
  assert (mkOrder demo.alice "12345678903" "PROCESSED" 50000
            ∈ orders (run_ops
                        [OpTick (demo.says "PROCESSED" 50000) accrual.no_faults]
                        demo.uploaded)) as Ho'
    by (apply elem_of_cons; left; vm_compute; reflexivity).
  destruct (order_number_has_one_owner demo.uploaded
              (mkOrder demo.alice "12345678903" "NEW" 0) demo.alice no_fault
              [OpTick (demo.says "PROCESSED" 50000) accrual.no_faults]
              (mkOrder demo.alice "12345678903" "PROCESSED" 50000)
              Hu Ho eq_refl Ho' eq_refl) as (Hsame & _).
  destruct (order_number_has_one_owner demo.uploaded
              (mkOrder demo.alice "12345678903" "NEW" 0) demo.bob no_fault
              [OpTick (demo.says "PROCESSED" 50000) accrual.no_faults]
              (mkOrder demo.alice "12345678903" "PROCESSED" 50000)
              Hu Ho eq_refl Ho' eq_refl) as (_ & Hother & _).
  destruct (Hsame eq_refl) as [H1 H2].
  destruct Hother as [H3 H4]; [discriminate|].
  repeat split; assumption.
Defined.

End admission.

(** ** Withdrawal *)

Section withdrawal.
Import storage.

Lemma run_Withdraw_no_fault user number sum db :
  run (Withdraw user number sum) no_fault db =
  if Current (balance_of db user) - sum <? 0
  then (db, Err ErrNotEnoughBalance)
  else
    match insert_withdrawal number user sum db with
    | Err e => (db, Err e)
    | Ok db1 =>
        match update_balance (debit sum) user db1 with
        | Err e => (db, Err e)
        | Ok db' => (db', Ok tt)
        end
    end.
Proof.
  unfold run, Withdraw, bind, Exec, Query, Begin, Commit, bind, roundtrip,
    throw, no_fault, balance_of.
  destruct (Current (first_balance (select_balance user db)) - sum <? 0);
    [reflexivity|].
  destruct (insert_withdrawal number user sum db) as [db1|e]; [|reflexivity].
  destruct (update_balance (debit sum) user db1) as [db'|e]; reflexivity.
Qed.

(** A fault either comes after the last round trip of the call, or
    makes it fail with the error of the connection and no change. *)
Lemma run_Withdraw_fault user number sum db f :
  run (Withdraw user number sum) f db
    = run (Withdraw user number sum) no_fault db
  \/ run (Withdraw user number sum) f db = (db, Err ErrConn).
Proof.
  destruct f as [k|]; [|left; reflexivity].
  unfold run, Withdraw, bind, Exec, Query, Begin, Commit, bind, roundtrip,
    throw, no_fault.
  destruct k as [|[|k]]; [right; reflexivity | right; reflexivity |].
  destruct (Current (first_balance (select_balance user db)) - sum <? 0);
    [left; reflexivity|].
  destruct k as [|k]; [right; reflexivity|].
  destruct (insert_withdrawal number user sum db) as [db1|e];
    [|left; reflexivity].
  destruct k as [|k]; [right; reflexivity|].
  destruct (update_balance (debit sum) user db1) as [db'|e];
    [|left; reflexivity].
  destruct k as [|k]; [right; reflexivity | left; reflexivity].
Qed.

(** With one balance row per user, the row [Withdraw] reads is the only
    row its [UPDATE] rewrites. *)
Lemma only_row db user b :
  NoDup (user_id <$> balance db) -> b ∈ balance db -> user_id b = user ->
  first_row user (balance db) = Some b.
Proof.
  intros Hnd Hb Hu. destruct (first_row user (balance db)) as [b'|] eqn:E.
  - apply first_row_elem in E. destruct E as [Hb' Hu'].
    f_equal. eapply unique_number_row; [exact Hnd | | | congruence];
      assumption.
  - exfalso. unfold first_row in E.
    apply head_None in E.
    eapply (filter_nil_not_elem_of _ _ b E); [|exact Hb].
    apply Is_true_eq_left, N.eqb_eq, Hu.
Qed.




End withdrawal.

(** ** Reconciliation *)

Section reconciliation.
Import storage.

(** C4: whatever operations follow (ticks under any answers of the accrual
    service and any storage faults, uploads, withdrawals, credits), the row
    of an order keeps its place, its owner and its number, its status only
    moves along NEW -> PROCESSING -> {INVALID, PROCESSED}, and once the
    status is PROCESSED or INVALID neither the status nor the accrual
    changes any more. *)
Theorem finished_orders_never_change ops db i r :
  numbers_unique db ->
  orders db !! i = Some r ->
  exists r',
    orders (run_ops ops db) !! i = Some r'
    /\ UserID r' = UserID r
    /\ OrderNumber r' = OrderNumber r
    /\ status_step (Status r) (Status r')
    /\ (Status r = "PROCESSED" \/ Status r = "INVALID" ->
        Status r' = Status r /\ Accrual r' = Accrual r).
Proof.
  intros Hu Hr. destruct (advance_run_ops ops db Hu) as [_ Hrows].
  destruct (Hrows i r Hr) as (r' & Hr' & HU & HN & HS & HF).
  exists r'. repeat split; try assumption.
  - destruct H as [H|H]; rewrite HF; try reflexivity;
      unfold is_unfinished; rewrite H; reflexivity.
  - destruct H as [H|H]; rewrite HF; try reflexivity;
      unfold is_unfinished; rewrite H; reflexivity.
Qed.

(** A processed order under two further ticks. *)
Lemma finished_orders_never_change_credited :
  numbers_unique demo.credited_store
  /\ orders demo.credited_store !! 0%nat
     = Some (mkOrder demo.alice "12345678903" "PROCESSED" 50000)
  /\ exists r',
       orders (run_ops [OpTick (demo.says "INVALID" 0) accrual.no_faults;
                        OpTick (demo.says "PROCESSING" 7) demo.credit_fails]
                 demo.credited_store) !! 0%nat = Some r'
       /\ Status r' = "PROCESSED" /\ Accrual r' = 50000.
Proof.
  assert (numbers_unique demo.credited_store) as Hu.
  { apply (bool_decide_unpack _). vm_compute. reflexivity. }
  split; [exact Hu|]. split; [reflexivity|].
  destruct (finished_orders_never_change
              [OpTick (demo.says "INVALID" 0) accrual.no_faults;
               OpTick (demo.says "PROCESSING" 7) demo.credit_fails]
              demo.credited_store 0
              (mkOrder demo.alice "12345678903" "PROCESSED" 50000)
              Hu eq_refl) as (r' & Hr' & _ & _ & _ & Hkeep).
  exists r'. split; [exact Hr'|]. apply Hkeep. left. reflexivity.
Defined.

Lemma recognized_false status :
  recognized status = false ->
  String.eqb status accrual.StatusRegistered = false
  /\ String.eqb status accrual.StatusProcessing = false
  /\ String.eqb status accrual.StatusInvalid = false
  /\ String.eqb status accrual.StatusProcessed = false.
Proof.
  unfold recognized. intros H.
  repeat (apply orb_false_iff in H; destruct H as [H ?]). auto.
Qed.

Lemma translate_unrecognized o info :
  recognized (accrual.Status info) = false -> accrual.translate o info = o.
Proof.
  intros H. apply recognized_false in H. destruct H as (H1 & H2 & H3 & H4).
  unfold accrual.translate. rewrite H1, H2, H3, H4. reflexivity.
Qed.



End reconciliation.

(** ** The commit of a tick *)

Section commit.
Import storage.

Lemma update_unfold svc tf db :
  accrual.update svc tf db =
  if answers (accrual.f_list tf) 1
  then
    match select_unfinished db with
    | [] => (db, [])
    | _ :: _ =>
        match run (UpdateBalanceFromOrders
                     (accrual.l_batch (before_credit svc tf db)))
                  (accrual.f_credit tf)
                  (accrual.l_db (before_credit svc tf db)) with
        | (db', Ok _) => (db', accrual.l_log (before_credit svc tf db))
        | (db', Err e) =>
            (db', (accrual.l_log (before_credit svc tf db)
                   ++ [("can't update balance", e)])%list)
        end
    end
  else (db, []).
Proof.
  unfold accrual.update, before_credit. rewrite run_GetUnfinishedOrders.
  destruct (answers (accrual.f_list tf) 1); [|reflexivity].
  destruct (select_unfinished db) as [|o os] eqn:Eos; [reflexivity|].
  rewrite combine_lookups. reflexivity.
Qed.

Lemma loop_log tf work : forall i st,
  Forall (fun line : accrual.log_line => fst line = "can't update order")
         (accrual.l_log st) ->
  Forall (fun line : accrual.log_line => fst line = "can't update order")
         (accrual.l_log (accrual.loop tf i work st)).
Proof.
  induction work as [|[o [info|]] work IH]; intros i st Hst; simpl.
  - exact Hst.
  - apply IH. rewrite run_UpdateOrder.
    destruct (answers (accrual.f_order tf i) 3); simpl; [exact Hst|].
    apply Forall_app. split; [exact Hst|]. repeat constructor.
  - apply IH, Hst.
Qed.

Lemma same_ledger_refl db : same_ledger db db.
Proof. repeat split. Qed.

Lemma same_ledger_trans a b c :
  same_ledger a b -> same_ledger b c -> same_ledger a c.
Proof.
  intros (U1 & B1 & W1) (U2 & B2 & W2). repeat split; congruence.
Qed.

Lemma same_ledger_update_order status accrual number db db' :
  update_order status accrual number db = Ok db' -> same_ledger db db'.
Proof.
  unfold update_order. intros H. injection H as <-. repeat split.
Qed.

Lemma before_credit_same_ledger svc tf db :
  same_ledger db (accrual.l_db (before_credit svc tf db)).
Proof.
  unfold before_credit.
  exact (kept_loop same_ledger same_ledger_refl same_ledger_trans
           same_ledger_update_order tf _ 0%nat (accrual.mkLoop db [] [])).
Qed.




(** C2 at the failing input: the service reports order 12345678903 as
    PROCESSED for 500 points and the connection drops when
    [UpdateBalanceFromOrders] begins.  [UpdateOrder] has already committed
    the status PROCESSED, the balance of the owner is not credited, and no
    later tick, whatever the service answers, changes the store: the
    accrual is summed into a balance zero times.  With the same answer and
    no fault the balance is credited once. *)
Theorem processed_order_is_never_credited svc tf :
  accrual.update (demo.says "PROCESSED" 50000) demo.credit_fails demo.uploaded
  = (demo.lost_credit, [("can't update balance", ErrConn)])
  /\ orders demo.lost_credit
     = [mkOrder demo.alice "12345678903" "PROCESSED" 50000]
  /\ balance_of demo.lost_credit demo.alice = mkBalanceInfo 0 0
  /\ accrual.update svc tf demo.lost_credit = (demo.lost_credit, [])
  /\ accrual.update (demo.says "PROCESSED" 50000) accrual.no_faults
       demo.uploaded
     = (demo.credited_store, []).
Proof.
  split; [reflexivity|]. split; [reflexivity|]. split; [reflexivity|].
  split; [|reflexivity].
  rewrite update_unfold. destruct (answers (accrual.f_list tf) 1); reflexivity.
Qed.

End commit.

(** * Further properties *)

(** ** The checksum on digits *)

Section check_digit.

Lemma list_ascii_of_string_app (s1 s2 : string) :
  list_ascii_of_string (s1 ++ s2)
  = (list_ascii_of_string s1 ++ list_ascii_of_string s2)%list.
Proof.
  induction s1 as [|c s1 IH]; simpl; [reflexivity|]. rewrite IH. reflexivity.
Qed.

Lemma bytewise_sum_app l1 : forall second l2,
  app.bytewise_sum second (l1 ++ l2)
  = app.bytewise_sum second l1
    + app.bytewise_sum (if Nat.even (length l1) then second else negb second) l2.
Proof.
  induction l1 as [|c l1 IH]; intros second l2.
  - simpl. reflexivity.
  - rewrite <- app_comm_cons. cbn [app.bytewise_sum]. rewrite IH.
    cbn [length]. rewrite Nat.even_succ, <- Nat.negb_even.
    destruct (Nat.even (length l1)); cbn [negb];
      rewrite ?negb_involutive; lia.
Qed.

(** What one byte adds to the sum. *)
Lemma bytewise_sum_one second c :
  app.bytewise_sum second [c]
  = (let d := app.uint8 (app.byte_of c - 48) in
     let d := if second then app.uint8 (d * 2) else d in
     d / 10 + d mod 10).
Proof. simpl. lia. Qed.

Lemma digit_value c :
  app.is_digit c = true -> 0 <= app.byte_of c - 48 <= 9.
Proof.
  unfold app.is_digit. intros H. apply andb_true_iff in H.
  destruct H as [H1 H2]. apply Z.leb_le in H1. apply Z.leb_le in H2. lia.
Qed.

(** A digit adds its value where it is not doubled and the digit sum of its
    double where it is: a number from 0 to 9 either way, and another one for
    another digit. *)
Lemma digit_share second c c' :
  app.is_digit c = true -> app.is_digit c' = true -> c <> c' ->
  0 <= app.bytewise_sum second [c] <= 9
  /\ 0 <= app.bytewise_sum second [c'] <= 9
  /\ app.bytewise_sum second [c] <> app.bytewise_sum second [c'].
Proof.
  intros Hc Hc' Hne. apply digit_value in Hc. apply digit_value in Hc'.
  assert (app.byte_of c - 48 <> app.byte_of c' - 48) as Hv.
  { intros He. apply Hne. unfold app.byte_of in He.
    assert (N_of_ascii c = N_of_ascii c') as Hn by lia.
    rewrite <- (ascii_N_embedding c), <- (ascii_N_embedding c'), Hn.
    reflexivity. }
  rewrite !bytewise_sum_one.
  set (v := app.byte_of c - 48) in *. set (v' := app.byte_of c' - 48) in *.
  clearbody v v'. clear Hne.
  assert (v = 0 \/ v = 1 \/ v = 2 \/ v = 3 \/ v = 4 \/ v = 5 \/ v = 6
          \/ v = 7 \/ v = 8 \/ v = 9) as Hcase by lia.
  assert (v' = 0 \/ v' = 1 \/ v' = 2 \/ v' = 3 \/ v' = 4 \/ v' = 5 \/ v' = 6
          \/ v' = 7 \/ v' = 8 \/ v' = 9) as Hcase' by lia.
  destruct second;
    repeat (destruct Hcase as [->|Hcase]); try subst v;
    repeat (destruct Hcase' as [->|Hcase']); try subst v';
    vm_compute; repeat split; try discriminate; try (intros H; discriminate H);
    try (exfalso; apply Hv; reflexivity).
Qed.

(** The sum of a number with one byte singled out. *)
Lemma luhn_sum_split pre c post :
  app.luhn_sum (pre ++ String c post)
  = app.bytewise_sum false (rev (list_ascii_of_string post))
    + app.bytewise_sum (Nat.odd (String.length post)) [c]
    + app.bytewise_sum (Nat.even (String.length post))
        (rev (list_ascii_of_string pre)).
Proof.
  unfold app.luhn_sum. rewrite list_ascii_of_string_app. simpl.
  rewrite rev_app_distr. simpl. rewrite <- app_assoc. simpl.
  rewrite bytewise_sum_app. rewrite length_rev.
  assert (length (list_ascii_of_string post) = String.length post) as Hlen.
  { clear. induction post as [|a post IH]; simpl; [reflexivity|].
    rewrite IH. reflexivity. }
  rewrite Hlen.
  change (c :: rev (list_ascii_of_string pre))
    with ([c] ++ rev (list_ascii_of_string pre))%list.
  rewrite bytewise_sum_app. unfold Nat.odd.
  destruct (Nat.even (String.length post)); simpl; lia.
Qed.

(** X1: replacing one digit of an accepted number by another digit, at any
    place and whatever the other bytes are, gives a number the checksum
    rejects. *)
Theorem single_digit_error_is_rejected pre c c' post :
  app.is_digit c = true ->
  app.is_digit c' = true ->
  c <> c' ->
  app.isCorrectOrderNum (pre ++ String c post) = true ->
  app.isCorrectOrderNum (pre ++ String c' post) = false.
Proof.
  intros Hc Hc' Hne Hok.
  rewrite isCorrectOrderNum_sum in Hok |- *.
  rewrite luhn_sum_split in Hok |- *.
  destruct (digit_share (Nat.odd (String.length post)) c c' Hc Hc' Hne)
    as (Hr & Hr' & Hdiff).
  apply Z.eqb_eq in Hok. apply Z.eqb_neq. Z.div_mod_to_equations. lia.
Qed.

(** The last digit of 12345678903 mistyped as 4. *)
Lemma single_digit_error_is_rejected_12345678904 :
  app.isCorrectOrderNum "12345678903" = true
  /\ app.isCorrectOrderNum "12345678904" = false.
Proof.
  split; [reflexivity|].
  apply (single_digit_error_is_rejected "1234567890" "3" "4" "");
    [reflexivity | reflexivity | discriminate | reflexivity].
Defined.

(** X2: every string, digits or not, has exactly one digit that makes it an
    accepted number when appended. *)
Theorem check_digit_exists_and_is_unique number :
  exists c,
    app.is_digit c = true
    /\ app.isCorrectOrderNum (number ++ String c "") = true
    /\ forall c', app.is_digit c' = true ->
         app.isCorrectOrderNum (number ++ String c' "") = true -> c' = c.
Proof.
  set (K := app.bytewise_sum true (rev (list_ascii_of_string number))).
  assert (0 <= K) as HK by (apply bytewise_sum_bounds).
  set (v := (- K) mod 10).
  assert (0 <= v < 10) as Hv by (apply Z.mod_pos_bound; lia).
  set (c := ascii_of_N (Z.to_N (48 + v))).
  assert (app.byte_of c = 48 + v) as Hbyte.
  { unfold app.byte_of, c. rewrite N_ascii_embedding by lia. lia. }
  assert (app.is_digit c = true) as Hdigit.
  { unfold app.is_digit. rewrite Hbyte. apply andb_true_iff.
    split; apply Z.leb_le; lia. }
  assert (forall x, app.luhn_sum (number ++ String x "")
                    = app.bytewise_sum false [x] + K) as Hsum.
  { intros x. rewrite luhn_sum_split. simpl rev. simpl String.length.
    unfold Nat.odd. simpl Nat.even. simpl negb. fold K.
    simpl (app.bytewise_sum false []). lia. }
  assert (app.isCorrectOrderNum (number ++ String c "") = true) as Hok.
  { rewrite isCorrectOrderNum_sum, Hsum, bytewise_sum_one. cbv zeta.
    rewrite Hbyte. unfold app.uint8. apply Z.eqb_eq. unfold v in *.
    Z.div_mod_to_equations. lia. }
  exists c. split; [exact Hdigit|]. split; [exact Hok|].
  intros c' Hdigit' Hok'. destruct (ascii_dec c' c) as [He|Hne]; [exact He|].
  exfalso.
  destruct (digit_share false c' c Hdigit' Hdigit Hne) as (Hr' & Hr & Hdiff).
  rewrite isCorrectOrderNum_sum, Hsum in Hok, Hok'.
  apply Z.eqb_eq in Hok. apply Z.eqb_eq in Hok'.
  Z.div_mod_to_equations. lia.
Qed.

End check_digit.

(** ** Accounts *)

Section accounts.
Import storage.

Lemma run_AddUser_cases newID auth f db :
  (exists e, run (AddUser newID auth) f db = (db, Err e))
  \/ run (AddUser newID auth) f db
     = (with_account db newID (Login auth) (Password auth), Ok tt).
Proof.
  destruct (run_cases (AddUser newID auth) f db)
    as [He|(u & db' & f' & Hok & Hrun)]; [left; exact He|].
  right. rewrite Hrun. apply AddUser_ok in Hok.
  destruct Hok as (db1 & H1 & H2).
  apply insert_user_ok in H1. destruct H1 as [-> _].
  apply insert_balance_ok in H2. destruct H2 as [-> _].
  destruct u. reflexivity.
Qed.

Lemma run_AddUser_no_fault newID auth db :
  run (AddUser newID auth) no_fault db =
  if existsb (fun u => N.eqb (ID u) newID || String.eqb (Login u) (Login auth))
             (users db)
  then (db, Err ErrDuplicateUser)
  else (with_account db newID (Login auth) (Password auth), Ok tt).
Proof.
  unfold run, AddUser, bind, try, Exec, Begin, Commit, bind, roundtrip,
    no_fault, insert_user.
  destruct (existsb _ (users db)) eqn:E; [reflexivity|].
  unfold insert_balance, user_exists. simpl.
  rewrite existsb_app. simpl. rewrite N.eqb_refl, orb_true_r. reflexivity.
Qed.


Lemma accounts_add_user id login password db db1 db' :
  insert_user id login password db = Ok db1 ->
  insert_balance id db1 = Ok db' -> keeps_accounts db db'.
Proof.
  intros H1 H2 [Hl Hb]. unfold insert_user in H1.
  destruct (existsb _ (users db)) eqn:E; [discriminate|].
  injection H1 as <-. apply insert_balance_ok in H2. destruct H2 as [-> _].
  split.
  - unfold logins_unique in *. simpl. rewrite fmap_app. apply NoDup_app.
    split; [exact Hl|]. split; [|apply NoDup_singleton].
    intros x Hx Hx'. apply list_elem_of_singleton in Hx'. simpl in Hx'.
    subst x. apply list_elem_of_fmap in Hx. destruct Hx as (u & He & Hu).
    pose proof (existsb_false _ _ E u Hu) as Hp. simpl in Hp.
    apply orb_false_iff in Hp. destruct Hp as [_ Hp].
    rewrite <- He, String.eqb_refl in Hp. discriminate.
  - unfold one_balance_row_each in *. simpl. rewrite !fmap_app, Hb.
    reflexivity.
Qed.

Lemma accounts_same db db' :
  users db' = users db ->
  user_id <$> balance db' = user_id <$> balance db ->
  keeps_accounts db db'.
Proof.
  intros Hu Hb [Hl Ho]. unfold logins_unique, one_balance_row_each in *.
  rewrite Hu, Hb. split; assumption.
Qed.

Lemma accounts_update_balance f user db db' :
  (forall b, user_id (f b) = user_id b) ->
  update_balance f user db = Ok db' -> keeps_accounts db db'.
Proof.
  intros Hf H. apply update_balance_ok in H. destruct H as [-> _].
  apply accounts_same; [reflexivity|]. simpl.
  apply user_ids_rewrite, user_id_rewrite, Hf.
Qed.

Lemma accounts_add_order user number db db' :
  insert_order user number db = Ok db' -> keeps_accounts db db'.
Proof.
  intros H. apply insert_order_ok in H. destruct H as [-> _].
  apply accounts_same; reflexivity.
Qed.

Lemma accounts_update_order status accrual number db db' :
  update_order status accrual number db = Ok db' -> keeps_accounts db db'.
Proof.
  unfold update_order. intros H. injection H as <-.
  apply accounts_same; reflexivity.
Qed.

Lemma accounts_withdraw number user sum db db1 db' :
  0 <= Current (balance_of db user) - sum ->
  insert_withdrawal number user sum db = Ok db1 ->
  update_balance (debit sum) user db1 = Ok db' -> keeps_accounts db db'.
Proof.
  intros _ H1 H2. apply insert_withdrawal_ok in H1. destruct H1 as (-> & _).
  intros Hacc.
  apply (accounts_update_balance _ _ _ _ (user_id_debit sum) H2).
  exact Hacc.
Qed.


Lemma select_by_login_new db id login password :
  login ∉ (Login <$> users db) ->
  select_user_by_login login (with_account db id login password)
  = [mkUser id login password].
Proof.
  intros Hfresh. unfold select_user_by_login. simpl. rewrite filter_app.
  assert (filter (fun u => String.eqb (Login u) login) (users db) = []) as ->.
  { destruct (filter _ (users db)) as [|u l] eqn:E; [reflexivity|]. exfalso.
    assert (u ∈ filter (fun u => String.eqb (Login u) login) (users db)) as Hu
      by (rewrite E; apply elem_of_cons; left; reflexivity).
    apply list_elem_of_filter in Hu. destruct Hu as [Hp Hu].
    apply Is_true_eq_true, String.eqb_eq in Hp. apply Hfresh.
    rewrite <- Hp. apply list_elem_of_fmap_2, Hu. }
  rewrite filter_cons. simpl. rewrite String.eqb_refl. reflexivity.
Qed.

Lemma select_by_login_other db id login password other :
  other <> login ->
  select_user_by_login other (with_account db id login password)
  = select_user_by_login other db.
Proof.
  intros Hne. unfold select_user_by_login. simpl. rewrite filter_app.
  rewrite filter_cons. simpl.
  destruct (String.eqb_spec login other) as [He|_]; [congruence|].
  simpl. apply app_nil_r.
Qed.

Lemma AddUser_ok_fresh newID auth f db db' :
  run (AddUser newID auth) f db = (db', Ok tt) ->
  db' = with_account db newID (Login auth) (Password auth)
  /\ (Login auth ∉ (Login <$> users db))
  /\ (newID ∉ (ID <$> users db)).
Proof.
  intros Hrun. destruct (run_cases (AddUser newID auth) f db)
    as [(e & He)|(u & d & f' & Hok & Hrun')]; [congruence|].
  rewrite Hrun' in Hrun. injection Hrun as ->.
  apply AddUser_ok in Hok. destruct Hok as (db1 & H1 & H2).
  pose proof H1 as H1'. unfold insert_user in H1'.
  destruct (existsb _ (users db)) eqn:E; [discriminate|]. clear H1'.
  apply insert_user_ok in H1. destruct H1 as [-> Hid].
  apply insert_balance_ok in H2. destruct H2 as [-> _].
  split; [reflexivity|]. split; [|exact Hid].
  intros Hin. apply list_elem_of_fmap in Hin. destruct Hin as (x & He & Hx).
  pose proof (existsb_false _ _ E x Hx) as Hp. simpl in Hp.
  apply orb_false_iff in Hp. destruct Hp as [_ Hp].
  rewrite <- He, String.eqb_refl in Hp. discriminate.
Qed.

Lemma select_by_id_new db id login password :
  id ∉ (ID <$> users db) ->
  select_user_by_id id (with_account db id login password)
  = [(login, password)].
Proof.
  intros Hfresh. unfold select_user_by_id. simpl. rewrite filter_app.
  assert (filter (fun u => N.eqb (ID u) id) (users db) = []) as ->.
  { destruct (filter _ (users db)) as [|u l] eqn:E; [reflexivity|]. exfalso.
    assert (u ∈ filter (fun u => N.eqb (ID u) id) (users db)) as Hu
      by (rewrite E; apply elem_of_cons; left; reflexivity).
    apply list_elem_of_filter in Hu. destruct Hu as [Hp Hu].
    apply Is_true_eq_true, N.eqb_eq in Hp. apply Hfresh.
    rewrite <- Hp. apply list_elem_of_fmap_2, Hu. }
  rewrite filter_cons. simpl. rewrite N.eqb_refl. reflexivity.
Qed.



Lemma GetUserAuthInfoByID_elem userID f db userData :
  snd (run (GetUserAuthInfoByID userID) f db) = Ok userData ->
  userData ∈ users db /\ ID userData = userID.
Proof.
  intros H. destruct (run_cases (GetUserAuthInfoByID userID) f db)
    as [(e & He)|(u & db' & f' & Hok & Hrun)].
  - rewrite He in H. discriminate.
  - rewrite Hrun in H. simpl in H. injection H as ->.
    unfold GetUserAuthInfoByID in Hok. apply bind_ok in Hok.
    destruct Hok as (rows & d & f1 & Hq & Hk). apply Query_ok in Hq.
    destruct Hq as [-> ->].
    destruct (select_user_by_id userID db) as [|[login password] l] eqn:E.
    + apply throw_not_ok in Hk. contradiction.
    + unfold ret in Hk. injection Hk as _ <- _.
      assert ((login, password) ∈ select_user_by_id userID db) as Hin
        by (rewrite E; apply elem_of_cons; left; reflexivity).
      unfold select_user_by_id in Hin. apply list_elem_of_fmap in Hin.
      destruct Hin as (u & Hu & Hin). apply list_elem_of_filter in Hin.
      destruct Hin as [Hp Hin]. apply Is_true_eq_true, N.eqb_eq in Hp.
      injection Hu as -> ->. subst userID. destruct u. split; [exact Hin|].
      reflexivity.
Qed.



End accounts.

(** ** Listings *)

Section listings.
Import storage.

Lemma run_GetOrders userID db :
  run (GetOrders userID) no_fault db
  = (db, Ok (filter (fun o => N.eqb (UserID o) userID) (orders db))).
Proof.
  unfold run, GetOrders, bind, Query, bind, roundtrip, ret, no_fault,
    select_orders_of. f_equal. f_equal.
  rewrite <- list_fmap_compose.
  rewrite <- (list_fmap_id (filter _ (orders db))) at 2.
  apply list_fmap_ext. intros i o Ho. simpl.
  apply list_elem_of_lookup_2, list_elem_of_filter in Ho.
  destruct Ho as [Hp _]. apply Is_true_eq_true, N.eqb_eq in Hp.
  subst userID. destruct o. reflexivity.
Qed.

Lemma run_apiGetUserOrders userID db :
  app.apiGetUserOrders userID no_fault db
  = (app.StatusOK, Some (listed_orders userID db)).
Proof.
  unfold app.apiGetUserOrders. rewrite run_GetOrders. reflexivity.
Qed.



Lemma run_apiGetUserWithdrawals userID db :
  app.apiGetUserWithdrawals userID no_fault db
  = match receipts userID db with
    | [] => (app.StatusNoContent, None)
    | _ :: _ => (app.StatusOK, Some (receipts userID db))
    end.
Proof.
  unfold app.apiGetUserWithdrawals, run, GetWithdrawals, bind, Query, bind,
    roundtrip, ret, no_fault, select_withdrawals, receipts.
  destruct (filter _ (withdrawal db)) as [|w ws]; [reflexivity|]. simpl.
  f_equal. f_equal. f_equal.
  rewrite <- !list_fmap_compose. apply list_fmap_ext. intros i x _.
  reflexivity.
Qed.

Lemma Withdraw_ok_store user number sum f db db' :
  run (Withdraw user number sum) f db = (db', Ok tt) ->
  0 <= Current (balance_of db user) - sum
  /\ 0 <= sum
  /\ withdrawal db' = (withdrawal db ++ [mkWithdrawal number user sum])%list
  /\ update_balance (debit sum) user
       (set_withdrawal db (withdrawal db ++ [mkWithdrawal number user sum]))
     = Ok db'.
Proof.
  intros Hrun. destruct (run_cases (Withdraw user number sum) f db)
    as [(e & He)|(u & d & f' & Hok & Hrun')]; [congruence|].
  rewrite Hrun' in Hrun. injection Hrun as ->.
  apply Withdraw_ok in Hok. destruct Hok as (Hge & db1 & H1 & H2).
  apply insert_withdrawal_ok in H1. destruct H1 as (-> & Hs & _).
  split; [exact Hge|]. split; [exact Hs|]. split; [|exact H2].
  apply update_balance_ok in H2. destruct H2 as [-> _]. reflexivity.
Qed.



End listings.

(** ** Funds *)

Section funds_facts.
Import storage.

Lemma foldr_add_app (l1 l2 : list Z) :
  foldr Z.add 0 (l1 ++ l2) = foldr Z.add 0 l1 + foldr Z.add 0 l2.
Proof. induction l1 as [|x l1 IH]; simpl; lia. Qed.

Lemma receipts_total_snoc user db db' w :
  withdrawal db' = (withdrawal db ++ [w])%list ->
  receipts_total user db'
  = receipts_total user db + (if N.eqb (WUserID w) user then Sum w else 0).
Proof.
  intros Hw. unfold receipts_total, receipts. rewrite Hw.
  rewrite filter_app, !fmap_app, foldr_add_app, filter_cons. simpl.
  destruct (N.eqb (WUserID w) user); simpl; lia.
Qed.

Lemma receipts_same db db' :
  balance db' = balance db -> withdrawal db' = withdrawal db ->
  keeps_receipts db db'.
Proof.
  intros Hb Hw H user. specialize (H user).
  unfold receipts_total, receipts, balance_of, select_balance in *.
  rewrite Hb, Hw. exact H.
Qed.

Lemma receipts_add_user id login password db db1 db' :
  insert_user id login password db = Ok db1 ->
  insert_balance id db1 = Ok db' -> keeps_receipts db db'.
Proof.
  intros H1 H2 H user. specialize (H user).
  apply insert_user_ok in H1. destruct H1 as [-> _].
  apply insert_balance_ok in H2. destruct H2 as [-> _].
  unfold receipts_total, receipts in *. simpl. rewrite <- H.
  rewrite !balance_of_first_row. simpl. rewrite first_row_app.
  destruct (first_row user (balance db)) as [b|]; [reflexivity|].
  unfold first_row. rewrite filter_cons. simpl.
  destruct (decide (Is_true (N.eqb id user))); reflexivity.
Qed.

Lemma receipts_add_order user number db db' :
  insert_order user number db = Ok db' -> keeps_receipts db db'.
Proof.
  intros H. apply insert_order_ok in H. destruct H as [-> _].
  apply receipts_same; reflexivity.
Qed.

Lemma receipts_update_order status accrual number db db' :
  update_order status accrual number db = Ok db' -> keeps_receipts db db'.
Proof.
  unfold update_order. intros H. injection H as <-.
  apply receipts_same; reflexivity.
Qed.

Lemma receipts_credit amount user db db' :
  update_balance (credit amount) user db = Ok db' -> keeps_receipts db db'.
Proof.
  intros H Hm u. specialize (Hm u).
  rewrite (balance_of_update _ _ _ _ u (user_id_credit amount) H).
  apply update_balance_ok in H. destruct H as [-> _].
  unfold receipts_total, receipts in *. simpl. rewrite <- Hm.
  rewrite balance_of_first_row.
  destruct (first_row u (balance db)) as [b|]; [|reflexivity].
  destruct (N.eqb u user); reflexivity.
Qed.

Lemma receipts_withdraw number user sum db db1 db' :
  0 <= Current (balance_of db user) - sum ->
  insert_withdrawal number user sum db = Ok db1 ->
  update_balance (debit sum) user db1 = Ok db' -> keeps_receipts db db'.
Proof.
  intros Hge H1 H2 Hm u. specialize (Hm u).
  apply insert_withdrawal_ok in H1. destruct H1 as (-> & Hs & _).
  rewrite (balance_of_update _ _ _ _ u (user_id_debit sum) H2).
  apply update_balance_ok in H2. destruct H2 as [-> _].
  rewrite (receipts_total_snoc u db _ (mkWithdrawal number user sum))
    by reflexivity.
  simpl. rewrite <- Hm. rewrite balance_of_first_row in *.
  rewrite (N.eqb_sym user u).
  destruct (N.eqb_spec u user) as [->|Hne].
  - destruct (first_row user (balance db)) as [b|]; simpl in *; lia.
  - destruct (first_row u (balance db)) as [b|]; simpl; lia.
Qed.




Lemma rewrite_none (f : balance_row -> balance_row) user (rows : list balance_row) :
  first_row user rows = None ->
  (fun b => if N.eqb (user_id b) user then f b else b) <$> rows = rows.
Proof.
  intros Hnone. rewrite <- (list_fmap_id rows) at 2.
  apply list_fmap_ext. intros i b Hb. simpl.
  destruct (N.eqb_spec (user_id b) user) as [Hu|_]; [|reflexivity].
  exfalso. unfold first_row in Hnone. apply head_None in Hnone.
  eapply (filter_nil_not_elem_of _ _ b Hnone).
  - apply Is_true_eq_left, N.eqb_eq, Hu.
  - eapply list_elem_of_lookup_2, Hb.
Qed.

Lemma run_AddBalance_no_fault user amount db :
  run (AddBalance user amount) no_fault db =
  match update_balance (credit amount) user db with
  | Ok db' => (db', Ok tt)
  | Err e => (db, Err e)
  end.
Proof.
  unfold run, AddBalance, bind, Exec, Begin, Commit, bind, roundtrip, no_fault.
  destruct (update_balance (credit amount) user db); reflexivity.
Qed.


Lemma consistent_credited_store : consistent demo.credited_store.
Proof.
  constructor; try (apply (bool_decide_unpack _); vm_compute; reflexivity).
  all: try (split; repeat constructor; simpl; lia).
  all: repeat constructor.
Qed.


(** X12: [UpdateOrder] never adds a row and never changes the owner or the
    number of a row, under any fault (the [UserID] of its argument is not
    used); for a number no order has it returns no error and changes
    nothing. *)
Theorem UpdateOrder_keeps_the_owners o f db :
  owners (fst (run (UpdateOrder o) f db)) = owners db
  /\ same_ledger db (fst (run (UpdateOrder o) f db))
  /\ (OrderNumber o ∉ (OrderNumber <$> orders db) ->
      run (UpdateOrder o) no_fault db = (db, Ok tt)).
Proof.
  rewrite run_UpdateOrder. split; [|split].
  - destruct (answers f 3); [|reflexivity]. unfold owners. simpl.
    apply owners_update.
  - destruct (answers f 3); repeat split.
  - intros Hmissing. rewrite run_UpdateOrder. simpl.
    assert (update_order_row (Status o) (Accrual o) (OrderNumber o)
              <$> orders db = orders db) as ->.
    { rewrite <- (list_fmap_id (orders db)) at 2.
      apply list_fmap_ext. intros i r Hr. simpl. unfold update_order_row.
      destruct (String.eqb_spec (OrderNumber r) (OrderNumber o)) as [He|_];
        [|reflexivity].
      exfalso. apply Hmissing. rewrite <- He.
      eapply list_elem_of_fmap_2, list_elem_of_lookup_2, Hr. }
    destruct db; reflexivity.
Qed.

End funds_facts.

(** ** The ledger updater when the database answers *)

Section credits.
Import storage.

Lemma update_orders_loop_no_fault os : forall m db,
  update_orders_loop m os db None
  = (None, Ok (fold_left add_total os m,
               set_orders db (writes os (orders db)))).
Proof.
  induction os as [|o os IH]; intros m db; simpl.
  - unfold ret. destruct db; reflexivity.
  - unfold bind, Exec, bind, roundtrip, update_order. simpl.
    rewrite IH. reflexivity.
Qed.

Lemma total_nonneg batch user :
  Forall (fun o => 0 <= Accrual o) batch -> 0 <= total batch user.
Proof.
  induction 1 as [|o batch Ho _ IH]; simpl; [lia|].
  destruct (N.eqb (UserID o) user); lia.
Qed.

Lemma credits_no_fault (l : list (N * Z)) : forall db,
  (forall id amount, (id, amount) ∈ l -> 0 <= amount) ->
  Forall (fun b => 0 <= current b /\ 0 <= withdrawn b) (balance db) ->
  exists db',
    for_each (fun '(id, amount) => Exec (update_balance (credit amount) id))
      l db None = (None, Ok (tt, db')).
Proof.
  induction l as [|[id amount] l IH]; intros db Hpos Hok; simpl.
  - exists db. reflexivity.
  - assert (0 <= amount) as Ha
      by (apply (Hpos id); apply elem_of_cons; left; reflexivity).
    destruct (update_balance (credit amount) id db) as [db1|e] eqn:Eu.
    + destruct (IH db1) as (db' & Hrest).
      * intros i a Hin. apply (Hpos i). apply elem_of_cons. right. exact Hin.
      * eapply update_balance_checks; eassumption.
      * exists db'. unfold bind, Exec, bind, roundtrip. rewrite Eu.
        exact Hrest.
    + exfalso. unfold update_balance in Eu.
      rewrite forallb_intro in Eu; [discriminate|].
      intros b Hb. destruct (N.eqb (user_id b) id); [|reflexivity]. simpl.
      rewrite Forall_forall in Hok. destruct (Hok b Hb) as [Hc Hw].
      unfold balance_check, credit. simpl.
      apply andb_true_iff. split; apply Z.leb_le; lia.
Qed.

Lemma run_UpdateBalanceFromOrders_no_fault batch db :
  checks_ok db ->
  Forall (fun o => 0 <= Accrual o) batch ->
  run (UpdateBalanceFromOrders batch) no_fault db = (applied batch db, Ok tt).
Proof.
  intros [Hok _] Hpos.
  destruct (UpdateBalanceFromOrders_run batch no_fault db)
    as [(e & He)|Hrun]; [|exact Hrun].
  exfalso. destruct batch as [|o batch].
  - discriminate He.
  - unfold run, UpdateBalanceFromOrders, no_fault, Begin, Commit in He.
    unfold bind at 1 in He. simpl roundtrip in He. cbv iota beta in He.
    unfold bind at 1 in He. rewrite update_orders_loop_no_fault in He.
    cbv iota beta in He.
    destruct (credits_no_fault
                (map_to_list (fold_left add_total (o :: batch) ∅))
                (set_orders db (writes (o :: batch) (orders db))))
      as (db' & Hc).
    + intros id amount Hin. apply elem_of_map_to_list in Hin.
      assert (default 0 (Some amount) = 0 + total (o :: batch) id) as Ht
        by (rewrite <- Hin; rewrite (totals_lookup (o :: batch) ∅ id);
            rewrite lookup_empty; reflexivity).
      simpl default in Ht.
      rewrite Ht. pose proof (total_nonneg (o :: batch) id Hpos). lia.
    + exact Hok.
    + unfold bind in He. cbv beta in He. unfold UUID in He, Hc.
      rewrite Hc in He.
      simpl in He. discriminate.
Qed.



End credits.

(** ** Ticks the database answers *)

Lemma DB_ext (d d' : storage.DB) :
  storage.users d = storage.users d' ->
  storage.orders d = storage.orders d' ->
  storage.balance d = storage.balance d' ->
  storage.withdrawal d = storage.withdrawal d' ->
  d = d'.
Proof. destruct d, d'; simpl; intros; subst; reflexivity. Qed.

Section settle.
Import storage.

Variable svc : accrual.service.

Lemma loop_quiet tf work :
  (forall i, answers (accrual.f_order tf i) 3 = true) ->
  forall i st, accrual.l_log (accrual.loop tf i work st) = accrual.l_log st.
Proof.
  intros Hall. induction work as [|[o [info|]] work IH]; intros i st; simpl.
  - reflexivity.
  - rewrite IH, run_UpdateOrder, Hall. reflexivity.
  - apply IH.
Qed.

Lemma loop_down tf work :
  (forall o info, (o, info) ∈ work -> info = None) ->
  forall i st, accrual.loop tf i work st = st.
Proof.
  induction work as [|[o info] work IH]; intros Hdown i st; simpl.
  - reflexivity.
  - rewrite (Hdown o info) by (apply elem_of_cons; left; reflexivity).
    simpl. apply IH. intros o' info' Hin. apply (Hdown o').
    apply elem_of_cons. right. exact Hin.
Qed.

Lemma translate_processed o info :
  String.eqb (accrual.Status info) StatusProcessed = true ->
  accrual.translate o info
  = mkOrder (UserID o) (OrderNumber o) StatusProcessed (accrual.Accrual info).
Proof.
  intros H. apply String.eqb_eq in H. unfold accrual.translate.
  rewrite H. reflexivity.
Qed.

Lemma translate_twice o info :
  accrual.translate (accrual.translate o info) info = accrual.translate o info.
Proof.
  unfold accrual.translate.
  repeat match goal with |- context [if ?c then _ else _] => destruct c end;
    reflexivity.
Qed.

Lemma batch_nonneg db work :
  never_negative svc -> from_store svc db work ->
  Forall (fun o => 0 <= Accrual o) (batch_of work).
Proof.
  intros Hpos. induction work as [|[o [info|]] work IH]; intros Hfrom; simpl.
  - constructor.
  - destruct (Hfrom o (Some info)) as (_ & _ & Hinfo);
      [apply elem_of_cons; left; reflexivity|].
    apply from_store_cons in Hfrom.
    destruct (String.eqb (accrual.Status info) StatusProcessed) eqn:E;
      [|apply IH, Hfrom].
    constructor; [|apply IH, Hfrom].
    rewrite (translate_processed _ _ E). simpl.
    eapply Hpos. symmetry. exact Hinfo.
  - apply IH. eapply from_store_cons, Hfrom.
Qed.

Lemma batch_of_nil work :
  (forall o info, (o, Some info) ∈ work ->
     String.eqb (accrual.Status info) StatusProcessed = false) ->
  batch_of work = [].
Proof.
  induction work as [|[o [info|]] work IH]; intros H; simpl.
  - reflexivity.
  - rewrite (H o info) by (apply elem_of_cons; left; reflexivity).
    apply IH. intros o' info' Hin. apply (H o'). apply elem_of_cons.
    right. exact Hin.
  - apply IH. intros o' info' Hin. apply (H o'). apply elem_of_cons.
    right. exact Hin.
Qed.

Lemma credited_nil rows : credited [] rows = rows.
Proof.
  unfold credited. rewrite <- (list_fmap_id rows) at 2. apply list_fmap_ext.
  intros i [u c w] _. unfold credit. simpl. rewrite Z.add_0_r. reflexivity.
Qed.

(** The status writes of [UpdateBalanceFromOrders] for the batch of a
    tick reconcile the orders of the batch. *)
Lemma writes_exact db work :
  numbers_unique db -> from_store svc db work ->
  forall W,
    writes (batch_of work) (reconciled svc W <$> orders db)
    = reconciled svc ((OrderNumber <$> batch_of work) ++ W)%list <$> orders db.
Proof.
  intros Hu. induction work as [|[o [info|]] work IH]; intros Hfrom W; simpl.
  - reflexivity.
  - destruct (Hfrom o (Some info)) as (Ho & _ & Hinfo);
      [apply elem_of_cons; left; reflexivity|].
    apply from_store_cons in Hfrom.
    destruct (String.eqb (accrual.Status info) StatusProcessed);
      [|apply IH, Hfrom].
    unfold writes. simpl. fold (writes (batch_of work)).
    rewrite (write_reconciled svc db Hu)
      by (try assumption; symmetry; assumption).
    rewrite (IH Hfrom). apply list_fmap_ext. intros i r _.
    apply reconciled_ext.
    rewrite translate_number, !elem_of_cons, !elem_of_app, elem_of_cons.
    tauto.
  - apply IH. eapply from_store_cons, Hfrom.
Qed.

(** The store of a tick that could read the unfinished orders is the one
    [UpdateBalanceFromOrders] leaves after the per-order writes. *)
Lemma update_after_writes tf db :
  numbers_unique db ->
  answers (accrual.f_list tf) 1 = true ->
  fst (accrual.update svc tf db)
  = fst (run (UpdateBalanceFromOrders (batch_for svc db)) (accrual.f_credit tf)
           (set_orders db
              (reconciled svc
                 (written_by tf 0 (lookups svc (select_unfinished db)) [])
               <$> orders db))).
Proof.
  intros Hu Hl. rewrite update_fst, Hl. cbv zeta.
  destruct (loop_result svc db Hu tf (lookups svc (select_unfinished db)) 0 []
              (accrual.mkLoop db [] [])) as [Hdb Hbatch].
  - apply lookups_from_store.
  - cbn [accrual.l_db]. rewrite reconciled_nil. destruct db; reflexivity.
  - rewrite Hdb, Hbatch. reflexivity.
Qed.

Lemma reconciled_settled db W r :
  numbers_unique db -> r ∈ orders db ->
  (forall n, n ∈ W ->
     exists o info, o ∈ orders db /\ is_unfinished o = true
       /\ OrderNumber o = n /\ accrual.getOrderStatus svc n = Some info) ->
  (forall o info, o ∈ orders db -> is_unfinished o = true ->
     accrual.getOrderStatus svc (OrderNumber o) = Some info ->
     OrderNumber o ∈ W) ->
  reconciled svc W r = settled svc r.
Proof.
  intros Hu Hr Hsound Hcomplete. unfold reconciled, settled.
  destruct (existsb _ W) eqn:E.
  - apply existsb_eqb_spec in E.
    destruct (Hsound _ E) as (o & info & Ho & Hun & Hn & _).
    assert (o = r) as -> by (eapply unique_number_row; eassumption).
    rewrite Hun. reflexivity.
  - destruct (is_unfinished r) eqn:Ef; [|reflexivity].
    destruct (accrual.getOrderStatus svc (OrderNumber r)) as [info|] eqn:Ei;
      [|reflexivity].
    apply (Hcomplete r info Hr Ef) in Ei. apply existsb_eqb_spec in Ei.
    congruence.
Qed.

Lemma numbers_settled (rows : list Order) :
  OrderNumber <$> (settled svc <$> rows) = OrderNumber <$> rows.
Proof.
  rewrite <- list_fmap_compose. apply list_fmap_ext. intros i r _. simpl.
  unfold settled. destruct (is_unfinished r); [|reflexivity].
  destruct (accrual.getOrderStatus svc (OrderNumber r));
    [apply translate_number | reflexivity].
Qed.

(** The orders a tick leaves when the database answers the per-order
    writes, whatever happens to the credit. *)
Lemma settled_orders tf db :
  numbers_unique db -> writes_answered tf ->
  orders (fst (accrual.update svc tf db)) = settled svc <$> orders db.
Proof.
  intros Hu [Hl Ho].
  destruct (update_result svc db Hu tf)
    as (W & _ & _ & Hord & Hsound & Hcomplete & _).
  rewrite Hord. apply list_fmap_ext. intros i r Hr.
  apply list_elem_of_lookup_2 in Hr.
  apply (reconciled_settled db);
    [exact Hu | exact Hr | exact Hsound | exact (Hcomplete Hl Ho)].
Qed.


(** X15: once a tick whose per-order writes were answered is over, a
    further tick with the same answers of the accrual service changes
    nothing in the store, whatever faults it meets and whether the credit
    of the first tick went through or not: no accrual is credited a second
    time, and a credit that was lost is not made up for. *)
Theorem second_tick_changes_nothing tf tf' db :
  numbers_unique db -> writes_answered tf ->
  fst (accrual.update svc tf' (fst (accrual.update svc tf db)))
  = fst (accrual.update svc tf db).
Proof.
  intros Hu Hans.
  pose proof (settled_orders tf db Hu Hans) as Hord.
  remember (fst (accrual.update svc tf db)) as db1 eqn:E1. clear E1.
  assert (numbers_unique db1) as Hu1.
  { unfold numbers_unique in *. rewrite Hord, numbers_settled. exact Hu. }
  assert (forall r1 info, r1 ∈ orders db1 -> is_unfinished r1 = true ->
            accrual.getOrderStatus svc (OrderNumber r1) = Some info ->
            accrual.translate r1 info = r1
            /\ String.eqb (accrual.Status info) StatusProcessed = false)
    as Hrow.
  { intros r1 info Hr1 Hun Hi. rewrite Hord in Hr1.
    apply list_elem_of_fmap in Hr1. destruct Hr1 as (r & -> & Hr).
    unfold settled in *. destruct (is_unfinished r) eqn:Er; [|congruence].
    destruct (accrual.getOrderStatus svc (OrderNumber r)) as [info0|] eqn:E0;
      [|congruence].
    rewrite translate_number, E0 in Hi. injection Hi as ->.
    split; [apply translate_twice|].
    destruct (String.eqb (accrual.Status info) StatusProcessed) eqn:Ep;
      [|reflexivity].
    rewrite (translate_processed _ _ Ep) in Hun. discriminate Hun. }
  destruct (update_result svc db1 Hu1 tf')
    as (W & Husers & Hwd & Hord2 & Hsound & _ & Hbal).
  apply DB_ext.
  - exact Husers.
  - rewrite Hord2. rewrite <- (list_fmap_id (orders db1)) at 2.
    apply list_fmap_ext. intros i r Hr. apply list_elem_of_lookup_2 in Hr.
    destruct (reconciled_cases svc db1 W r Hu1 Hr Hsound)
      as [H|(info & Hun & Hi & ->)]; [exact H|].
    apply (Hrow r info Hr Hun Hi).
  - destruct Hbal as [->| ->]; [reflexivity|].
    rewrite batch_of_nil; [apply credited_nil|].
    intros o info Hin.
    destruct (lookups_from_store svc db1 o (Some info) Hin) as (Ho & Hun & Hi).
    apply (Hrow o info Ho Hun). symmetry. exact Hi.
  - exact Hwd.
Qed.

(** X16: when the lookup of every unfinished order fails (the service
    cannot be reached, answers with a code other than 200 or sends a body
    that is no order) the tick changes nothing and logs nothing, whatever
    the state of the database connection: no order is written and
    [UpdateBalanceFromOrders] returns on its empty batch before any round
    trip. *)
Theorem failed_lookups_change_nothing tf db :
  (forall o, o ∈ select_unfinished db ->
     accrual.getOrderStatus svc (OrderNumber o) = None) ->
  accrual.update svc tf db = (db, []).
Proof.
  intros Hdown. rewrite update_unfold.
  destruct (answers (accrual.f_list tf) 1); [|reflexivity].
  destruct (select_unfinished db) as [|o0 os] eqn:E; [reflexivity|].
  unfold before_credit. rewrite E, loop_down; [reflexivity|].
  intros o info Hin. unfold lookups in Hin. apply list_elem_of_fmap in Hin.
  destruct Hin as (o' & Heq & Hin). injection Heq as -> ->.
  apply Hdown. exact Hin.
Qed.

(** X17: an order whose lookup fails keeps its row through the tick,
    under any faults and whatever the tick does to the other orders. *)
Theorem failed_lookup_leaves_the_order tf db i r :
  numbers_unique db ->
  orders db !! i = Some r ->
  accrual.getOrderStatus svc (OrderNumber r) = None ->
  orders (fst (accrual.update svc tf db)) !! i = Some r.
Proof.
  intros Hu Hr Hnone.
  destruct (update_result svc db Hu tf) as (W & _ & _ & Hord & _).
  rewrite Hord, list_lookup_fmap, Hr. simpl. f_equal.
  unfold reconciled. rewrite Hnone. destruct (existsb _ W); reflexivity.
Qed.

End settle.

Section settle_examples.
Import storage.


(** After the tick that processed the first order of alice a tick whose
    every storage call can fail finds nothing to do. *)
Lemma second_tick_changes_nothing_uploaded_two :
  numbers_unique demo.uploaded_two
  /\ writes_answered accrual.no_faults
  /\ fst (accrual.update one_processed demo.credit_fails
            (fst (accrual.update one_processed accrual.no_faults
                    demo.uploaded_two)))
     = fst (accrual.update one_processed accrual.no_faults demo.uploaded_two).
Proof.
  assert (numbers_unique demo.uploaded_two) as Hu.
  { apply (bool_decide_unpack _). vm_compute. reflexivity. }
  assert (writes_answered accrual.no_faults) as Hans
    by (split; [reflexivity | intros i; reflexivity]).
  split; [exact Hu|]. split; [exact Hans|].
  exact (second_tick_changes_nothing one_processed accrual.no_faults demo.credit_fails
           demo.uploaded_two Hu Hans).
Defined.

(** Two new orders and no accrual service. *)
Lemma failed_lookups_change_nothing_unreachable :
  (forall o, o ∈ select_unfinished demo.uploaded_two ->
     accrual.getOrderStatus unreachable (OrderNumber o) = None)
  /\ accrual.update unreachable demo.credit_fails demo.uploaded_two
     = (demo.uploaded_two, []).
Proof.
  assert (forall o, o ∈ select_unfinished demo.uploaded_two ->
            accrual.getOrderStatus unreachable (OrderNumber o) = None) as H
    by (intros o _; reflexivity).
  split; [exact H|].
  exact (failed_lookups_change_nothing unreachable demo.credit_fails
           demo.uploaded_two H).
Defined.

(** The service answers 500 for the second order of alice. *)
Lemma failed_lookup_leaves_the_order_second :
  numbers_unique demo.uploaded_two
  /\ accrual.getOrderStatus one_processed "79927398713" = None
  /\ orders (fst (accrual.update one_processed accrual.no_faults
                    demo.uploaded_two)) !! 1%nat
     = Some (mkOrder demo.alice "79927398713" "NEW" 0).
Proof.
  assert (numbers_unique demo.uploaded_two) as Hu.
  { apply (bool_decide_unpack _). vm_compute. reflexivity. }
  split; [exact Hu|]. split; [reflexivity|].
  apply (failed_lookup_leaves_the_order one_processed accrual.no_faults
           demo.uploaded_two 1 _ Hu); reflexivity.
Defined.

End settle_examples.

(** ** Credits and earnings *)

Section earnings.
Import storage.

Variable user : UUID.

Lemma earned_by_app l1 l2 :
  earned_by user (l1 ++ l2) = earned_by user l1 + earned_by user l2.
Proof.
  unfold earned_by. induction l1 as [|r l1 IH]; simpl; [reflexivity|].
  rewrite IH. lia.
Qed.

Lemma unfinished_earns_nothing r :
  is_unfinished r = true -> earning user r = 0.
Proof.
  unfold is_unfinished, earning. intros H. apply orb_true_iff in H.
  destruct H as [H|H]; apply String.eqb_eq in H; rewrite H;
    destruct (N.eqb (UserID r) user); reflexivity.
Qed.

Lemma earning_translate r info :
  0 <= accrual.Accrual info -> is_unfinished r = true ->
  0 <= earning user (accrual.translate r info).
Proof.
  intros Hpos Hun. pose proof (unfinished_earns_nothing r Hun) as H0.
  unfold accrual.translate.
  repeat match goal with |- context [if ?c then _ else _] => destruct c end;
    try lia;
    unfold earning; simpl; destruct (N.eqb (UserID r) user); simpl; lia.
Qed.

Lemma earned_by_le (h : Order -> Order) rows :
  (forall r, r ∈ rows -> earning user r <= earning user (h r)) ->
  earned_by user rows <= earned_by user (h <$> rows).
Proof.
  unfold earned_by. induction rows as [|a rows IH]; intros H; [simpl; lia|].
  rewrite fmap_cons. cbn [foldr].
  pose proof (H a (list_elem_of_here _ _)).
  assert (forall r, r ∈ rows -> earning user r <= earning user (h r)) as H'
    by (intros r Hr; apply H, elem_of_cons; right; exact Hr).
  apply IH in H'. lia.
Qed.

Lemma earned_by_gain (g : Order -> Z) (h : Order -> Order) rows :
  (forall r, r ∈ rows -> earning user r + g r <= earning user (h r)) ->
  earned_by user rows + foldr (fun r acc => g r + acc) 0 rows
  <= earned_by user (h <$> rows).
Proof.
  unfold earned_by. induction rows as [|a rows IH]; intros H; [simpl; lia|].
  rewrite fmap_cons. cbn [foldr].
  pose proof (H a (list_elem_of_here _ _)).
  assert (forall r, r ∈ rows -> earning user r + g r <= earning user (h r))
    as H' by (intros r Hr; apply H, elem_of_cons; right; exact Hr).
  apply IH in H'. lia.
Qed.

Section one_tick.

Variable svc : accrual.service.
Hypothesis Hpos : never_negative svc.

Lemma total_batch rows :
  total (batch_of (lookups svc (filter is_unfinished rows))) user
  = foldr (fun r acc => gain svc user r + acc) 0 rows.
Proof.
  induction rows as [|a rows IH]; [reflexivity|].
  rewrite filter_cons. cbn [foldr]. rewrite <- IH. unfold gain.
  destruct (decide (Is_true (is_unfinished a))) as [H|H].
  - apply Is_true_eq_true in H. rewrite H. unfold lookups.
    rewrite fmap_cons. cbn [batch_of].
    destruct (accrual.getOrderStatus svc (OrderNumber a)) as [info|];
      [|reflexivity].
    destruct (String.eqb (accrual.Status info) StatusProcessed) eqn:E;
      [|reflexivity].
    cbn [total]. rewrite (translate_processed a info E). reflexivity.
  - destruct (is_unfinished a); [exfalso; apply H; exact I|]. reflexivity.
Qed.

Lemma batch_numbers work n :
  n ∈ (OrderNumber <$> batch_of work) <->
  exists o info, (o, Some info) ∈ work
    /\ String.eqb (accrual.Status info) StatusProcessed = true
    /\ OrderNumber o = n.
Proof.
  induction work as [|[o [info|]] work IH]; simpl.
  - split; [intros H; inversion H|]. intros (o & info & H & _). inversion H.
  - destruct (String.eqb (accrual.Status info) StatusProcessed) eqn:E.
    + rewrite fmap_cons, elem_of_cons, IH, translate_number. split.
      * intros [->|(o' & info' & Hin & Hp & Hn)].
        -- exists o, info. split; [apply elem_of_cons; left; reflexivity|].
           split; [exact E | reflexivity].
        -- exists o', info'. split; [apply elem_of_cons; right; exact Hin|].
           split; assumption.
      * intros (o' & info' & Hin & Hp & Hn). apply elem_of_cons in Hin.
        destruct Hin as [Heq|Hin].
        -- injection Heq as -> ->. left. symmetry. exact Hn.
        -- right. exists o', info'. repeat split; assumption.
    + rewrite IH. split.
      * intros (o' & info' & Hin & Hp & Hn). exists o', info'.
        split; [apply elem_of_cons; right; exact Hin|]. split; assumption.
      * intros (o' & info' & Hin & Hp & Hn). apply elem_of_cons in Hin.
        destruct Hin as [Heq|Hin].
        -- injection Heq as -> ->. congruence.
        -- exists o', info'. repeat split; assumption.
  - rewrite IH. split.
    + intros (o' & info' & Hin & Hp & Hn). exists o', info'.
      split; [apply elem_of_cons; right; exact Hin|]. split; assumption.
    + intros (o' & info' & Hin & Hp & Hn). apply elem_of_cons in Hin.
      destruct Hin as [Heq|Hin]; [discriminate|].
      exists o', info'. repeat split; assumption.
Qed.

Variable db : DB.
Hypothesis Hunique : numbers_unique db.

Lemma earning_reconciled W r :
  r ∈ orders db ->
  (forall n, n ∈ W ->
     exists o info, o ∈ orders db /\ is_unfinished o = true
       /\ OrderNumber o = n /\ accrual.getOrderStatus svc n = Some info) ->
  earning user r <= earning user (reconciled svc W r).
Proof.
  intros Hr Hsound.
  destruct (reconciled_cases svc db W r Hunique Hr Hsound)
    as [->|(info & Hun & Hi & ->)]; [lia|].
  rewrite (unfinished_earns_nothing r Hun).
  apply earning_translate; [eapply Hpos, Hi | exact Hun].
Qed.

Lemma earning_gain W r :
  r ∈ orders db ->
  (forall n, n ∈ W ->
     exists o info, o ∈ orders db /\ is_unfinished o = true
       /\ OrderNumber o = n /\ accrual.getOrderStatus svc n = Some info) ->
  (forall o info, o ∈ orders db -> is_unfinished o = true ->
     accrual.getOrderStatus svc (OrderNumber o) = Some info ->
     String.eqb (accrual.Status info) StatusProcessed = true ->
     OrderNumber o ∈ W) ->
  earning user r + gain svc user r <= earning user (reconciled svc W r).
Proof.
  intros Hr Hsound Hcover.
  pose proof (earning_reconciled W r Hr Hsound) as Hle. unfold gain.
  destruct (is_unfinished r) eqn:Hun; [|lia].
  destruct (accrual.getOrderStatus svc (OrderNumber r)) as [info|] eqn:Hi;
    [|lia].
  destruct (String.eqb (accrual.Status info) StatusProcessed) eqn:Ep; [|lia].
  pose proof (Hcover r info Hr Hun Hi Ep) as Hin.
  apply existsb_eqb_spec in Hin. unfold reconciled. rewrite Hin, Hi.
  rewrite (translate_processed r info Ep), (unfinished_earns_nothing r Hun).
  unfold earning. simpl. destruct (N.eqb (UserID r) user); simpl; lia.
Qed.

Lemma funds_credited batch d :
  Forall (fun o => 0 <= Accrual o) batch ->
  balance d = credited batch (balance db) ->
  funds d user <= funds db user + total batch user.
Proof.
  intros Hb Hd. pose proof (total_nonneg batch user Hb) as Ht.
  unfold funds. rewrite !balance_of_first_row, Hd. unfold credited.
  rewrite first_row_fmap by (intros b; apply user_id_credit).
  destruct (first_row user (balance db)) as [b|] eqn:E; simpl; [|lia].
  apply first_row_elem in E. destruct E as [_ Hu]. rewrite Hu. lia.
Qed.

(** A tick never credits more than it marks as processed. *)
Lemma uncredited_update tf :
  uncredited db user <= uncredited (fst (accrual.update svc tf db)) user.
Proof.
  destruct (answers (accrual.f_list tf) 1) eqn:El.
  2:{ rewrite update_fst, El. lia. }
  rewrite (update_after_writes svc tf db Hunique El).
  pose proof (lookups_from_store svc db) as Hfrom.
  set (work := lookups svc (select_unfinished db)) in *.
  set (W1 := written_by tf 0 work []).
  assert (forall n, n ∈ W1 ->
            exists o info, o ∈ orders db /\ is_unfinished o = true
              /\ OrderNumber o = n
              /\ accrual.getOrderStatus svc n = Some info) as Hsound1.
  { intros n Hn. apply written_by_sound in Hn. destruct Hn as [Hn|Hn].
    - inversion Hn.
    - eapply work_sound; eassumption. }
  destruct (UpdateBalanceFromOrders_run (batch_for svc db)
              (accrual.f_credit tf)
              (set_orders db (reconciled svc W1 <$> orders db)))
    as [(e & ->)| ->]; cbn [fst]; unfold uncredited.
  - assert (funds (set_orders db (reconciled svc W1 <$> orders db)) user
            = funds db user) as -> by reflexivity.
    unfold earned. cbn [orders set_orders].
    pose proof (earned_by_le (reconciled svc W1) (orders db)
                  (fun r Hr => earning_reconciled W1 r Hr Hsound1)). lia.
  - pose proof (batch_nonneg svc db work Hpos Hfrom) as Hb.
    pose proof (funds_credited (batch_for svc db)
                  (applied (batch_for svc db)
                     (set_orders db (reconciled svc W1 <$> orders db)))
                  Hb eq_refl) as Hf.
    unfold earned, applied at 1. cbn [orders set_orders].
    unfold batch_for at 1. fold work.
    rewrite (writes_exact svc db work Hunique Hfrom W1).
    unfold batch_for in Hf at 2. unfold select_unfinished in Hf.
    rewrite total_batch in Hf.
    pose proof (earned_by_gain (gain svc user)
                  (reconciled svc ((OrderNumber <$> batch_of work) ++ W1))
                  (orders db)) as Hg.
    cut (earned_by user (orders db)
         + foldr (fun r acc => gain svc user r + acc) 0 (orders db)
         <= earned_by user
              (reconciled svc ((OrderNumber <$> batch_of work) ++ W1)
               <$> orders db)); [lia|].
    apply Hg. intros r Hr. apply earning_gain; [exact Hr| |].
    + intros n Hn. apply elem_of_app in Hn. destruct Hn as [Hn|Hn];
        [|apply Hsound1, Hn].
      apply batch_numbers in Hn. destruct Hn as (o & info & Hin & _ & Hn).
      eapply work_sound; [exact Hfrom|]. exists o, info. split; assumption.
    + intros o info Ho Hun Hi Ep. apply elem_of_app. left.
      apply batch_numbers. exists o, info. split; [|split; [exact Ep|reflexivity]].
      unfold work, lookups. apply list_elem_of_fmap. exists o.
      split; [rewrite Hi; reflexivity|].
      unfold select_unfinished. apply list_elem_of_filter.
      split; [apply Is_true_eq_left, Hun | exact Ho].
Qed.

End one_tick.

Lemma same_account_refl db : same_account user db db.
Proof. split; reflexivity. Qed.

Lemma same_add_user id login password db db1 db' :
  insert_user id login password db = Ok db1 ->
  insert_balance id db1 = Ok db' -> same_account user db db'.
Proof.
  intros H1 H2. apply insert_user_ok in H1. destruct H1 as [-> _].
  apply insert_balance_ok in H2. destruct H2 as [-> _].
  split; [|reflexivity]. unfold funds. rewrite !balance_of_first_row.
  cbn [balance set_balance set_users]. rewrite first_row_app.
  destruct (first_row user (balance db)) as [b|]; [reflexivity|].
  unfold first_row. rewrite filter_cons. simpl.
  destruct (decide _); reflexivity.
Qed.

Lemma same_add_order owner number db db' :
  insert_order owner number db = Ok db' -> same_account user db db'.
Proof.
  intros H. apply insert_order_ok in H. destruct H as (-> & _).
  split; [reflexivity|]. unfold earned. cbn [orders set_orders].
  rewrite earned_by_app. unfold earned_by at 2, earning. simpl.
  destruct (N.eqb owner user); simpl; lia.
Qed.

Lemma same_withdraw number owner sum db db1 db' :
  0 <= Current (balance_of db owner) - sum ->
  insert_withdrawal number owner sum db = Ok db1 ->
  update_balance (debit sum) owner db1 = Ok db' -> same_account user db db'.
Proof.
  intros _ H1 H2. apply insert_withdrawal_ok in H1. destruct H1 as (-> & _).
  split.
  - unfold funds.
    rewrite (balance_of_update _ _ _ _ user (user_id_debit sum) H2).
    rewrite balance_of_first_row. simpl.
    destruct (first_row user (balance db)) as [b|]; [|reflexivity].
    destruct (N.eqb user owner); simpl; lia.
  - apply update_balance_ok in H2. destruct H2 as [-> _]. reflexivity.
Qed.

Lemma uncredited_step o db :
  accrual_driven o -> numbers_unique db ->
  uncredited db user <= uncredited (step o db) user.
Proof.
  destruct o; simpl; intros Hd Hu.
  - assert (same_account user db
              (fst (run (AddUser newID (mkUser 0%N login password)) f db)))
      as [Hf He]
      by (apply (keeps_run _ same_account_refl), keeps_AddUser, same_add_user).
    unfold uncredited. lia.
  - assert (same_account user db (fst (run (AddOrder user0 number) f db)))
      as [Hf He]
      by (apply (keeps_run _ same_account_refl), keeps_AddOrder, same_add_order).
    unfold uncredited. lia.
  - assert (same_account user db
              (fst (run (Withdraw user0 reference sum) f db)))
      as [Hf He]
      by (apply (keeps_run _ same_account_refl), keeps_Withdraw, same_withdraw).
    unfold uncredited. lia.
  - contradiction.
  - apply uncredited_update; assumption.
Qed.

Lemma uncredited_run_ops ops : forall db,
  Forall accrual_driven ops -> numbers_unique db ->
  uncredited db user <= uncredited (run_ops ops db) user.
Proof.
  unfold run_ops. induction ops as [|o ops IH]; intros db Hd Hu; simpl.
  - lia.
  - apply Forall_cons in Hd. destruct Hd as [Ho Hd].
    pose proof (uncredited_step o db Ho Hu) as H1.
    destruct (advance_step o db Hu) as [Hu' _].
    pose proof (IH (step o db) Hd Hu') as H2. lia.
Qed.


End earnings.


(** ** The wait before a retry *)

Section retry.

Variable ParseInt : string -> option Z.

Lemma int64_exact z :
  accrual.int64 z = z <-> - 2 ^ 63 <= z < 2 ^ 63.
Proof.
  unfold accrual.int64.
  change (2 ^ 63) with 9223372036854775808.
  change (2 ^ 64) with 18446744073709551616.
  split; intros H.
  - pose proof (Z.mod_pos_bound (z + 9223372036854775808)
                  18446744073709551616). lia.
  - rewrite Z.mod_small; lia.
Qed.

Lemma retryFn_429 header :
  header <> "" ->
  accrual.retryFn ParseInt 429 header
  = match ParseInt header with
    | None => None
    | Some seconds => Some (accrual.int64 (seconds * accrual.Second))
    end.
Proof.
  intros Hne. unfold accrual.retryFn. simpl.
  destruct header as [|c header]; [contradiction|]. reflexivity.
Qed.


End retry.


(** ** Registration, login and the session *)

Section sessions.
Import storage.

Lemma run_GetUserAuthInfo login f db :
  run (GetUserAuthInfo login) f db =
  if answers f 1
  then (db, match select_user_by_login login db with
            | u :: _ => Ok u
            | [] => Err ErrNoSuchUser
            end)
  else (db, Err ErrConn).
Proof.
  unfold run, GetUserAuthInfo, bind, Query, bind, roundtrip, ret, throw.
  destruct f as [[|k]|]; simpl; try reflexivity;
    destruct (select_user_by_login login db); reflexivity.
Qed.

Lemma run_GetUserAuthInfoByID id f db :
  run (GetUserAuthInfoByID id) f db =
  if answers f 1
  then (db, match select_user_by_id id db with
            | (login, password) :: _ => Ok (mkUser id login password)
            | [] => Err ErrNoSuchUser
            end)
  else (db, Err ErrConn).
Proof.
  unfold run, GetUserAuthInfoByID, bind, Query, bind, roundtrip, ret, throw.
  destruct f as [[|k]|]; simpl; try reflexivity;
    destruct (select_user_by_id id db) as [|[l p] r]; reflexivity.
Qed.

Lemma select_by_login_elem login db u rest :
  select_user_by_login login db = u :: rest ->
  u ∈ users db /\ Login u = login.
Proof.
  intros E.
  assert (u ∈ select_user_by_login login db) as Hin
    by (rewrite E; apply elem_of_cons; left; reflexivity).
  unfold select_user_by_login in Hin. apply list_elem_of_filter in Hin.
  destruct Hin as [Hp Hu]. split; [exact Hu|].
  apply Is_true_eq_true, String.eqb_eq in Hp. exact Hp.
Qed.

Lemma registerUser_cases contentType decoded newID encodes f1 f2 db :
  (app.registerUser contentType decoded newID encodes f1 f2 db
     = app.mkAnswer db app.StatusBadRequest None
   /\ (contentType <> "application/json" \/ decoded = None))
  \/ exists authData,
       contentType = "application/json" /\ decoded = Some authData
       /\ ((app.registerUser contentType decoded newID encodes f1 f2 db
              = app.mkAnswer db app.StatusConflict None
            /\ run (AddUser newID
                      (mkUser 0%N (app.Login authData) (app.Password authData)))
                 f1 db = (db, Err ErrDuplicateUser))
           \/ app.registerUser contentType decoded newID encodes f1 f2 db
              = app.mkAnswer db app.StatusInternalServerError None
           \/ (app.Login authData ∉ (Login <$> users db))
              /\ (newID ∉ (ID <$> users db))
              /\ (app.registerUser contentType decoded newID encodes f1 f2 db
                    = app.mkAnswer
                        (with_account db newID (app.Login authData)
                           (app.Password authData))
                        app.StatusInternalServerError None
                  \/ app.registerUser contentType decoded newID encodes f1 f2 db
                     = app.mkAnswer
                         (with_account db newID (app.Login authData)
                            (app.Password authData))
                         app.StatusOK (Some newID))).
Proof.
  unfold app.registerUser, app.parseRequest.
  destruct (String.eqb_spec contentType "application/json") as [Hct|Hct];
    simpl; [|left; split; [reflexivity | left; exact Hct]].
  destruct decoded as [authData|];
    [|left; split; [reflexivity | right; reflexivity]].
  right. exists authData. split; [exact Hct|]. split; [reflexivity|].
  destruct (run (AddUser newID _) f1 db) as [db1 [[]|e]] eqn:Ha.
  - apply AddUser_ok_fresh in Ha. simpl in Ha.
    destruct Ha as (-> & Hfresh & Hid).
    right. right. split; [exact Hfresh|]. split; [exact Hid|].
    rewrite run_GetUserAuthInfo. destruct (answers f2 1); [|left; reflexivity].
    rewrite (select_by_login_new db newID _ _ Hfresh).
    destruct encodes; [right | left]; reflexivity.
  - destruct (run_AddUser_cases newID
                (mkUser 0%N (app.Login authData) (app.Password authData)) f1 db)
      as [(e' & He)|He]; rewrite He in Ha; [|discriminate].
    injection Ha as <- <-.
    destruct e'; try (right; left; reflexivity).
    left. split; reflexivity.
Qed.


(** X21: [login] never changes the store; it sets the cookie only with
    the status 200, and only for the id of a user row whose login and
    password are those of the request. *)
Theorem login_checks_the_password contentType decoded encodes f db :
  app.a_db (app.login contentType decoded encodes f db) = db
  /\ (app.a_cookie (app.login contentType decoded encodes f db) = None ->
      app.a_code (app.login contentType decoded encodes f db) <> 200)
  /\ (forall id,
        app.a_cookie (app.login contentType decoded encodes f db) = Some id ->
        app.a_code (app.login contentType decoded encodes f db) = 200
        /\ exists authData u,
             decoded = Some authData /\ u ∈ users db /\ ID u = id
             /\ Login u = app.Login authData
             /\ Password u = app.Password authData).
Proof.
  unfold app.login, app.parseRequest.
  destruct (negb (String.eqb contentType "application/json")); simpl;
    [repeat split; try discriminate|].
  destruct decoded as [authData|]; [|repeat split; try discriminate].
  rewrite run_GetUserAuthInfo.
  destruct (answers f 1); [|repeat split; try discriminate].
  destruct (select_user_by_login (app.Login authData) db) as [|u rest] eqn:E;
    [repeat split; try discriminate|].
  apply select_by_login_elem in E. destruct E as [Hu Hl].
  destruct (String.eqb_spec (Password u) (app.Password authData)) as [Hp|Hp];
    simpl; [|repeat split; try discriminate].
  destruct encodes; simpl; [|repeat split; try discriminate].
  split; [reflexivity|]. split; [discriminate|].
  intros id H. injection H as <-. split; [reflexivity|].
  exists authData, u. repeat split; assumption.
Qed.

(** X22: after a registration answered with 200, a login with the same
    login and password is answered with 200 and the cookie of the same
    user when the database answers and the token can be made, and a login
    with the same login and any other password is answered with 401
    without a cookie. *)
Theorem login_after_registration contentType authData newID encodes f1 f2 db
    wrong :
  app.a_code
    (app.registerUser contentType (Some authData) newID encodes f1 f2 db)
    = 200 ->
  wrong <> app.Password authData ->
  app.login contentType (Some authData) true no_fault
    (app.a_db
       (app.registerUser contentType (Some authData) newID encodes f1 f2 db))
  = app.mkAnswer
      (app.a_db
         (app.registerUser contentType (Some authData) newID encodes f1 f2 db))
      200 (Some newID)
  /\ app.login contentType
       (Some (app.mkAuthRequest (app.Login authData) wrong)) true no_fault
       (app.a_db
          (app.registerUser contentType (Some authData) newID encodes f1 f2 db))
     = app.mkAnswer
         (app.a_db
            (app.registerUser contentType (Some authData) newID encodes f1 f2
               db))
         401 None.
Proof.
  intros Hcode Hwrong.
  destruct (registerUser_cases contentType (Some authData) newID encodes
              f1 f2 db)
    as [[H _]|(a & Hct & Hd & [[H _]|[H|(Hfresh & _ & [H|H])]])];
    rewrite H in Hcode |- *; try discriminate Hcode.
  injection Hd as <-. subst contentType. simpl.
  unfold app.login, app.parseRequest. simpl.
  rewrite !run_GetUserAuthInfo. simpl.
  rewrite (select_by_login_new db newID _ _ Hfresh). simpl.
  rewrite String.eqb_refl. simpl.
  destruct (String.eqb_spec (app.Password authData) wrong) as [He|_];
    [congruence|]. split; reflexivity.
Qed.

(** X23: [AuthorizationVerifier] lets a request through only with the
    row of a registered user: the token carries a string claim [id] that
    parses to the id of a row of [users], and that row is what the
    handlers find in the context; so the user of an admitted request
    exists for the foreign keys of the store. *)
Theorem AuthorizationVerifier_passes_registered_users Parse token f db
    userData :
  app.AuthorizationVerifier Parse token f db = app.Passed userData ->
  userData ∈ users db
  /\ user_exists db (ID userData) = true
  /\ exists claims s,
       token = Some claims
       /\ claims !! "id" = Some (app.ClaimString s)
       /\ Parse s = Some (ID userData).
Proof.
  unfold app.AuthorizationVerifier. intros H.
  destruct token as [claims|]; [|discriminate].
  destruct (claims !! "id") as [[s|]|] eqn:Ec; try discriminate.
  destruct (Parse s) as [userID|] eqn:Ep; [|discriminate].
  destruct (run (GetUserAuthInfoByID userID) f db) as [d [u|e]] eqn:Er;
    [|discriminate].
  injection H as ->.
  destruct (GetUserAuthInfoByID_elem userID f db userData) as [Hin Hid];
    [rewrite Er; reflexivity|].
  split; [exact Hin|]. split.
  - unfold user_exists. apply existsb_exists. exists userData.
    split; [apply list_elem_of_In, Hin | apply N.eqb_refl].
  - exists claims, s. split; [reflexivity|]. split; [exact Ec|].
    rewrite Hid. exact Ep.
Qed.

(** X24: the session of a new user.  With the cookie of a registration
    answered with 200, whose token carries the id as a string,
    [AuthorizationVerifier] lets the request through as the new user when
    the database answers, and refuses it with 401 when the database does
    not; a token without the claim [id] is refused and a claim [id] that
    is no string makes the handler panic. *)
Theorem session_of_a_new_user contentType decoded newID encodes f1 f2 db
    Parse claims s id :
  app.a_cookie (app.registerUser contentType decoded newID encodes f1 f2 db)
    = Some id ->
  claims !! "id" = Some (app.ClaimString s) ->
  Parse s = Some id ->
  (exists authData,
     decoded = Some authData
     /\ app.AuthorizationVerifier Parse (Some claims) no_fault
          (app.a_db
             (app.registerUser contentType decoded newID encodes f1 f2 db))
        = app.Passed
            (mkUser newID (app.Login authData) (app.Password authData)))
  /\ app.AuthorizationVerifier Parse (Some claims) (Some 0%nat)
       (app.a_db (app.registerUser contentType decoded newID encodes f1 f2 db))
     = app.Refused 401
  /\ app.AuthorizationVerifier Parse (Some (delete "id" claims)) no_fault
       (app.a_db (app.registerUser contentType decoded newID encodes f1 f2 db))
     = app.Refused 401
  /\ app.AuthorizationVerifier Parse
       (Some (<["id" := app.ClaimOther]> claims)) no_fault
       (app.a_db (app.registerUser contentType decoded newID encodes f1 f2 db))
     = app.Panics.
Proof.
  intros Hcookie Hclaim Hparse.
  destruct (registerUser_cases contentType decoded newID encodes f1 f2 db)
    as [[H _]|(a & Hct & Hd & [[H _]|[H|(Hfresh & Hid & [H|H])]])];
    rewrite H in Hcookie |- *; try discriminate Hcookie.
  injection Hcookie as <-. simpl.
  unfold app.AuthorizationVerifier.
  rewrite lookup_delete_eq, lookup_insert_eq, Hclaim, Hparse.
  rewrite !run_GetUserAuthInfoByID. simpl.
  rewrite (select_by_id_new db newID _ _ Hid).
  split; [|repeat split]. exists a. split; [exact Hd | reflexivity].
Qed.

End sessions.

(** A registration of carol on the store of alice and bob. *)
Lemma login_after_registration_carol :
  app.a_code
    (app.registerUser "application/json"
       (Some (app.mkAuthRequest "carol" "pw")) 3%N true storage.no_fault
       storage.no_fault demo.registered) = 200
  /\ "other" <> "pw"
  /\ app.a_cookie
       (app.login "application/json" (Some (app.mkAuthRequest "carol" "pw"))
          true storage.no_fault
          (app.a_db
             (app.registerUser "application/json"
                (Some (app.mkAuthRequest "carol" "pw")) 3%N true
                storage.no_fault storage.no_fault demo.registered)))
     = Some 3%N.
Proof.
  assert (app.a_code
            (app.registerUser "application/json"
               (Some (app.mkAuthRequest "carol" "pw")) 3%N true
               storage.no_fault storage.no_fault demo.registered) = 200)
    as Hcode by reflexivity.
  assert ("other" <> "pw") as Hne by discriminate.
  split; [exact Hcode|]. split; [exact Hne|].
  destruct (login_after_registration "application/json"
              (app.mkAuthRequest "carol" "pw") 3%N true storage.no_fault
              storage.no_fault demo.registered "other" Hcode Hne) as [-> _].
  reflexivity.
Defined.

(** The token of alice on the store of alice and bob. *)
Lemma AuthorizationVerifier_passes_registered_users_alice :
  app.AuthorizationVerifier (fun _ => Some demo.alice)
    (Some {["id" := app.ClaimString "1"]}) storage.no_fault demo.registered
  = app.Passed (storage.mkUser demo.alice "alice" "secret")
  /\ storage.user_exists demo.registered demo.alice = true.
Proof.
  assert (app.AuthorizationVerifier (fun _ => Some demo.alice)
            (Some {["id" := app.ClaimString "1"]}) storage.no_fault
            demo.registered
          = app.Passed (storage.mkUser demo.alice "alice" "secret")) as H
    by (vm_compute; reflexivity).
  split; [exact H|].
  destruct (AuthorizationVerifier_passes_registered_users _ _ _ _ _ H)
    as (_ & Hex & _). exact Hex.
Defined.

(** The session of carol. *)
Lemma session_of_a_new_user_carol :
  app.a_cookie
    (app.registerUser "application/json"
       (Some (app.mkAuthRequest "carol" "pw")) 3%N true storage.no_fault
       storage.no_fault demo.registered) = Some 3%N
  /\ app.AuthorizationVerifier (fun _ => Some 3%N)
       (Some {["id" := app.ClaimString "3"]}) (Some 0%nat)
       (app.a_db
          (app.registerUser "application/json"
             (Some (app.mkAuthRequest "carol" "pw")) 3%N true storage.no_fault
             storage.no_fault demo.registered))
     = app.Refused 401.
Proof.
  assert (app.a_cookie
            (app.registerUser "application/json"
               (Some (app.mkAuthRequest "carol" "pw")) 3%N true
               storage.no_fault storage.no_fault demo.registered) = Some 3%N)
    as Hcookie by reflexivity.
  split; [exact Hcookie|].
  destruct (session_of_a_new_user "application/json"
              (Some (app.mkAuthRequest "carol" "pw")) 3%N true
              storage.no_fault storage.no_fault demo.registered
              (fun _ => Some 3%N) {["id" := app.ClaimString "3"]} "3" 3%N
              Hcookie) as (_ & H & _).
  - vm_compute. reflexivity.
  - reflexivity.
  - exact H.
Defined.

(** ** What the status codes tell *)

Section codes.
Import storage.

(** [AddOrder] under any fault. *)
Lemma run_AddOrder user number f db :
  run (AddOrder user number) f db =
  if answers f 2
  then
    match insert_order user number db with
    | Ok db' => if answers f 3 then (db', Ok tt) else (db, Err ErrConn)
    | Err e =>
        if is_unique_violation e
        then
          if answers f 3
          then (db, Err match select_order_owner number db with
                        | clientID :: _ =>
                            if N.eqb clientID user
                            then ErrOrderAlreadyPlaced
                            else ErrDuplicateOrder
                        | [] => ErrDuplicateOrder
                        end)
          else (db, Err ErrConn)
        else (db, Err e)
    end
  else (db, Err ErrConn).
Proof.
  unfold run, AddOrder, checkDuplicateOrder, bind, try, Exec, Query, Begin,
    Commit, bind, roundtrip, throw.
  destruct f as [[|[|[|k]]]|]; simpl; try reflexivity;
    destruct (insert_order user number db) as [db'|e]; simpl;
    try reflexivity;
    destruct (is_unique_violation e); simpl; try reflexivity;
    destruct (select_order_owner number db) as [|c l]; simpl;
    try reflexivity;
    destruct (N.eqb c user); reflexivity.
Qed.

Lemma insert_order_error user number db e :
  insert_order user number db = Err e ->
  e = PgError UniqueViolationCode \/ e = PgError ForeignKeyViolationCode.
Proof.
  unfold insert_order. destruct (existsb _ _); [intros H; left; congruence|].
  destruct (user_exists db user); [discriminate|]. intros H. right. congruence.
Qed.

Lemma owner_elem number db c l :
  select_order_owner number db = c :: l ->
  exists o, o ∈ orders db /\ OrderNumber o = number /\ UserID o = c.
Proof.
  intros E.
  assert (c ∈ select_order_owner number db) as Hin
    by (rewrite E; apply elem_of_cons; left; reflexivity).
  unfold select_order_owner in Hin. apply list_elem_of_fmap in Hin.
  destruct Hin as (o & -> & Ho). apply list_elem_of_filter in Ho.
  destruct Ho as [Hp Ho]. exists o. split; [exact Ho|].
  split; [|reflexivity]. apply Is_true_eq_true, String.eqb_eq in Hp. exact Hp.
Qed.

(** What [AddOrder] has found when it returns one of its own errors. *)
Lemma AddOrder_errors user number f db e :
  run (AddOrder user number) f db = (db, Err e) ->
  (e = ErrOrderAlreadyPlaced ->
     exists o, o ∈ orders db /\ OrderNumber o = number /\ UserID o = user)
  /\ (e = ErrDuplicateOrder -> number ∈ (OrderNumber <$> orders db)).
Proof.
  rewrite run_AddOrder. destruct (answers f 2);
    [|intros H; injection H as <-; split; discriminate].
  destruct (insert_order user number db) as [db'|e'] eqn:Ei.
  { destruct (answers f 3); intros H; [discriminate|].
    injection H as <-. split; discriminate. }
  pose proof (insert_order_error _ _ _ _ Ei) as He'.
  destruct (is_unique_violation e') eqn:Eu.
  2:{ intros H. injection H as <-.
      destruct He' as [->| ->]; split; discriminate. }
  destruct (answers f 3); [|intros H; injection H as <-; split; discriminate].
  assert (number ∈ (OrderNumber <$> orders db)) as Hin.
  { unfold insert_order in Ei.
    destruct (existsb _ (orders db)) eqn:Ex.
    - apply existsb_exists in Ex. destruct Ex as (o & Ho & Hn).
      apply String.eqb_eq in Hn. subst number.
      apply list_elem_of_fmap_2, list_elem_of_In, Ho.
    - destruct (user_exists db user); [discriminate|].
      injection Ei as <-. discriminate Eu. }
  destruct (select_order_owner number db) as [|c l] eqn:Eo.
  - intros H. injection H as <-. split; [discriminate|]. intros _. exact Hin.
  - destruct (owner_elem _ _ _ _ Eo) as (o & Ho & Hn & Hc).
    destruct (N.eqb_spec c user) as [->|Hne]; intros H; injection H as <-.
    + split; [|discriminate]. intros _. exists o. repeat split; assumption.
    + split; [discriminate|]. intros _. exact Hin.
Qed.

(** X25: the status code of [apiAddUserOrder] tells what happened to the
    store, under any fault.  With 202 the store has exactly one row more,
    a NEW order of the user with the accrual 0, for a number that passed
    the checksum and was in no row; with any other code the store is as
    it was; 200 is answered only for a number the user has uploaded
    before, 409 only for a number that is in the store, 422 only for a
    number that fails the checksum. *)
Theorem apiAddUserOrder_answer_tells contentType body user f db :
  (snd (app.apiAddUserOrder contentType body user f db) = 202 ->
     fst (app.apiAddUserOrder contentType body user f db)
       = set_orders db (orders db ++ [mkOrder user body "NEW" 0])
     /\ app.isCorrectOrderNum body = true
     /\ (body ∉ (OrderNumber <$> orders db))
     /\ user_exists db user = true)
  /\ (snd (app.apiAddUserOrder contentType body user f db) <> 202 ->
      fst (app.apiAddUserOrder contentType body user f db) = db)
  /\ (snd (app.apiAddUserOrder contentType body user f db) = 200 ->
      exists o, o ∈ orders db /\ OrderNumber o = body /\ UserID o = user)
  /\ (snd (app.apiAddUserOrder contentType body user f db) = 409 ->
      body ∈ (OrderNumber <$> orders db))
  /\ (snd (app.apiAddUserOrder contentType body user f db) = 422 ->
      app.isCorrectOrderNum body = false).
Proof.
  unfold app.apiAddUserOrder.
  destruct (negb (String.eqb contentType "text/plain")); simpl;
    [repeat split; try discriminate|].
  destruct (app.isCorrectOrderNum body) eqn:Hok; simpl;
    [|repeat split; try discriminate].
  destruct (run_cases (AddOrder user body) f db)
    as [(e & Hrun)|(u & db' & f' & Hadd & Hrun)]; rewrite Hrun.
  - pose proof (AddOrder_errors user body f db e Hrun) as [Hplaced Hdup].
    destruct e; simpl; repeat split; try discriminate;
      try (intros _; apply Hplaced; reflexivity);
      try (intros _; apply Hdup; reflexivity).
  - apply AddOrder_ok in Hadd. apply insert_order_ok in Hadd.
    destruct Hadd as (-> & Hfresh & Hex). destruct u. simpl.
    repeat split; try discriminate; try assumption.
    intros H. exfalso. apply H. reflexivity.
Qed.

Lemma Withdraw_errors user number sum f db :
  run (Withdraw user number sum) f db = (db, Err ErrNotEnoughBalance) ->
  Current (balance_of db user) < sum.
Proof.
  intros H.
  destruct (run_Withdraw_fault user number sum db f) as [Hf|Hf];
    rewrite Hf in H; [|discriminate].
  rewrite run_Withdraw_no_fault in H.
  destruct (Z.ltb_spec (Current (balance_of db user) - sum) 0) as [Hlt|_];
    [lia|].
  exfalso. unfold insert_withdrawal in H.
  destruct (sum <? 0); [discriminate|].
  destruct (existsb _ (withdrawal db)); [discriminate|].
  destruct (user_exists db user); [|discriminate].
  unfold update_balance in H. destruct (forallb _ _); discriminate.
Qed.


End codes.
